(** * Schema pipeline: a shallow embedding of the type-generation script

    The script under [.github/scripts] detects which schema documents
    changed in the last commit, mirrors the raw schemas to object storage,
    and for each changed schema generates a declaration file, bundles the
    schema and publishes the bundle.

    The embedding follows the script function by function.  Everything the
    script does to the outside world (shell commands, the file system, the
    text-generation service, the schema registry, object storage, the
    console) goes through a small state-and-exception monad: a computation
    transforms a [World] and yields, besides its outcome, the chronological
    list of the interactions it caused.  The collaborators themselves are
    left open ([Externals]); the theorems hold whatever they answer. *)

From Stdlib Require Import Ascii String ZArith Permutation.
From stdpp Require Import base option list gmap strings pretty.

Open Scope string_scope.
Open Scope list_scope.
Set Warnings "-register-all".

(** ** JavaScript strings

    A JavaScript string is modelled as a Rocq [string] holding its UTF-8
    bytes.  All patterns the script searches for are ASCII, so searching
    bytes and searching UTF-16 code units agree. *)

Module Str.

Definition nl : string := String "010"%char "".

Fixpoint drop (n : nat) (s : string) : string :=
  match n, s with
  | O, _ => s
  | S _, EmptyString => EmptyString
  | S k, String _ s' => drop k s'
  end.

(** [String.prototype.startsWith] is [String.prefix pat s]. *)

(** [s.includes(pat)]: does [pat] occur somewhere in [s]? *)
Fixpoint includes (s pat : string) : bool :=
  String.prefix pat s ||
  match s with
  | EmptyString => false
  | String _ s' => includes s' pat
  end.

(** [s.endsWith(suf)]: compare the last [length suf] characters. *)
Definition endsWith (s suf : string) : bool :=
  let len := String.length s in
  let n := String.length suf in
  if (len <? n)%nat then false
  else String.eqb (substring (len - n) n s) suf.

(** [s.split(sep)] for a one-character separator; the result is never
    empty ([''.split(sep)] is [['']]). *)
Fixpoint split (sep : ascii) (s : string) : list string :=
  match s with
  | EmptyString => [EmptyString]
  | String c s' =>
      if Ascii.eqb c sep then EmptyString :: split sep s'
      else match split sep s' with
           | [] => [String c EmptyString]
           | h :: t => String c h :: t
           end
  end.

(** [arr.pop()] on a fresh array: its last element, [undefined] when
    empty. *)
Definition pop (l : list string) : option string := last l.

(** [arr.join(sep)] *)
Fixpoint join (sep : string) (l : list string) : string :=
  match l with
  | [] => EmptyString
  | [x] => x
  | x :: rest => x +:+ sep +:+ join sep rest
  end.

(** The split of [s] around the first occurrence of [pat]:
    [Some (before, after)] with [s = before ++ pat ++ after]. *)
Fixpoint cut (pat s : string) : option (string * string) :=
  if String.prefix pat s then Some (EmptyString, drop (String.length pat) s)
  else match s with
       | EmptyString => None
       | String c s' =>
           match cut pat s' with
           | Some (a, b) => Some (String c a, b)
           | None => None
           end
       end.

(** ECMAScript WhiteSpace and LineTerminator code points, as UTF-8. *)
Definition bytes (l : list nat) : string :=
  string_of_list_ascii (List.map ascii_of_nat l).

Definition whitespace : list string :=
  [ bytes [9]; bytes [10]; bytes [11]; bytes [12]; bytes [13]; bytes [32];
    bytes [194; 160];                    (* U+00A0 *)
    bytes [225; 154; 128];               (* U+1680 *)
    bytes [226; 128; 128]; bytes [226; 128; 129]; bytes [226; 128; 130];
    bytes [226; 128; 131]; bytes [226; 128; 132]; bytes [226; 128; 133];
    bytes [226; 128; 134]; bytes [226; 128; 135]; bytes [226; 128; 136];
    bytes [226; 128; 137]; bytes [226; 128; 138];   (* U+2000 .. U+200A *)
    bytes [226; 128; 168]; bytes [226; 128; 169];   (* U+2028, U+2029 *)
    bytes [226; 128; 175];               (* U+202F *)
    bytes [226; 129; 159];               (* U+205F *)
    bytes [227; 128; 128];               (* U+3000 *)
    bytes [239; 187; 191] ].             (* U+FEFF *)

(** Number of bytes of the white-space character [s] starts with, [0]
    when it starts with none. *)
Definition ws_len (s : string) : nat :=
  match List.find (fun w => String.prefix w s) whitespace with
  | Some w => String.length w
  | None => 0
  end.

(** [skip] is the number of bytes still to drop from the white-space
    character being removed. *)
Fixpoint trimStart_from (skip : nat) (s : string) : string :=
  match s with
  | EmptyString => EmptyString
  | String c s' =>
      match skip with
      | S k => trimStart_from k s'
      | O => match ws_len s with
             | O => s
             | S k => trimStart_from k s'
             end
      end
  end.

Definition trimStart (s : string) : string := trimStart_from 0 s.

Fixpoint trimEnd (s : string) : string :=
  match s with
  | EmptyString => EmptyString
  | String c s' =>
      if String.eqb (trimStart s) EmptyString then EmptyString
      else String c (trimEnd s')
  end.

(** [s.trim()] *)
Definition trim (s : string) : string := trimEnd (trimStart s).

(** [GetSubstitution] for a string pattern (no capture groups): [$$],
    [$&], [$`] and [$'] are interpreted, every other [$] is literal. *)
Fixpoint getSubstitution (matched before after r : string) : string :=
  match r with
  | EmptyString => EmptyString
  | String c r1 =>
      if Ascii.eqb c "$" then
        match r1 with
        | String d r2 =>
            if Ascii.eqb d "$" then String "$" (getSubstitution matched before after r2)
            else if Ascii.eqb d "&" then matched +:+ getSubstitution matched before after r2
            else if Ascii.eqb d "`" then before +:+ getSubstitution matched before after r2
            else if Ascii.eqb d "'" then after +:+ getSubstitution matched before after r2
            else String c (getSubstitution matched before after r1)
        | EmptyString => String c EmptyString
        end
      else String c (getSubstitution matched before after r1)
  end.

(** [s.replace(pat, r)] with a string pattern: the first occurrence only. *)
Definition replace (s pat r : string) : string :=
  match cut pat s with
  | None => s
  | Some (before, after) =>
      before +:+ getSubstitution pat before after r +:+ after
  end.

(** [s.match(/<result>([\s\S]*?)<\/result>/)], returning capture group 1.
    The leftmost match starts at the first [<result>] (a later one cannot
    match if the first cannot, since any closing tag after the later one
    also follows the first); the lazy group then stops at the first
    [</result>] that follows. *)
Definition match_result (s : string) : option string :=
  match cut "<result>" s with
  | None => None
  | Some (_, rest) =>
      match cut "</result>" rest with
      | None => None
      | Some (inner, _) => Some inner
      end
  end.

End Str.

(** ** Node's POSIX [path] functions used by the script *)

Module Path.

(** [path.dirname]: scan from the right, skipping trailing slashes, up to
    the last slash that ends the parent. *)
Fixpoint dirname_scan (rev_tail : list ascii) (matchedSlash : bool) : option nat :=
  (* [rev_tail] holds the characters at indices [i, i-1, ..., 1]; the
     result is the index [end]. *)
  match rev_tail with
  | [] => None
  | c :: rest =>
      if Ascii.eqb c "/" then
        if matchedSlash then dirname_scan rest true
        else Some (length rev_tail)
      else dirname_scan rest false
  end.

Definition dirname (path : string) : string :=
  match path with
  | EmptyString => "."
  | String c0 tail =>
      let hasRoot := Ascii.eqb c0 "/" in
      match dirname_scan (rev (list_ascii_of_string tail)) true with
      | None => if hasRoot then "/" else "."
      | Some e => if hasRoot && (e =? 1)%nat then "//" else substring 0 e path
      end
  end.

(** [normalizeString]: drop empty and [.] segments, let [..] cancel the
    segment before it.  [stack] is the result so far, last segment
    first. *)
Fixpoint normalizeSegments (allowAboveRoot : bool) (segs stack : list string)
  : list string :=
  match segs with
  | [] => rev stack
  | seg :: rest =>
      if String.eqb seg "" || String.eqb seg "." then
        normalizeSegments allowAboveRoot rest stack
      else if String.eqb seg ".." then
        match stack with
        | top :: below =>
            if String.eqb top ".." then
              normalizeSegments allowAboveRoot rest
                (if allowAboveRoot then ".." :: stack else stack)
            else normalizeSegments allowAboveRoot rest below
        | [] =>
            normalizeSegments allowAboveRoot rest
              (if allowAboveRoot then [".."] else [])
        end
      else normalizeSegments allowAboveRoot rest (seg :: stack)
  end.

Definition normalize (path : string) : string :=
  if String.eqb path "" then "."
  else
    let isAbsolute := String.prefix "/" path in
    let trailingSeparator := Str.endsWith path "/" in
    let p := Str.join "/" (normalizeSegments (negb isAbsolute) (Str.split "/" path) []) in
    if String.eqb p "" then
      if isAbsolute then "/" else if trailingSeparator then "./" else "."
    else
      let p := if trailingSeparator then p +:+ "/" else p in
      if isAbsolute then "/" +:+ p else p.

(** [path.join(a, b)] *)
Definition join (a b : string) : string :=
  match List.filter (fun s => negb (String.eqb s "")) [a; b] with
  | [] => "."
  | parts => normalize (Str.join "/" parts)
  end.

End Path.

(** ** The descriptor registry ([config.js]) *)

Record R2Keys := { bundled : string; types : string }.

Record Schema := {
  input : string;
  output : string;
  promptFile : string;
  r2Keys : R2Keys;
}.

Definition SCHEMAS : list Schema :=
  [ {| input := "schema/model.json";
       output := "types/model.d.ts";
       promptFile := ".github/scripts/prompts/model.prompt.txt";
       r2Keys := {| bundled := "schema-bundle/model.bundled.json";
                    types := "types/model.d.ts" |} |};
    {| input := "schema/content.json";
       output := "types/content.d.ts";
       promptFile := ".github/scripts/prompts/content.prompt.txt";
       r2Keys := {| bundled := "schema-bundle/content.bundled.json";
                    types := "types/content.d.ts" |} |};
    {| input := "schema/notification.json";
       output := "types/notification.d.ts";
       promptFile := ".github/scripts/prompts/notification.prompt.txt";
       r2Keys := {| bundled := "schema-bundle/notification.bundled.json";
                    types := "types/notification.d.ts" |} |};
    {| input := "schema/setting.json";
       output := "types/setting.d.ts";
       promptFile := ".github/scripts/prompts/setting.prompt.txt";
       r2Keys := {| bundled := "schema-bundle/setting.bundled.json";
                    types := "types/setting.d.ts" |} |};
    {| input := "schema/webhook.json";
       output := "types/webhook.d.ts";
       promptFile := ".github/scripts/prompts/webhook.prompt.txt";
       r2Keys := {| bundled := "schema-bundle/webhook.bundled.json";
                    types := "types/webhook.d.ts" |} |} ].

(** ** Values exchanged with the outside world *)

(** A parsed JSON document.  A number [JNumber m e] stands for [m * 10^e];
    the script only ever tests a number for being zero. *)
Inductive JSON :=
| JNull
| JBool (v : bool)
| JNumber (m e : Z)
| JString (s : string)
| JArray (items : list JSON)
| JObject (props : gmap string JSON).

(** JavaScript exceptions the script can see. *)
Inductive Error :=
| JsError (message : string)          (* [new Error(message)] *)
| TypeError (message : string)
| SyntaxError (message : string)
| SystemError (code : string) (path : string)
| ExternalError (origin : string) (message : string).

Inductive Result (A : Type) :=
| Ok (a : A)
| Raise (e : Error).
Arguments Ok {A} a.
Arguments Raise {A} e.

(** [ToBoolean] of a property value; [None] is [undefined]. *)
Definition truthy (v : option JSON) : bool :=
  match v with
  | None => false
  | Some JNull => false
  | Some (JBool v) => v
  | Some (JNumber m _) => negb (m =? 0)%Z
  | Some (JString s) => negb (String.eqb s "")
  | Some (JArray _) => true
  | Some (JObject _) => true
  end.

(** [v.k] on a parsed document: a [TypeError] on [null], an own property
    on an object, [undefined] on the other values (no value produced by
    [JSON.parse] inherits a [$id]). *)
Definition getProp (v : JSON) (k : string) : Result (option JSON) :=
  match v with
  | JNull => Raise (TypeError ("Cannot read properties of null (reading '" +:+ k +:+ "')"))
  | JObject props => Ok (props !! k)
  | _ => Ok None
  end.

(** Content blocks of a text-generation response. *)
Record ContentBlock := { type : string; text : option string }.

Record Message := { content : list ContentBlock }.

Record Thinking := { thinking_type : string; budget_tokens : Z }.

Record MessageParam := { role : string; param_content : list ContentBlock }.

Record CreateParams := {
  model : string;
  max_tokens : Z;
  temperature : Z;
  messages : list MessageParam;
  thinking : Thinking;
}.

Record PutObjectCommand := {
  Bucket : option string;
  Key : string;
  Body : string;
  ContentType : string;
  CacheControl : string;
}.

Inductive Stream := Stdout | Stderr.

Inductive LogArg :=
| LStr (s : string)
| LList (l : list string)
| LErr (e : Error).

(** One interaction with the outside world. *)
Inductive Event :=
| ELog (to : Stream) (args : list LogArg)
| EExec (command : string) (cwd : option string)
| EReadDir (dir : string)
| ERead (path : string)
| EWrite (path : string) (data : string)
| ERegister (schema : JSON)
| EBundle (id : option JSON)
| ECreate (params : CreateParams) (response : Result Message)
| EFormat (source : string)
| ESend (command : PutObjectCommand).

(** The state of a run: the process environment, the disk (file contents
    by path, and directory entries by directory in the order the operating
    system lists them), the documents registered with the schema library,
    and a clock counting the questions put to the outside so far. *)
Record World := {
  env : gmap string string;
  files : gmap string string;
  dirs : gmap string (list string);
  registry : list JSON;
  clock : nat;
}.

(** The two ways the script reads the disk. *)
Inductive DiskCall := ReadFile | ReadDir.

(** The collaborators outside the script.  Each sees the current [World],
    clock included, so the same question may be answered differently as the
    run proceeds. *)
Class Externals := {
  execSync : World -> string -> option string -> Result string;
  JSON_parse : string -> Result JSON;
  JSON_stringify : JSON -> string;
  registerSchema : World -> JSON -> Result unit;
  bundle : World -> option JSON -> Result JSON;
  messages_create : World -> CreateParams -> Result Message;
  prettier_format : World -> string -> Result string;
  r2_send : World -> PutObjectCommand -> Result unit;
  (** The code of the error the operating system raises when a path cannot
      be read: [ENOENT] when nothing is there, [EISDIR] for a directory read
      as a file, [ENOTDIR] for a file listed as a directory, [EACCES] when
      the process may not read it, and so on. *)
  errno : World -> DiskCall -> string -> string;
}.

(** ** The effect monad

    A computation takes the world and ends in one of three ways: it returns
    a value, it throws (which [try]/[catch] can intercept), or it calls
    [process.exit], which nothing intercepts.  Besides the new world it
    yields the events it caused, oldest first. *)

Inductive Outcome (A : Type) :=
| Ret (a : A)
| Throw (e : Error)
| Exit (code : Z).
Arguments Ret {A} a.
Arguments Throw {A} e.
Arguments Exit {A} code.

Definition M (A : Type) : Type := World -> Outcome A * World * list Event.

Definition ret {A} (a : A) : M A := fun w => (Ret a, w, []).

Definition bind {A B} (m : M A) (k : A -> M B) : M B :=
  fun w =>
    match m w with
    | (Ret a, w1, t1) => let '(o, w2, t2) := k a w1 in (o, w2, t1 ++ t2)
    | (Throw e, w1, t1) => (Throw e, w1, t1)
    | (Exit c, w1, t1) => (Exit c, w1, t1)
    end.

Definition throw {A} (e : Error) : M A := fun w => (Throw e, w, []).

(** [process.exit(code)] *)
Definition process_exit {A} (code : Z) : M A := fun w => (Exit code, w, []).

(** [try { m } catch (error) { h error }] *)
Definition tryCatch {A} (m : M A) (h : Error -> M A) : M A :=
  fun w =>
    match m w with
    | (Throw e, w1, t1) => let '(o, w2, t2) := h e w1 in (o, w2, t1 ++ t2)
    | r => r
    end.

Definition getWorld : M World := fun w => (Ret w, w, []).

Definition emit (e : Event) : M unit := fun w => (Ret tt, w, [e]).

Definition tick (w : World) : World :=
  {| env := env w; files := files w; dirs := dirs w;
     registry := registry w; clock := S (clock w) |}.

(** Ask a collaborator: the clock advances, a failure is thrown. *)
Definition call {A} (f : World -> Result A) : M A :=
  fun w =>
    match f w with
    | Ok a => (Ret a, tick w, [])
    | Raise e => (Throw e, tick w, [])
    end.

(** The result of a pure library function. *)
Definition liftResult {A} (r : Result A) : M A :=
  fun w => match r with Ok a => (Ret a, w, []) | Raise e => (Throw e, w, []) end.

Declare Scope pipeline_scope.
Delimit Scope pipeline_scope with pipeline.
Notation "x <- m ;; k" := (bind m (fun x => k))
  (at level 100, m at next level, right associativity) : pipeline_scope.
Notation "m ;; k" := (bind m (fun _ => k))
  (at level 100, right associativity) : pipeline_scope.
Open Scope pipeline_scope.

(** A document joins the registry of the schema library. *)
Definition remember (schema : JSON) : M unit :=
  fun w =>
    (Ret tt, {| env := env w; files := files w; dirs := dirs w;
                registry := registry w ++ [schema]; clock := clock w |}, []).

(** [for (const x of xs) body(x)] *)
Fixpoint forOf {A} (xs : list A) (body : A -> M unit) : M unit :=
  match xs with
  | [] => ret tt
  | x :: rest => body x ;; forOf rest body
  end.

Definition console_log (args : list LogArg) : M unit := emit (ELog Stdout args).
Definition console_error (args : list LogArg) : M unit := emit (ELog Stderr args).

(** *** The disk *)

Definition basename (path : string) : string :=
  default "" (Str.pop (Str.split "/" path)).

(** [dirs] holds the directories that can be listed and [files] the files
    that can be read; for any other path the call fails with the error of
    the operating system. *)
Definition readdirSync {ext : Externals} (dir : string) : M (list string) :=
  emit (EReadDir dir) ;;
  w <- getWorld ;;
  match dirs w !! dir with
  | Some names => ret names
  | None => throw (SystemError (errno w ReadDir dir) dir)
  end.

Definition readFileSync {ext : Externals} (path : string) : M string :=
  emit (ERead path) ;;
  w <- getWorld ;;
  match files w !! path with
  | Some data => ret data
  | None => throw (SystemError (errno w ReadFile path) path)
  end.

(** Writing needs the parent directory; it creates or overwrites the file
    and lists a new file in its directory. *)
Definition writeFileSync (path data : string) : M unit :=
  emit (EWrite path data) ;;
  fun w =>
    match dirs w !! Path.dirname path with
    | None => (Throw (SystemError "ENOENT" path), w, [])
    | Some names =>
        let names' :=
          if existsb (String.eqb (basename path)) names then names
          else names ++ [basename path] in
        (Ret tt, {| env := env w;
                    files := <[path := data]> (files w);
                    dirs := <[Path.dirname path := names']> (dirs w);
                    registry := registry w;
                    clock := clock w |}, [])
    end.

(** ** The script *)

Section Pipeline.

Context {ext : Externals}.

(** [const BUCKET_NAME = process.env.R2_BUCKET_NAME;] *)
Definition BUCKET_NAME (w : World) : option string := env w !! "R2_BUCKET_NAME".
Definition CACHE_CONTROL : string := "public, max-age=3600".

(** [execSync(command, { encoding: "utf8", cwd })] *)
Definition exec (command : string) (cwd : option string) : M string :=
  emit (EExec command cwd) ;;
  call (fun w => execSync w command cwd).

(** [changedFiles.includes(x)] *)
Definition Array_includes (l : list string) (x : string) : bool :=
  existsb (String.eqb x) l.

(** The filter applied to the lines of the diff:
    [(f) => f && f.endsWith(".json") && !f.includes("bundle")] *)
Definition keepChanged (f : string) : bool :=
  negb (String.eqb f "") && Str.endsWith f ".json" && negb (Str.includes f "bundle").

Definition changedFilesOf (diff : string) : list string :=
  List.filter keepChanged (Str.split "010" (Str.trim diff)).

Definition changedSchemasOf (changedFiles : list string) : list Schema :=
  List.filter (fun schema => Array_includes changedFiles (input schema)) SCHEMAS.

Definition detectChangedSchemas : M (list Schema) :=
  console_log [LStr ("Detecting changed schema files..." +:+ Str.nl)] ;;
  diff <- exec "git diff --name-only HEAD^ HEAD -- schema/" None ;;
  let changedFiles := changedFilesOf diff in
  console_log [LStr "Changed files:"; LList changedFiles] ;;
  let changedSchemas := changedSchemasOf changedFiles in
  console_log
    [LStr (Str.nl +:+ "Found " +:+ pretty (length changedSchemas) +:+ " schema(s) to process:");
     LList (List.map input changedSchemas)] ;;
  ret changedSchemas.

Definition uploadToR2 (key content contentType : string) : M unit :=
  console_log [LStr ("  Uploading to R2: " +:+ key)] ;;
  w <- getWorld ;;
  let command := {| Bucket := BUCKET_NAME w;
                    Key := key;
                    Body := content;
                    ContentType := contentType;
                    CacheControl := CACHE_CONTROL |} in
  emit (ESend command) ;;
  call (fun w => r2_send w command).

(** The filter applied to directory entries:
    [(file) => file.endsWith(".json") && !file.includes("bundle")] *)
Definition keepFile (file : string) : bool :=
  Str.endsWith file ".json" && negb (Str.includes file "bundle").

Definition uploadRawSchemas : M unit :=
  console_log [LStr (Str.nl +:+ "--- Uploading raw schemas to R2 ---")] ;;
  let schemaDir := "schema" in
  entries <- readdirSync schemaDir ;;
  let files := List.filter keepFile entries in
  forOf files (fun file =>
    let filePath := Path.join schemaDir file in
    content <- readFileSync filePath ;;
    uploadToR2 file content "application/json") ;;
  console_log [LStr ("  ✓ Uploaded " +:+ pretty (length files) +:+ " raw schema files")].

(** [registerSchema(schema)] of the schema library: a document it accepts
    joins the registry. *)
Definition register (schema : JSON) : M unit :=
  emit (ERegister schema) ;;
  call (fun w => registerSchema w schema) ;;
  remember schema.

Definition registerAllSchemas (schemaPath : string) : M unit :=
  let schemaDir := Path.dirname schemaPath in
  entries <- readdirSync schemaDir ;;
  let files := List.filter keepFile entries in
  forOf files (fun file =>
    let filePath := Path.join schemaDir file in
    tryCatch
      (content <- readFileSync filePath ;;
       schema <- liftResult (JSON_parse content) ;;
       id <- liftResult (getProp schema "$id") ;;
       if truthy id then register schema else ret tt)
      (fun error => ret tt)).

Definition bundleSchema (schemaPath : string) : M string :=
  registerAllSchemas schemaPath ;;
  data <- readFileSync schemaPath ;;
  mainSchema <- liftResult (JSON_parse data) ;;
  schemaId <- liftResult (getProp mainSchema "$id") ;;
  if negb (truthy schemaId) then
    throw (JsError ("Schema at " +:+ schemaPath +:+ " must have an $id property"))
  else
    emit (EBundle schemaId) ;;
    bundled <- call (fun w => bundle w schemaId) ;;
    ret (JSON_stringify bundled).

(** [msg.content.find((block) => block.type === "text")?.text || ""] *)
Definition responseText (msg : Message) : string :=
  match List.find (fun block => String.eqb (type block) "text") (content msg) with
  | Some block => default "" (text block)
  | None => ""
  end.

Definition createParams (prompt : string) : CreateParams :=
  {| model := "claude-sonnet-4-5-20250929";
     max_tokens := 20000;
     temperature := 1;
     messages := [ {| role := "user";
                      param_content := [ {| type := "text"; text := Some prompt |} ] |} ];
     thinking := {| thinking_type := "enabled"; budget_tokens := 16000 |} |}.

(** [anthropic.messages.create(params)]; the event keeps the answer. *)
Definition create (params : CreateParams) : M Message :=
  w <- getWorld ;;
  emit (ECreate params (messages_create w params)) ;;
  call (fun w => messages_create w params).

(** [prettier.format(source, { parser: "typescript", ... })] *)
Definition format (source : string) : M string :=
  emit (EFormat source) ;;
  call (fun w => prettier_format w source).

Definition generateTypes (config : Schema) : M string :=
  console_log [LStr "  Converting to TypeScript..."] ;;
  let schemaDir := Path.dirname (input config) in
  let schemaFileName := default "undefined" (Str.pop (Str.split "/" (input config))) in
  typescriptContent <-
    exec ("json2ts " +:+ schemaFileName +:+ " " +:+
          "--declareExternallyReferenced " +:+
          "--no-enableConstEnums " +:+
          "--no-additionalProperties " +:+
          "--ignoreMinAndMaxItems " +:+
          "--bannerComment=''")
         (Some schemaDir) ;;
  console_log [LStr "  Sending to Claude for cleanup..."] ;;
  promptTemplate <- readFileSync (promptFile config) ;;
  let prompt :=
    Str.replace promptTemplate "<d.ts></d.ts>"
      ("<d.ts>" +:+ Str.nl +:+ typescriptContent +:+ Str.nl +:+ "</d.ts>") in
  msg <- create (createParams prompt) ;;
  let responseText := responseText msg in
  let resultMatch := Str.match_result responseText in
  match resultMatch with
  | None =>
      console_error [LStr "No <result> tag found in Claude's response"] ;;
      throw (JsError "Failed to extract result from Claude's response")
  | Some group1 =>
      processedContent <- format (Str.trim group1) ;;
      ret processedContent
  end.

Definition processSchema (config : Schema) : M unit :=
  console_log [LStr (Str.nl +:+ "--- Processing " +:+ input config +:+ " ---")] ;;
  typesContent <- generateTypes config ;;
  writeFileSync (output config) typesContent ;;
  console_log [LStr ("  ✓ Written types to " +:+ output config)] ;;
  console_log [LStr "  Bundling schema..."] ;;
  bundledSchema <- bundleSchema (input config) ;;
  uploadToR2 (bundled (r2Keys config)) bundledSchema "application/json" ;;
  console_log [LStr "  ✓ Uploaded bundled schema"].

Definition required : list string :=
  [ "ANTHROPIC_API_KEY"; "R2_ACCOUNT_ID"; "R2_ACCESS_KEY_ID";
    "R2_SECRET_ACCESS_KEY"; "R2_BUCKET_NAME" ].

(** [!process.env[envVar]]: unset, or set to the empty string. *)
Definition envMissing (w : World) (envVar : string) : bool :=
  match env w !! envVar with
  | None => true
  | Some v => String.eqb v ""
  end.

Definition validateEnv : M unit :=
  forOf required (fun envVar =>
    w <- getWorld ;;
    if envMissing w envVar then
      console_error [LStr ("Error: Missing required environment variable: " +:+ envVar)] ;;
      process_exit 1
    else ret tt).

(** The loop of [main] over the changed schemas. *)
Definition processAll (changedSchemas : list Schema) : M unit :=
  forOf changedSchemas (fun schema =>
    tryCatch (processSchema schema)
      (fun error =>
         console_error
           [LStr (Str.nl +:+ "❌ Failed to process " +:+ input schema +:+ ":"); LErr error] ;;
         process_exit 1)).

Definition main : M unit :=
  validateEnv ;;
  changedSchemas <- detectChangedSchemas ;;
  if (length changedSchemas =? 0)%nat then
    console_log [LStr (Str.nl +:+ "No schema changes detected. Nothing to process.")]
  else
    uploadRawSchemas ;;
    processAll changedSchemas ;;
    console_log [LStr (Str.nl +:+ "✓ All changed schemas processed successfully")] ;;
    console_log [LStr "  Types will be committed by the workflow"] ;;
    console_log [LStr "  Types will be uploaded to R2 by sync-types workflow"].

(** The exit code of the process for an outcome of [main()]: [0] when the
    promise resolves, the argument of [process.exit], and [1] when the
    promise rejects with nothing to handle it. *)
Definition exitCode (o : Outcome unit) : Z :=
  match o with
  | Ret _ => 0
  | Exit code => code
  | Throw _ => 1
  end.

Definition run (w : World) : Z * World * list Event :=
  let '(o, w', t) := main w in (exitCode o, w', t).

End Pipeline.


(** ** The companion script that publishes the declaration files

    The workflow that follows a run of the script above uploads every
    declaration file found in [types/]. *)

Module SyncTypes.

Section Script.

Context {ext : Externals}.

(** [const BUCKET_NAME = process.env.R2_BUCKET_NAME;] *)
Definition BUCKET_NAME (w : World) : option string := env w !! "R2_BUCKET_NAME".
Definition CACHE_CONTROL : string := "public, max-age=3600".
Definition TYPES_DIR : string := "types".

Definition uploadToR2 (key content contentType : string) : M unit :=
  console_log [LStr ("Uploading: " +:+ key)] ;;
  w <- getWorld ;;
  let command := {| Bucket := BUCKET_NAME w;
                    Key := key;
                    Body := content;
                    ContentType := contentType;
                    CacheControl := CACHE_CONTROL |} in
  emit (ESend command) ;;
  call (fun w => r2_send w command).

(** The filter applied to directory entries: [(file) => file.endsWith(".d.ts")] *)
Definition keepType (file : string) : bool := Str.endsWith file ".d.ts".

Definition uploadAllTypes : M nat :=
  console_log [LStr ("Reading type files from " +:+ TYPES_DIR +:+ "/" +:+ Str.nl)] ;;
  entries <- readdirSync TYPES_DIR ;;
  let files := List.filter keepType entries in
  console_log
    [LStr ("Found " +:+ pretty (length files) +:+ " type file(s) to upload" +:+ Str.nl)] ;;
  forOf files (fun file =>
    let filePath := Path.join TYPES_DIR file in
    content <- readFileSync filePath ;;
    let r2Key := "types/" +:+ file in
    uploadToR2 r2Key content "application/typescript") ;;
  ret (length files).

Definition required : list string :=
  [ "R2_ACCOUNT_ID"; "R2_ACCESS_KEY_ID"; "R2_SECRET_ACCESS_KEY"; "R2_BUCKET_NAME" ].

(** [!process.env[envVar]]: unset, or set to the empty string. *)
Definition envMissing (w : World) (envVar : string) : bool :=
  match env w !! envVar with
  | None => true
  | Some v => String.eqb v ""
  end.

Definition validateEnv : M unit :=
  forOf required (fun envVar =>
    w <- getWorld ;;
    if envMissing w envVar then
      console_error [LStr ("Error: Missing required environment variable: " +:+ envVar)] ;;
      process_exit 1
    else ret tt).

Definition main : M unit :=
  validateEnv ;;
  w <- getWorld ;;
  console_log
    [LStr ("Uploading types to R2 bucket: " +:+ default "undefined" (BUCKET_NAME w) +:+ Str.nl)] ;;
  tryCatch
    (count <- uploadAllTypes ;;
     console_log
       [LStr (Str.nl +:+ "✓ Successfully uploaded " +:+ pretty count +:+ " type file(s) to R2")])
    (fun error =>
       console_error [LStr "Failed to upload types:"; LErr error] ;;
       process_exit 1).

(** The exit code of the process, as for the script above. *)
Definition run (w : World) : Z * World * list Event :=
  let '(o, w', t) := main w in
  (match o with Ret _ => 0%Z | Exit code => code | Throw _ => 1%Z end, w', t).

End Script.

End SyncTypes.

(** ** Vocabulary for the statements *)

(** A run of white-space characters. *)
Inductive blank : string -> Prop :=
| blank_nil : blank ""
| blank_cons (w x : string) : In w Str.whitespace -> blank x -> blank (w +:+ x).

Section Vocabulary.

Context {ext : Externals}.

(** The version-control query of the change detector. *)
Definition gitDiff : string := "git diff --name-only HEAD^ HEAD -- schema/".

(** Every required environment value is present. *)
Definition envComplete (w : World) : Prop :=
  forall v, In v required -> envMissing w v = false.

(** The body of the loop of [validateEnv]. *)
Definition checkEnv (envVar : string) : M unit :=
  w <- getWorld ;;
  if envMissing w envVar then
    console_error [LStr ("Error: Missing required environment variable: " +:+ envVar)] ;;
    process_exit 1
  else ret tt.

(** The bodies of the loops of [uploadRawSchemas] and
    [registerAllSchemas]. *)
Definition uploadRaw (schemaDir file : string) : M unit :=
  let filePath := Path.join schemaDir file in
  content <- readFileSync filePath ;;
  uploadToR2 file content "application/json".

Definition registerFile (schemaDir file : string) : M unit :=
  let filePath := Path.join schemaDir file in
  tryCatch
    (content <- readFileSync filePath ;;
     schema <- liftResult (JSON_parse content) ;;
     id <- liftResult (getProp schema "$id") ;;
     if truthy id then register schema else ret tt)
    (fun error => ret tt).

(** The body of the loop of [main]. *)
Definition processOrExit (schema : Schema) : M unit :=
  tryCatch (processSchema schema)
    (fun error =>
       console_error
         [LStr (Str.nl +:+ "❌ Failed to process " +:+ input schema +:+ ":"); LErr error] ;;
       process_exit 1).

(** What a trace shows: the puts handed to object storage, the files
    written, the documents handed to the schema registry. *)
Definition sends (t : list Event) : list PutObjectCommand :=
  omap (fun e => match e with ESend c => Some c | _ => None end) t.

Definition writes (t : list Event) : list (string * string) :=
  omap (fun e => match e with EWrite p d => Some (p, d) | _ => None end) t.

Definition registrations (t : list Event) : list JSON :=
  omap (fun e => match e with ERegister s => Some s | _ => None end) t.

(** Events that go, or may go, over the network: the text-generation call,
    the storage put, and the bundler's resolution (which fetches what the
    registry lacks). *)
Definition isNetwork (e : Event) : bool :=
  match e with
  | ECreate _ _ | ESend _ | EBundle _ => true
  | _ => false
  end.

Definition isExec (e : Event) : bool :=
  match e with
  | EExec _ _ => true
  | _ => false
  end.

(** What a step leaves alone: the environment and the disk. *)
Definition stable (w w' : World) : Prop :=
  env w' = env w /\ files w' = files w /\ dirs w' = dirs w.

(** A computation that, from any world, relates the worlds by [R] and
    causes only events satisfying [P]. *)
Definition always (R : World -> World -> Prop) (P : Event -> Prop)
    {A} (m : M A) : Prop :=
  forall w o w' t, m w = (o, w', t) -> R w w' /\ Forall P t.

Class Frame (R : World -> World -> Prop) := {
  frame_refl : forall w, R w w;
  frame_trans : forall w1 w2 w3, R w1 w2 -> R w2 w3 -> R w1 w3;
  frame_tick : forall w, R w (tick w);
  frame_remember : forall w s o w' t, remember s w = (o, w', t) -> R w w';
}.

Definition anyWorld (w w' : World) : Prop := True.

(** Neither a put nor a file write. *)
Definition quiet (e : Event) : Prop :=
  match e with
  | ESend _ | EWrite _ _ => False
  | _ => True
  end.

(** A put of the bundle of one of the descriptors [ds]. *)
Definition bundlePutOf (ds : list Schema) (c : PutObjectCommand) : Prop :=
  exists d, In d ds /\ Key c = bundled (r2Keys d) /\ ContentType c = "application/json".

(** No put, except the bundle of one of the descriptors [ds]. *)
Definition onlyBundlePuts (ds : list Schema) (e : Event) : Prop :=
  forall c, e = ESend c -> bundlePutOf ds c.

(** The three conditions of the change filter, spelled out. *)
Definition keptPath (f : string) : Prop :=
  f <> "" /\
  (exists p, f = p +:+ ".json") /\
  ~ (exists a b, f = a +:+ "bundle" +:+ b).

(** The two conditions of the directory filter. *)
Definition keptFile (f : string) : Prop :=
  (exists p, f = p +:+ ".json") /\
  ~ (exists a b, f = a +:+ "bundle" +:+ b).

(** The put of one raw schema file. *)
Definition rawCommand (w : World) (file content : string) : PutObjectCommand :=
  {| Bucket := BUCKET_NAME w;
     Key := file;
     Body := content;
     ContentType := "application/json";
     CacheControl := CACHE_CONTROL |}.

(** The document a directory entry contributes to the registry: the entry
    must be readable, must parse, and must carry a truthy [$id]. *)
Definition siblingDocument (w : World) (schemaDir file : string) : option JSON :=
  match files w !! Path.join schemaDir file with
  | None => None
  | Some data =>
      match JSON_parse data with
      | Raise _ => None
      | Ok schema =>
          match getProp schema "$id" with
          | Ok id => if truthy id then Some schema else None
          | Raise _ => None
          end
      end
  end.

(** The world with one directory listed in another order. *)
Definition relist (w : World) (dir : string) (entries : list string) : World :=
  {| env := env w; files := files w;
     dirs := <[dir := entries]> (dirs w);
     registry := registry w; clock := clock w |}.

(** The text of the first content block of text kind, [None] when there is
    no such block. *)
Definition firstTextBlock (msg : Message) : option ContentBlock :=
  List.find (fun block => String.eqb (type block) "text") (content msg).

(** The first occurrence of [pat] in [s] has [a] before it and [b] after
    it. *)
Definition firstOccurrence (pat s a b : string) : Prop :=
  s = a +:+ pat +:+ b /\
  forall a' b', s = a' +:+ pat +:+ b' -> (String.length a <= String.length a')%nat.

(** [s] holds a delimited result span. *)
Definition hasResultSpan (s : string) : Prop :=
  exists a inner b, s = a +:+ "<result>" +:+ inner +:+ "</result>" +:+ b.

(** The command line of the schema-to-declaration converter, and the
    composed instruction, as [generateTypes] builds them. *)
Definition json2ts (config : Schema) : string :=
  "json2ts " +:+ default "undefined" (Str.pop (Str.split "/" (input config))) +:+ " " +:+
  "--declareExternallyReferenced " +:+
  "--no-enableConstEnums " +:+
  "--no-additionalProperties " +:+
  "--ignoreMinAndMaxItems " +:+
  "--bannerComment=''".

Definition promptFor (promptTemplate typescriptContent : string) : string :=
  Str.replace promptTemplate "<d.ts></d.ts>"
    ("<d.ts>" +:+ Str.nl +:+ typescriptContent +:+ Str.nl +:+ "</d.ts>").

(** The two errors the script itself throws. *)
Definition generationError : Error :=
  JsError "Failed to extract result from Claude's response".

Definition missingIdError (schemaPath : string) : Error :=
  JsError ("Schema at " +:+ schemaPath +:+ " must have an $id property").

(** The events of [generateTypes] up to and including the answer of the
    text-generation service. *)
Definition generationEvents (config : Schema)
    (params : CreateParams) (response : Result Message) : list Event :=
  [ ELog Stdout [LStr "  Converting to TypeScript..."];
    EExec (json2ts config) (Some (Path.dirname (input config)));
    ELog Stdout [LStr "  Sending to Claude for cleanup..."];
    ERead (promptFile config);
    ECreate params response ].

(** What [processSchema] does after writing the declaration file. *)
Definition bundleAndUpload (config : Schema) : M unit :=
  console_log [LStr ("  ✓ Written types to " +:+ output config)] ;;
  console_log [LStr "  Bundling schema..."] ;;
  bundledSchema <- bundleSchema (input config) ;;
  uploadToR2 (bundled (r2Keys config)) bundledSchema "application/json" ;;
  console_log [LStr "  ✓ Uploaded bundled schema"].

(** The line [main] prints when a schema fails. *)
Definition failureLog (schema : Schema) (error : Error) : Event :=
  ELog Stderr [LStr (Str.nl +:+ "❌ Failed to process " +:+ input schema +:+ ":"); LErr error].

(** No file write. *)
Definition notWrite (e : Event) : Prop :=
  match e with
  | EWrite _ _ => False
  | _ => True
  end.

(** No answer from the text-generation service. *)
Definition notCreate (e : Event) : Prop :=
  match e with
  | ECreate _ _ => False
  | _ => True
  end.

(** The events of a change detection that read [diff]. *)
Definition detectEvents (diff : string) : list Event :=
  [ ELog Stdout [LStr ("Detecting changed schema files..." +:+ Str.nl)];
    EExec gitDiff None;
    ELog Stdout [LStr "Changed files:"; LList (changedFilesOf diff)];
    ELog Stdout
      [LStr (Str.nl +:+ "Found " +:+
             pretty (length (changedSchemasOf (changedFilesOf diff))) +:+
             " schema(s) to process:");
       LList (List.map input (changedSchemasOf (changedFilesOf diff)))] ].

End Vocabulary.

(** ** A sample repository

    Two schema documents, one of which carries no [$id]; a bundled artifact,
    an unparsable file and a [null] document beside them. *)

Definition doc_model : JSON :=
  JObject {[ "$id" := JString "https://example.test/model.json" ]}.

Definition doc_content : JSON :=
  JObject {[ "title" := JString "content" ]}.

Definition sample_ext (diff reply : string) : Externals := {|
  execSync := fun _ command _ =>
    if String.prefix "git " command then Ok diff
    else Ok "export interface Draft {}";
  JSON_parse := fun s =>
    if String.eqb s "model" then Ok doc_model
    else if String.eqb s "content" then Ok doc_content
    else if String.eqb s "null" then Ok JNull
    else Raise (SyntaxError "Unexpected token");
  JSON_stringify := fun _ => "{}";
  registerSchema := fun _ _ => Ok tt;
  bundle := fun _ _ => Ok doc_model;
  messages_create := fun _ _ =>
    Ok {| content := [ {| type := "thinking"; text := None |};
                       {| type := "text"; text := Some reply |};
                       {| type := "text"; text := Some "<result>late</result>" |} ] |};
  prettier_format := fun _ s => Ok (s +:+ Str.nl);
  r2_send := fun _ _ => Ok tt;
  errno := fun w _ path =>
    match dirs w !! path, files w !! path with
    | Some _, _ => "EISDIR"
    | None, Some _ => "ENOTDIR"
    | None, None => "ENOENT"
    end;
|}.

Definition sample_entries : list string :=
  [ "model.json"; "model.bundled.json"; "broken.json"; "null.json";
    "content.json"; "README.md" ].

Definition sample_world : World := {|
  env := list_to_map
           [ ("ANTHROPIC_API_KEY", "k"); ("R2_ACCOUNT_ID", "a");
             ("R2_ACCESS_KEY_ID", "i"); ("R2_SECRET_ACCESS_KEY", "s");
             ("R2_BUCKET_NAME", "bucket") ];
  files := list_to_map
             [ ("schema/model.json", "model");
               ("schema/content.json", "content");
               ("schema/broken.json", "{");
               ("schema/null.json", "null");
               ("schema/model.bundled.json", "{}");
               ("schema/README.md", "notes");
               (".github/scripts/prompts/model.prompt.txt", "Clean: <d.ts></d.ts>");
               (".github/scripts/prompts/content.prompt.txt", "Clean: <d.ts></d.ts>") ];
  dirs := list_to_map [ ("schema", sample_entries); ("types", ["model.d.ts"]) ];
  registry := [];
  clock := 0;
|}.

(** The same repository with an entry that cannot be read. *)
Definition sample_world_unreadable : World :=
  relist sample_world "schema" ("locked.json" :: sample_entries).

(** The same repository without the bucket name in the environment. *)
Definition sample_world_no_bucket : World :=
  {| env := delete "R2_BUCKET_NAME" (env sample_world);
     files := files sample_world; dirs := dirs sample_world;
     registry := registry sample_world; clock := clock sample_world |}.

Definition model_schema : Schema :=
  {| input := "schema/model.json";
     output := "types/model.d.ts";
     promptFile := ".github/scripts/prompts/model.prompt.txt";
     r2Keys := {| bundled := "schema-bundle/model.bundled.json";
                  types := "types/model.d.ts" |} |}.

Definition content_schema : Schema :=
  {| input := "schema/content.json";
     output := "types/content.d.ts";
     promptFile := ".github/scripts/prompts/content.prompt.txt";
     r2Keys := {| bundled := "schema-bundle/content.bundled.json";
                  types := "types/content.d.ts" |} |}.

Definition diff_both : string :=
  "schema/content.json" +:+ Str.nl +:+ "schema/model.json" +:+ Str.nl.
Definition diff_model : string := "schema/model.json" +:+ Str.nl.
Definition diff_content : string := "schema/content.json" +:+ Str.nl.
Definition diff_none : string := "schema/README.md" +:+ Str.nl.

Definition reply_good : string :=
  "Here you go. <result> export interface Model {} </result> and <result>more</result>".
Definition reply_bare : string := "export interface Model {}".

(** The answer of the sample text-generation service. *)
Definition sample_message (reply : string) : Message :=
  {| content := [ {| type := "thinking"; text := None |};
                  {| type := "text"; text := Some reply |};
                  {| type := "text"; text := Some "<result>late</result>" |} ] |}.

(** The content of a sample file, by name. *)
Definition sample_content (file : string) : string :=
  default "" (files sample_world !! Path.join "schema" file).








(** ** Further vocabulary *)

Section MoreVocabulary.

Context {ext : Externals}.

(** The line [validateEnv] prints for a missing value. *)
Definition missingLog (envVar : string) : Event :=
  ELog Stderr [LStr ("Error: Missing required environment variable: " +:+ envVar)].

(** The events of a change detection whose query fails. *)
Definition detectFailureEvents : list Event :=
  [ ELog Stdout [LStr ("Detecting changed schema files..." +:+ Str.nl)];
    EExec gitDiff None ].

(** The three lines that end a successful run. *)
Definition successEvents : list Event :=
  [ ELog Stdout [LStr (Str.nl +:+ "✓ All changed schemas processed successfully")];
    ELog Stdout [LStr "  Types will be committed by the workflow"];
    ELog Stdout [LStr "  Types will be uploaded to R2 by sync-types workflow"] ].

(** A string without a dollar sign. *)
Definition noDollar (s : string) : Prop :=
  forall a b, s <> a +:+ "$" +:+ b.

(** A call to the text-generation service made for the descriptor [d] on
    a disk whose files are [fs]: its one message is the template of [d]
    with a draft put in that the converter gave for the schema of [d]. *)
Definition generationFor (fs : gmap string string) (d : Schema) (p : CreateParams) : Prop :=
  exists promptTemplate typescriptContent w,
    fs !! promptFile d = Some promptTemplate /\
    execSync w (json2ts d) (Some (Path.dirname (input d))) = Ok typescriptContent /\
    p = createParams (promptFor promptTemplate typescriptContent).

(** A text handed to the pretty-printer for [d]: the trimmed result span
    of an answer to a call made for [d]. *)
Definition formattingFor (fs : gmap string string) (d : Schema) (source : string) : Prop :=
  exists p w msg inner,
    generationFor fs d p /\
    messages_create w p = Ok msg /\
    Str.match_result (responseText msg) = Some inner /\
    source = Str.trim inner.

(** An identifier handed to the bundler for [d]: the truthy [$id] of the
    document at the input path of [d]. *)
Definition bundleTargetOf (fs : gmap string string) (d : Schema) (id : option JSON) : Prop :=
  exists data doc,
    fs !! input d = Some data /\
    JSON_parse data = Ok doc /\
    getProp doc "$id" = Ok id /\
    truthy id = true.

(** What the raw upload may cause: it lists [schema], reads kept entries
    of it and puts each under its own name. *)
Definition mirrorEvent (e : Event) : Prop :=
  match e with
  | ELog _ _ => True
  | EReadDir dir => dir = "schema"
  | ERead path => exists f, keepFile f = true /\ path = Path.join "schema" f
  | ESend c => exists f, keepFile f = true /\ Key c = f /\ ContentType c = "application/json"
  | _ => False
  end.

(** What processing the descriptor [d] may cause, on a disk whose files
    were [fs] when the run began: the converter for [d] in the directory of
    [d]; the listing of that directory and reads of its kept entries, of
    the template of [d] and of the input of [d]; the registration of a
    parsed document with a truthy [$id]; a call to the service, a
    formatting and a bundling for [d]; the write of the output of [d]; the
    put under the bundled key of [d]. *)
Definition attemptEvent (fs : gmap string string) (d : Schema) (e : Event) : Prop :=
  match e with
  | ELog _ _ => True
  | EExec command cwd =>
      command = json2ts d /\ cwd = Some (Path.dirname (input d))
  | EReadDir dir => dir = Path.dirname (input d)
  | ERead path =>
      path = promptFile d \/ path = input d \/
      exists f, keepFile f = true /\ path = Path.join (Path.dirname (input d)) f
  | EWrite path _ => path = output d
  | ERegister schema =>
      exists data id,
        JSON_parse data = Ok schema /\ getProp schema "$id" = Ok id /\ truthy id = true
  | EBundle id => bundleTargetOf fs d id
  | ECreate p _ => generationFor fs d p
  | EFormat source => formattingFor fs d source
  | ESend c => Key c = bundled (r2Keys d) /\ ContentType c = "application/json"
  end.

(** What a run may cause when the descriptors [ds] changed: a line of
    output, the version-control query, an event of the raw upload, or an
    event of processing one of [ds]. *)
Definition workFor (fs : gmap string string) (ds : list Schema) (e : Event) : Prop :=
  (exists to args, e = ELog to args) \/
  e = EExec gitDiff None \/
  mirrorEvent e \/
  exists d, In d ds /\ attemptEvent fs d e.

(** The shape every put of the script has: the bucket of the environment
    [e], the fixed cache directive, the schema media type. *)
Definition putShape (e : gmap string string) (ev : Event) : Prop :=
  forall c, ev = ESend c ->
    Bucket c = e !! "R2_BUCKET_NAME" /\
    CacheControl c = "public, max-age=3600" /\
    ContentType c = "application/json".

(** A computation that keeps the invariant [I] and causes only events
    satisfying [P]. *)
Definition keeps (I : World -> Prop) (P : Event -> Prop) {A} (m : M A) : Prop :=
  forall w o w' t, I w -> m w = (o, w', t) -> I w' /\ Forall P t.

Class Invariant (I : World -> Prop) := {
  inv_tick : forall w, I w -> I (tick w);
  inv_remember : forall w s o w' t, I w -> remember s w = (o, w', t) -> I w';
  inv_write : forall w path data o w' t, I w -> writeFileSync path data w = (o, w', t) -> I w';
}.

(** The answered and unanswered calls to the text-generation service in a
    trace. *)
Definition creates (t : list Event) : list CreateParams :=
  omap (fun e => match e with ECreate p _ => Some p | _ => None end) t.

(** A computation that calls [process.exit] with no code other than
    [code]. *)
Definition exitsOnlyWith (code : Z) {A} (m : M A) : Prop :=
  forall w c w' t, m w = (Exit c, w', t) -> c = code.

(** Every value the companion script requires is present. *)
Definition syncEnvComplete (w : World) : Prop :=
  forall v, In v SyncTypes.required -> SyncTypes.envMissing w v = false.

(** The environment is [e]. *)
Definition envIs (e : gmap string string) (w : World) : Prop := env w = e.

(** The put of the bundle of one schema. *)
Definition bundleCommand (w : World) (config : Schema) (bundledSchema : string)
  : PutObjectCommand :=
  {| Bucket := BUCKET_NAME w;
     Key := bundled (r2Keys config);
     Body := bundledSchema;
     ContentType := "application/json";
     CacheControl := CACHE_CONTROL |}.

(** The put of one declaration file by the companion script. *)
Definition typeCommand (w : World) (file content : string) : PutObjectCommand :=
  {| Bucket := SyncTypes.BUCKET_NAME w;
     Key := "types/" +:+ file;
     Body := content;
     ContentType := "application/typescript";
     CacheControl := SyncTypes.CACHE_CONTROL |}.

(** The body of the loop of [SyncTypes.uploadAllTypes]. *)
Definition uploadType (file : string) : M unit :=
  let filePath := Path.join SyncTypes.TYPES_DIR file in
  content <- readFileSync filePath ;;
  let r2Key := "types/" +:+ file in
  SyncTypes.uploadToR2 r2Key content "application/typescript".

(** The events of the companion script around its upload. *)
Definition syncBanner (w : World) : Event :=
  ELog Stdout
    [LStr ("Uploading types to R2 bucket: " +:+
           default "undefined" (SyncTypes.BUCKET_NAME w) +:+ Str.nl)].

Definition syncFailureLog (error : Error) : Event :=
  ELog Stderr [LStr "Failed to upload types:"; LErr error].

End MoreVocabulary.

(** The sample repository after a run: two declaration files and a note. *)
Definition sample_types_world : World := {|
  env := env sample_world;
  files := <["types/model.d.ts" := "export interface Model {}"]>
             (<["types/content.d.ts" := "export interface Content {}"]>
                (files sample_world));
  dirs := <["types" := ["model.d.ts"; "NOTES.md"; "content.d.ts"]]> (dirs sample_world);
  registry := [];
  clock := 0;
|}.

(** A text-generation service, converter and storage that all fail. *)
Definition failing_ext : Externals := {|
  execSync := fun _ _ _ => Raise (ExternalError "git" "not a repository");
  JSON_parse := fun _ => Raise (SyntaxError "Unexpected token");
  JSON_stringify := fun _ => "{}";
  registerSchema := fun _ _ => Raise (ExternalError "schema" "rejected");
  bundle := fun _ _ => Raise (ExternalError "schema" "unresolved");
  messages_create := fun _ _ => Raise (ExternalError "anthropic" "overloaded");
  prettier_format := fun _ _ => Raise (SyntaxError "unexpected");
  r2_send := fun _ _ => Raise (ExternalError "r2" "forbidden");
  errno := fun _ _ _ => "EACCES";
|}.

(** A change to a schema file that has no entry in the registry. *)
Definition diff_function : string := "schema/function.json" +:+ Str.nl.

(** The content of a file of the [types] directory of [w], by name. *)
Definition types_content (w : World) (file : string) : string :=
  default "" (files w !! Path.join "types" file).

(** The sample repository with a directory among the entries of [schema]. *)
Definition sample_world_subdir : World := {|
  env := env sample_world;
  files := files sample_world;
  dirs := <["schema/drafts.json" := []]>
            (<["schema" := ["model.json"; "drafts.json"; "content.json"]]> (dirs sample_world));
  registry := [];
  clock := 0;
|}.

(** * Verification *)

(** ** The string and path functions on the inputs the script meets *)

Example split_lines :
  Str.split "010" ("schema/model.json" +:+ Str.nl +:+ "schema/x.json")
  = ["schema/model.json"; "schema/x.json"].
Proof. reflexivity. Qed.

Example split_empty : Str.split "010" "" = [""].
Proof. reflexivity. Qed.

Example trim_git_output :
  Str.trim ("schema/model.json" +:+ Str.nl) = "schema/model.json".
Proof. reflexivity. Qed.

Example trim_both : Str.trim ("  " +:+ Str.nl +:+ "a b " +:+ Str.nl) = "a b".
Proof. reflexivity. Qed.

Example trim_nbsp : Str.trim (Str.bytes [194; 160; 97; 239; 187; 191]) = "a".
Proof. reflexivity. Qed.

Example endsWith_json : Str.endsWith "schema/model.json" ".json" = true.
Proof. reflexivity. Qed.

Example endsWith_short : Str.endsWith "json" ".json" = false.
Proof. reflexivity. Qed.

Example includes_bundle : Str.includes "schema/model.bundled.json" "bundle" = true.
Proof. reflexivity. Qed.

Example replace_first :
  Str.replace "a<d.ts></d.ts>b<d.ts></d.ts>" "<d.ts></d.ts>" "X$$Y" = "aX$Yb<d.ts></d.ts>".
Proof. reflexivity. Qed.

Example match_result_lazy :
  Str.match_result "x<result> a </result>y<result>b</result>" = Some " a ".
Proof. reflexivity. Qed.

Example match_result_open_only : Str.match_result "x<result> a " = None.
Proof. reflexivity. Qed.

Example dirname_schema : Path.dirname "schema/model.json" = "schema".
Proof. reflexivity. Qed.

Example dirname_plain : Path.dirname "model.json" = ".".
Proof. reflexivity. Qed.

Example dirname_trailing : Path.dirname "/a/b//" = "/a".
Proof. reflexivity. Qed.

Example dirname_root : Path.dirname "/a" = "/".
Proof. reflexivity. Qed.

Example join_schema : Path.join "schema" "model.json" = "schema/model.json".
Proof. reflexivity. Qed.

Example join_dot : Path.join "." "model.json" = "model.json".
Proof. reflexivity. Qed.

Example join_up : Path.join "a/b" "../c.json" = "a/c.json".
Proof. reflexivity. Qed.


Example replace_dollar_amp :
  Str.replace "a<d.ts></d.ts>b" "<d.ts></d.ts>" "[$&|$`|$'|$1]" = "a[<d.ts></d.ts>|a|b|$1]b".
Proof. reflexivity. Qed.

Example replace_absent : Str.replace "no placeholder" "<d.ts></d.ts>" "X" = "no placeholder".
Proof. reflexivity. Qed.

Example match_result_empty_span : Str.match_result "<result></result>" = Some "".
Proof. reflexivity. Qed.

Example match_result_closing_first : Str.match_result "</result><result>" = None.
Proof. reflexivity. Qed.

Example dirname_double_root : Path.dirname "//a" = "//".
Proof. reflexivity. Qed.

Example dirname_slash : Path.dirname "/" = "/".
Proof. reflexivity. Qed.

Example dirname_trailing_relative : Path.dirname "a/" = ".".
Proof. reflexivity. Qed.

Example join_trailing : Path.join "schema/" "model.json" = "schema/model.json".
Proof. reflexivity. Qed.

Example join_empty : Path.join "" "model.json" = "model.json".
Proof. reflexivity. Qed.

Example join_absolute_up : Path.join "/a" "../../b" = "/b".
Proof. reflexivity. Qed.

Example join_to_dot : Path.join "a" ".." = ".".
Proof. reflexivity. Qed.

Example join_above : Path.join ".." "x" = "../x".
Proof. reflexivity. Qed.

Example registry_inputs :
  List.map input SCHEMAS =
  [ "schema/model.json"; "schema/content.json"; "schema/notification.json";
    "schema/setting.json"; "schema/webhook.json" ].
Proof. reflexivity. Qed.

Example registry_parents :
  List.map (fun s => Path.dirname (input s)) SCHEMAS =
  [ "schema"; "schema"; "schema"; "schema"; "schema" ].
Proof. reflexivity. Qed.
(** ** Facts about the string functions *)

Module StrFacts.

Lemma app_cons (c : ascii) (s t : string) : String c s +:+ t = String c (s +:+ t).
Proof. reflexivity. Qed.

Lemma app_nil_l (s : string) : "" +:+ s = s.
Proof. reflexivity. Qed.

#[local] Arguments String.append : simpl nomatch.

Ltac ssimpl := simpl; rewrite ?app_cons, ?app_nil_l.

Lemma app_nil_r (s : string) : s +:+ "" = s.
Proof. induction s as [|c s IH]; ssimpl; [reflexivity | now rewrite IH]. Qed.

Lemma app_assoc (a b c : string) : a +:+ (b +:+ c) = (a +:+ b) +:+ c.
Proof. induction a as [|x a IH]; ssimpl; [reflexivity | now rewrite IH]. Qed.

Lemma length_app (a b : string) :
  String.length (a +:+ b) = (String.length a + String.length b)%nat.
Proof. induction a as [|x a IH]; ssimpl; [reflexivity | now rewrite IH]. Qed.

Lemma app_inv_head (a b c : string) : a +:+ b = a +:+ c -> b = c.
Proof. induction a as [|x a IH]; ssimpl; intros H; [exact H | injection H; auto]. Qed.

Lemma prefix_spec (p s : string) :
  String.prefix p s = true <-> exists r, s = p +:+ r.
Proof.
  revert p. induction s as [|c s IH]; intros [|d p]; simpl.
  - split; [exists ""; reflexivity | reflexivity].
  - split; [discriminate | intros [r Hr]; discriminate].
  - split; [eexists; reflexivity | reflexivity].
  - destruct (ascii_dec d c) as [->|Hne].
    + rewrite IH. split; intros [r Hr]; exists r; rewrite ?app_cons in *; congruence.
    + split; [discriminate | intros [r Hr]; rewrite ?app_cons in Hr; congruence].
Qed.

Lemma drop_app (p r : string) : Str.drop (String.length p) (p +:+ r) = r.
Proof. induction p as [|c p IH]; ssimpl; [destruct r; reflexivity | exact IH]. Qed.

Lemma includes_nil (pat : string) :
  Str.includes "" pat = String.prefix pat "" || false.
Proof. reflexivity. Qed.

Lemma includes_cons (c : ascii) (s pat : string) :
  Str.includes (String c s) pat = String.prefix pat (String c s) || Str.includes s pat.
Proof. reflexivity. Qed.

Lemma includes_spec (s pat : string) :
  Str.includes s pat = true <-> exists a b, s = a +:+ pat +:+ b.
Proof.
  induction s as [|c s IH].
  - rewrite includes_nil, orb_false_r, prefix_spec. split.
    + intros [r Hr]. exists "", r. exact Hr.
    + intros ([|x a] & b & H); [exists b; exact H | discriminate].
  - rewrite includes_cons, orb_true_iff, prefix_spec, IH. split.
    + intros [[r Hr] | (a & b & H)].
      * exists "", r. exact Hr.
      * exists (String c a), b. rewrite ?app_cons. now rewrite H.
    + intros ([|x a] & b & H).
      * left. exists b. exact H.
      * right. exists a, b. rewrite ?app_cons in H. congruence.
Qed.

Lemma substring_skip (p r : string) (m : nat) :
  substring (String.length p) m (p +:+ r) = substring 0 m r.
Proof.
  induction p as [|c p IH]; ssimpl; [reflexivity|].
  exact IH.
Qed.

Lemma substring_all (r : string) : substring 0 (String.length r) r = r.
Proof. induction r as [|c r IH]; ssimpl; [reflexivity | now rewrite IH]. Qed.

Lemma substring_split (s : string) (k : nat) :
  (k <= String.length s)%nat ->
  s = substring 0 k s +:+ substring k (String.length s - k) s.
Proof.
  revert k. induction s as [|c s IH]; intros [|k] Hk; simpl in *; rewrite ?app_cons, ?app_nil_l in *; try reflexivity; try lia.
  - now rewrite substring_all.
  - rewrite <- IH by lia. reflexivity.
Qed.

Lemma endsWith_spec (s suf : string) :
  Str.endsWith s suf = true <-> exists p, s = p +:+ suf.
Proof.
  unfold Str.endsWith. split.
  - destruct (Nat.ltb_spec (String.length s) (String.length suf)) as [Hlt|Hge];
      [discriminate|].
    intros H%String.eqb_eq.
    exists (substring 0 (String.length s - String.length suf) s).
    pose proof (substring_split s (String.length s - String.length suf)) as Hs.
    replace (String.length s - (String.length s - String.length suf))%nat
      with (String.length suf) in Hs by lia.
    rewrite H in Hs. apply Hs. lia.
  - intros [p ->]. rewrite length_app.
    destruct (Nat.ltb_spec (String.length p + String.length suf) (String.length suf));
      [lia|].
    replace (String.length p + String.length suf - String.length suf)%nat
      with (String.length p) by lia.
    rewrite substring_skip, substring_all. apply String.eqb_refl.
Qed.

Lemma cut_nil (pat : string) :
  Str.cut pat "" =
  if String.prefix pat "" then Some ("", Str.drop (String.length pat) "") else None.
Proof. reflexivity. Qed.

Lemma cut_cons (pat : string) (c : ascii) (s : string) :
  Str.cut pat (String c s) =
  if String.prefix pat (String c s)
  then Some ("", Str.drop (String.length pat) (String c s))
  else match Str.cut pat s with
       | Some (a, b) => Some (String c a, b)
       | None => None
       end.
Proof. reflexivity. Qed.

(** [cut] finds an occurrence, and the earliest one. *)
Lemma cut_Some (pat s a b : string) :
  Str.cut pat s = Some (a, b) ->
  s = a +:+ pat +:+ b /\
  forall a' b', s = a' +:+ pat +:+ b' -> (String.length a <= String.length a')%nat.
Proof.
  revert a b. induction s as [|c s IH]; intros a b.
  - rewrite cut_nil. destruct (String.prefix pat "") eqn:Hp; [|discriminate].
    intros [= <- <-]. apply prefix_spec in Hp as [r Hr].
    destruct pat; [|discriminate]. split; [reflexivity | intros; simpl; lia].
  - rewrite cut_cons. destruct (String.prefix pat (String c s)) eqn:Hp.
    + intros [= <- <-]. apply prefix_spec in Hp as [r Hr].
      rewrite Hr, drop_app. split; [reflexivity | intros; simpl; lia].
    + destruct (Str.cut pat s) as [[a0 b0]|] eqn:Hc; [|discriminate].
      intros [= <- <-]. destruct (IH _ _ eq_refl) as [Hs Hmin].
      split; [rewrite app_cons; now rewrite <- Hs|].
      intros [|x a'] b' H.
      * assert (String.prefix pat (String c s) = true) as Hp'
          by (apply prefix_spec; exists b'; exact H).
        congruence.
      * rewrite app_cons in H. injection H as _ H. apply Hmin in H. simpl. lia.
Qed.

Lemma cut_None (pat s : string) :
  Str.cut pat s = None <-> Str.includes s pat = false.
Proof.
  induction s as [|c s IH].
  - rewrite cut_nil, includes_nil. destruct (String.prefix pat ""); simpl; split; congruence.
  - rewrite cut_cons, includes_cons.
    destruct (String.prefix pat (String c s)); simpl; [split; congruence|].
    rewrite <- IH. destruct (Str.cut pat s) as [[a0 b0]|]; split; congruence.
Qed.

(** Conversely, the earliest occurrence is the one [cut] returns. *)
Lemma cut_first (pat a b : string) :
  (forall a' b', a +:+ pat +:+ b = a' +:+ pat +:+ b' ->
                 (String.length a <= String.length a')%nat) ->
  Str.cut pat (a +:+ pat +:+ b) = Some (a, b).
Proof.
  intros Hmin.
  destruct (Str.cut pat (a +:+ pat +:+ b)) as [[a0 b0]|] eqn:Hc.
  - apply cut_Some in Hc as [Hs Hmin0].
    specialize (Hmin _ _ Hs). specialize (Hmin0 _ _ eq_refl).
    assert (String.length a = String.length a0) as Hlen by lia.
    clear Hmin Hmin0. revert a0 Hs Hlen.
    induction a as [|x a IH]; intros [|y a0] Hs Hlen; simpl in *; rewrite ?app_cons, ?app_nil_l in *; try discriminate.
    + apply app_inv_head in Hs. now subst.
    + injection Hs as -> Hs. injection Hlen as Hlen.
      specialize (IH _ Hs Hlen). congruence.
  - apply cut_None in Hc.
    assert (Str.includes (a +:+ pat +:+ b) pat = true) as Hi
      by (apply includes_spec; eauto).
    congruence.
Qed.

Lemma app_split_le (x y u v : string) :
  x +:+ y = u +:+ v -> (String.length x <= String.length u)%nat ->
  exists r, u = x +:+ r /\ y = r +:+ v.
Proof.
  revert u. induction x as [|c x IH]; intros u H Hlen.
  - exists u. split; [reflexivity | exact H].
  - destruct u as [|d u]; simpl in Hlen; [lia|].
    rewrite !app_cons in H. injection H as -> H.
    destruct (IH u H) as (r & -> & ->); [lia|].
    exists r. split; reflexivity.
Qed.

Lemma match_result_Some (s inner : string) :
  Str.match_result s = Some inner ->
  exists a rest b,
    Str.cut "<result>" s = Some (a, rest) /\
    Str.cut "</result>" rest = Some (inner, b).
Proof.
  unfold Str.match_result.
  destruct (Str.cut "<result>" s) as [[a rest]|]; [|discriminate].
  destruct (Str.cut "</result>" rest) as [[i b]|] eqn:Hclose; [|discriminate].
  intros [= <-]. exists a, rest, b. split; [reflexivity | exact Hclose].
Qed.

(** The scan fails exactly on the texts without a delimited span. *)
Lemma match_result_None (s : string) :
  Str.match_result s = None <->
  ~ (exists a inner b, s = a +:+ "<result>" +:+ inner +:+ "</result>" +:+ b).
Proof.
  split.
  - intros Hnone (a' & i & b & Hs). unfold Str.match_result in Hnone.
    destruct (Str.cut "<result>" s) as [[a rest]|] eqn:Hopen.
    + apply cut_Some in Hopen as [Hsplit Hmin].
      specialize (Hmin _ _ Hs).
      rewrite Hsplit in Hs. apply app_split_le in Hs as (r & -> & Hrest); [|exact Hmin].
      rewrite app_assoc in Hrest.
      apply app_split_le in Hrest as (r2 & _ & ->);
        [|rewrite length_app; lia].
      destruct (Str.cut "</result>" (r2 +:+ i +:+ "</result>" +:+ b)) as [[x y]|] eqn:Hclose;
        [discriminate|].
      apply cut_None in Hclose.
      assert (Str.includes (r2 +:+ i +:+ "</result>" +:+ b) "</result>" = true) as Hin.
      { apply includes_spec. exists (r2 +:+ i), b. now rewrite <- app_assoc. }
      congruence.
    + apply cut_None in Hopen.
      assert (Str.includes s "<result>" = true) as Hin
        by (apply includes_spec; eauto).
      congruence.
  - intros Hno. destruct (Str.match_result s) as [inner|] eqn:Hm; [|reflexivity].
    exfalso. apply Hno.
    apply match_result_Some in Hm as (a & rest & b & Hopen & Hclose).
    apply cut_Some in Hopen as [-> _]. apply cut_Some in Hclose as [-> _].
    eauto.
Qed.

(** The scan returns the text between the first opening tag and the first
    closing tag after it. *)
Lemma match_result_first (s pre rest inner post : string) :
  s = pre +:+ "<result>" +:+ rest ->
  (forall a' b', s = a' +:+ "<result>" +:+ b' ->
                 (String.length pre <= String.length a')%nat) ->
  rest = inner +:+ "</result>" +:+ post ->
  (forall a' b', rest = a' +:+ "</result>" +:+ b' ->
                 (String.length inner <= String.length a')%nat) ->
  Str.match_result s = Some inner.
Proof.
  intros Hs Hmin Hrest Hmin'. unfold Str.match_result.
  rewrite Hs, cut_first by (intros a' b' H; apply (Hmin a' b'); now rewrite Hs).
  rewrite Hrest, cut_first by (intros a' b' H; apply (Hmin' a' b'); now rewrite Hrest).
  reflexivity.
Qed.

Lemma split_nonempty (sep : ascii) (s : string) : Str.split sep s <> [].
Proof.
  destruct s as [|c s]; simpl; [discriminate|].
  destruct (Ascii.eqb c sep); [discriminate|].
  destruct (Str.split sep s); discriminate.
Qed.

Lemma join_cons (sep x y : string) (l : list string) :
  Str.join sep (x :: y :: l) = x +:+ sep +:+ Str.join sep (y :: l).
Proof. reflexivity. Qed.

(** Splitting loses nothing: joining the pieces with the separator gives
    the string back. *)
Lemma join_split (sep : ascii) (s : string) :
  Str.join (String sep "") (Str.split sep s) = s.
Proof.
  induction s as [|c s IH]; [reflexivity|].
  cbn [Str.split]. pose proof (split_nonempty sep s) as Hs.
  destruct (Str.split sep s) as [|h t]; [congruence|].
  destruct (Ascii.eqb_spec c sep) as [->|Hne].
  - rewrite join_cons, IH. reflexivity.
  - destruct t as [|h' t].
    + cbn [Str.join] in *. now rewrite IH.
    + rewrite join_cons in *. rewrite app_cons. now rewrite IH.
Qed.

End StrFacts.

(** ** [trim] removes exactly the white space at both ends *)

Module TrimFacts.

Import StrFacts.

#[local] Arguments String.append : simpl nomatch.

Lemma whitespace_nonempty (w : string) : In w Str.whitespace -> w <> "".
Proof.
  intros Hin. unfold Str.whitespace in Hin. simpl in Hin.
  repeat (destruct Hin as [<-|Hin]; [discriminate|]). destruct Hin.
Qed.

Lemma trimStart_white (w x : string) :
  In w Str.whitespace -> Str.trimStart (w +:+ x) = Str.trimStart x.
Proof.
  intros Hin. unfold Str.whitespace in Hin. simpl in Hin.
  repeat (destruct Hin as [<-|Hin]; [destruct x; reflexivity|]).
  destruct Hin.
Qed.

Lemma trimStart_blank (x : string) : blank x -> Str.trimStart x = "".
Proof.
  induction 1 as [|w x Hw _ IH]; [reflexivity|].
  now rewrite trimStart_white.
Qed.

Lemma ws_len_zero (s : string) :
  Str.ws_len s = 0%nat <-> forall w x, In w Str.whitespace -> s <> w +:+ x.
Proof.
  unfold Str.ws_len. split.
  - destruct (List.find (fun w => String.prefix w s) Str.whitespace) as [w0|] eqn:Hf.
    + apply find_some in Hf as [Hin _]. apply whitespace_nonempty in Hin.
      destruct w0; [congruence | discriminate].
    + intros _ w x Hin ->.
      apply (find_none _ _ Hf) in Hin.
      assert (String.prefix w (w +:+ x) = true) by (apply prefix_spec; eauto).
      congruence.
  - intros Hno.
    destruct (List.find (fun w => String.prefix w s) Str.whitespace) as [w0|] eqn:Hf;
      [|reflexivity].
    apply find_some in Hf as [Hin Hp]. apply prefix_spec in Hp as [x ->].
    now destruct (Hno w0 x Hin).
Qed.

Lemma trimStart_fixed (s : string) : Str.ws_len s = 0%nat -> Str.trimStart s = s.
Proof.
  intros H. destruct s as [|c s]; [reflexivity|].
  unfold Str.trimStart. cbn [Str.trimStart_from]. now rewrite H.
Qed.

Lemma trimStart_spec (s : string) :
  exists l, blank l /\ s = l +:+ Str.trimStart s /\ Str.ws_len (Str.trimStart s) = 0%nat.
Proof.
  remember (String.length s) as n eqn:Hn. revert s Hn.
  induction n as [n IH] using lt_wf_ind. intros s ->.
  destruct (Str.ws_len s) as [|k] eqn:Hlen.
  - exists "". rewrite trimStart_fixed by exact Hlen.
    split; [constructor|]. split; [reflexivity | exact Hlen].
  - unfold Str.ws_len in Hlen.
    destruct (List.find (fun w => String.prefix w s) Str.whitespace) as [w|] eqn:Hf;
      [|discriminate].
    apply find_some in Hf as [Hin Hp]. apply prefix_spec in Hp as [x ->].
    destruct (IH (String.length x)) with (s := x) as (l & Hl & Hx & Hz); [|reflexivity|].
    { rewrite length_app. destruct w; [discriminate | simpl; lia]. }
    exists (w +:+ l). rewrite trimStart_white by exact Hin.
    split; [now constructor|]. split; [|exact Hz].
    rewrite <- app_assoc. now rewrite <- Hx.
Qed.

Lemma trimEnd_prefix (s : string) :
  exists r, blank r /\ s = Str.trimEnd s +:+ r.
Proof.
  induction s as [|c s IH]; [exists ""; split; [constructor | reflexivity]|].
  cbn [Str.trimEnd].
  destruct (String.eqb_spec (Str.trimStart (String c s)) "") as [He|Hne].
  - exists (String c s). split; [|reflexivity].
    destruct (trimStart_spec (String c s)) as (l & Hl & Hs & _).
    rewrite He, app_nil_r in Hs. now rewrite Hs.
  - destruct IH as (r & Hr & Hs). exists r. split; [exact Hr|].
    rewrite app_cons. now rewrite <- Hs.
Qed.

Lemma trimEnd_short (p x : string) :
  blank x -> (String.length (Str.trimEnd (p +:+ x)) <= String.length p)%nat.
Proof.
  intros Hx. induction p as [|c p IH].
  - rewrite app_nil_l. destruct x as [|d x]; [simpl; lia|].
    cbn [Str.trimEnd]. rewrite (trimStart_blank _ Hx). simpl. lia.
  - rewrite app_cons. cbn [Str.trimEnd].
    destruct (String.eqb (Str.trimStart (String c (p +:+ x))) ""); simpl; lia.
Qed.

(** [trim] strips a run of white space from each end, and what is left
    neither starts nor ends with a white-space character. *)
Lemma trim_spec (s : string) :
  exists l r,
    blank l /\ blank r /\ s = l +:+ Str.trim s +:+ r /\
    (forall w x, In w Str.whitespace -> Str.trim s <> w +:+ x) /\
    (forall p w, In w Str.whitespace -> Str.trim s <> p +:+ w).
Proof.
  unfold Str.trim.
  destruct (trimStart_spec s) as (l & Hl & Hs & Hz).
  destruct (trimEnd_prefix (Str.trimStart s)) as (r & Hr & Hy).
  exists l, r. split; [exact Hl|]. split; [exact Hr|]. split; [|split].
  - now rewrite <- Hy.
  - intros w x Hin Heq. rewrite Heq, <- app_assoc in Hy.
    exact (proj1 (ws_len_zero _) Hz w _ Hin Hy).
  - intros p w Hin Heq.
    assert (blank (w +:+ r)) as Hb by now constructor.
    pose proof (trimEnd_short p (w +:+ r) Hb) as Hlen.
    rewrite app_assoc, <- Heq, <- Hy, Heq, length_app in Hlen.
    apply whitespace_nonempty in Hin. destruct w; [congruence | simpl in Hlen; lia].
Qed.

End TrimFacts.

(** ** Running the monad *)

Section Facts.

Context {ext : Externals}.

#[local] Arguments changedSchemasOf : simpl never.
#[local] Arguments changedFilesOf : simpl never.
#[local] Arguments keepFile : simpl never.
#[local] Arguments keepChanged : simpl never.
#[local] Arguments Path.join : simpl never.
#[local] Arguments Path.dirname : simpl never.
#[local] Arguments Str.trim : simpl never.
#[local] Arguments Str.split : simpl never.
#[local] Arguments Str.replace : simpl never.
#[local] Arguments Str.match_result : simpl never.
#[local] Arguments pretty : simpl never.
#[local] Arguments createParams : simpl never.

Lemma bind_Ret {A B} (m : M A) (k : A -> M B) w a w1 t1 :
  m w = (Ret a, w1, t1) ->
  bind m k w = let '(o, w2, t2) := k a w1 in (o, w2, t1 ++ t2).
Proof. intros H. unfold bind. now rewrite H. Qed.

Lemma bind_Throw {A B} (m : M A) (k : A -> M B) w e w1 t1 :
  m w = (Throw e, w1, t1) -> bind m k w = (Throw e, w1, t1).
Proof. intros H. unfold bind. now rewrite H. Qed.

Lemma bind_Exit {A B} (m : M A) (k : A -> M B) w c w1 t1 :
  m w = (Exit c, w1, t1) -> bind m k w = (Exit c, w1, t1).
Proof. intros H. unfold bind. now rewrite H. Qed.

(** Every way a sequence can end. *)
Lemma bind_inv {A B} (m : M A) (k : A -> M B) w o w' t :
  bind m k w = (o, w', t) ->
  (exists a w1 t1 t2,
      m w = (Ret a, w1, t1) /\ k a w1 = (o, w', t2) /\ t = t1 ++ t2) \/
  (exists e, m w = (Throw e, w', t) /\ o = Throw e) \/
  (exists c, m w = (Exit c, w', t) /\ o = Exit c).
Proof.
  unfold bind. destruct (m w) as [[[a|e|c] w1] t1].
  - destruct (k a w1) as [[o2 w2] t2] eqn:Hk. intros [= <- <- <-].
    left. exists a, w1, t1, t2. auto.
  - intros [= <- <- <-]. right. left. eauto.
  - intros [= <- <- <-]. right. right. eauto.
Qed.

(** *** Environment validation *)

Lemma validateEnv_eq : validateEnv = forOf required checkEnv.
Proof. reflexivity. Qed.

Lemma forOf_checkEnv_ok (l : list string) (w : World) :
  (forall v, In v l -> envMissing w v = false) ->
  forOf l checkEnv w = (Ret tt, w, []).
Proof.
  induction l as [|v l IH]; intros H; [reflexivity|].
  cbn [forOf]. unfold bind at 1. unfold checkEnv at 1, bind, getWorld.
  rewrite (H v) by (left; reflexivity). cbn [ret].
  rewrite IH by (intros; apply H; right; assumption). reflexivity.
Qed.

Lemma forOf_checkEnv_missing (l : list string) (w : World) :
  (exists v, In v l /\ envMissing w v = true) ->
  exists v, In v l /\ envMissing w v = true /\
    forOf l checkEnv w =
    (Exit 1, w, [ELog Stderr [LStr ("Error: Missing required environment variable: " +:+ v)]]).
Proof.
  induction l as [|v l IH]; intros (x & Hin & Hx); [destruct Hin|].
  destruct (envMissing w v) eqn:Hv.
  - exists v. split; [left; reflexivity|]. split; [exact Hv|].
    cbn [forOf]. unfold bind at 1. unfold checkEnv at 1, bind, getWorld.
    rewrite Hv. reflexivity.
  - destruct Hin as [->|Hin]; [congruence|].
    destruct IH as (y & Hy & Hmiss & Hrun); [eauto|].
    exists y. split; [right; exact Hy|]. split; [exact Hmiss|].
    cbn [forOf]. unfold bind at 1. unfold checkEnv at 1, bind, getWorld.
    rewrite Hv. cbn [ret]. rewrite Hrun. reflexivity.
Qed.

Lemma validateEnv_ok (w : World) :
  envComplete w -> validateEnv w = (Ret tt, w, []).
Proof. intros H. rewrite validateEnv_eq. now apply forOf_checkEnv_ok. Qed.

(** *** Change detection *)

Lemma detect_run (w : World) (diff : string) :
  execSync w gitDiff None = Ok diff ->
  detectChangedSchemas w =
  (Ret (changedSchemasOf (changedFilesOf diff)), tick w, detectEvents diff).
Proof.
  intros H. unfold detectChangedSchemas, exec, console_log, bind, emit, call, ret.
  fold gitDiff. rewrite H. reflexivity.
Qed.

Lemma keepChanged_spec (f : string) : keepChanged f = true <-> keptPath f.
Proof.
  unfold keepChanged, keptPath.
  rewrite !andb_true_iff, !negb_true_iff, String.eqb_neq.
  rewrite StrFacts.endsWith_spec, <- not_true_iff_false, StrFacts.includes_spec.
  tauto.
Qed.

Lemma keepFile_spec (f : string) : keepFile f = true <-> keptFile f.
Proof.
  unfold keepFile, keptFile.
  rewrite !andb_true_iff, !negb_true_iff.
  rewrite StrFacts.endsWith_spec, <- not_true_iff_false, StrFacts.includes_spec.
  tauto.
Qed.

Lemma Array_includes_spec (l : list string) (x : string) :
  Array_includes l x = true <-> In x l.
Proof.
  unfold Array_includes. rewrite existsb_exists. split.
  - intros (y & Hy & Heq). apply String.eqb_eq in Heq. now subst.
  - intros H. exists x. split; [exact H | apply String.eqb_refl].
Qed.

Lemma filter_sublist {A} (f : A -> bool) (l : list A) : sublist (List.filter f l) l.
Proof.
  induction l as [|x l IH]; simpl; [constructor|].
  destruct (f x); now constructor.
Qed.

(** C7: given the output of the version-control query, the change detector
    returns normally (an empty result included) with exactly the registered
    descriptors, in registry order, whose input path is in the filtered
    changed-file list; a line of the output is in that list if and only if
    it is non-empty, ends in [.json] and does not contain [bundle]. *)
Theorem detect_returns_changed_descriptors (w : World) (diff : string) :
  execSync w gitDiff None = Ok diff ->
  exists changed t,
    detectChangedSchemas w = (Ret changed, tick w, t) /\
    sublist changed SCHEMAS /\
    (forall d, In d changed <->
               In d SCHEMAS /\ In (input d) (changedFilesOf diff)) /\
    (forall f, In f (changedFilesOf diff) <->
               In f (Str.split "010" (Str.trim diff)) /\ keptPath f).
Proof.
  intros H. exists (changedSchemasOf (changedFilesOf diff)), (detectEvents diff).
  split; [now apply detect_run|].
  split; [apply filter_sublist|]. split.
  - intros d. unfold changedSchemasOf. rewrite filter_In, Array_includes_spec. tauto.
  - intros f. unfold changedFilesOf. rewrite filter_In, keepChanged_spec. tauto.
Qed.

(** *** The run up to the short-circuit *)

(** C2: when one of the five required environment values is absent (unset
    or empty), the run ends with exit code 1 after a single line on the
    error stream naming a missing value: no command is executed, so the
    version-control query is never made, and nothing goes over the
    network. *)
Theorem missing_env_exits_before_detection (w : World) :
  (exists v, In v required /\ envMissing w v = true) ->
  exists v t,
    In v required /\ envMissing w v = true /\
    run w = (1%Z, w, t) /\
    t = [ELog Stderr [LStr ("Error: Missing required environment variable: " +:+ v)]] /\
    Forall (fun e => isExec e = false /\ isNetwork e = false) t.
Proof.
  intros H. apply forOf_checkEnv_missing in H as (v & Hin & Hmiss & Hrun).
  exists v, [ELog Stderr [LStr ("Error: Missing required environment variable: " +:+ v)]].
  repeat split; try assumption.
  - unfold run, main. rewrite validateEnv_eq.
    rewrite (bind_Exit _ _ _ _ _ _ Hrun). reflexivity.
  - repeat constructor.
Qed.

Lemma main_no_changes (w : World) (diff : string) :
  envComplete w ->
  execSync w gitDiff None = Ok diff ->
  changedSchemasOf (changedFilesOf diff) = [] ->
  main w =
  (Ret tt, tick w,
   detectEvents diff ++
   [ELog Stdout [LStr (Str.nl +:+ "No schema changes detected. Nothing to process.")]]).
Proof.
  intros Henv Hdiff Hnone. unfold main.
  rewrite (bind_Ret _ _ _ _ _ _ (validateEnv_ok _ Henv)).
  rewrite (bind_Ret _ _ _ _ _ _ (detect_run _ _ Hdiff)).
  rewrite Hnone. reflexivity.
Qed.

(** C1: when the environment is complete and the filtered changed-file list
    that the version-control query yields is empty, the run ends normally
    with exit code 0 and its trace holds no put to object storage. *)
Theorem empty_changeset_no_publish (w : World) (diff : string) :
  envComplete w ->
  execSync w gitDiff None = Ok diff ->
  changedFilesOf diff = [] ->
  exists t, run w = (0%Z, tick w, t) /\ sends t = [].
Proof.
  intros Henv Hdiff Hnone.
  assert (changedSchemasOf (changedFilesOf diff) = []) as Hs
    by (rewrite Hnone; reflexivity).
  eexists. unfold run. rewrite (main_no_changes _ _ Henv Hdiff Hs).
  split; reflexivity.
Qed.

End Facts.

(** ** What each step leaves alone *)

#[global] Instance stable_frame : Frame stable.
Proof.
  split.
  - intros w. repeat split.
  - intros w1 w2 w3 (H1 & H2 & H3) (H4 & H5 & H6). repeat split; congruence.
  - intros w. repeat split.
  - intros w s o w' t [= <- <- <-]. repeat split.
Qed.

#[global] Instance anyWorld_frame : Frame anyWorld.
Proof. split; intros; exact I. Qed.

Section Always.

Variable R : World -> World -> Prop.
Variable P : Event -> Prop.
Context {RF : Frame R}.

Lemma always_ret {A} (a : A) : always R P (ret a).
Proof. intros w o w' t [= <- <- <-]. split; [apply frame_refl | constructor]. Qed.

Lemma always_throw {A} (e : Error) : always R P (@throw A e).
Proof. intros w o w' t [= <- <- <-]. split; [apply frame_refl | constructor]. Qed.

Lemma always_exit {A} (c : Z) : always R P (@process_exit A c).
Proof. intros w o w' t [= <- <- <-]. split; [apply frame_refl | constructor]. Qed.

Lemma always_getWorld : always R P getWorld.
Proof. intros w o w' t [= <- <- <-]. split; [apply frame_refl | constructor]. Qed.

Lemma always_emit (e : Event) : P e -> always R P (emit e).
Proof.
  intros He w o w' t [= <- <- <-]. split; [apply frame_refl | now repeat constructor].
Qed.

Lemma always_call {A} (f : World -> Result A) : always R P (call f).
Proof.
  intros w o w' t. unfold call. destruct (f w); intros [= <- <- <-];
    (split; [apply frame_tick | constructor]).
Qed.

Lemma always_liftResult {A} (r : Result A) : always R P (liftResult r).
Proof.
  intros w o w' t. unfold liftResult. destruct r; intros [= <- <- <-];
    (split; [apply frame_refl | constructor]).
Qed.

Lemma always_remember (s : JSON) : always R P (remember s).
Proof.
  intros w o w' t H. split; [eapply frame_remember; exact H|].
  injection H as _ _ <-. constructor.
Qed.

Lemma always_bind {A B} (m : M A) (k : A -> M B) :
  always R P m -> (forall a, always R P (k a)) -> always R P (bind m k).
Proof.
  intros Hm Hk w o w' t H.
  apply bind_inv in H as [(a & w1 & t1 & t2 & H1 & H2 & ->) | [(e & H1 & ->) | (c & H1 & ->)]].
  - apply Hm in H1 as [HR1 HP1]. apply Hk in H2 as [HR2 HP2].
    split; [eapply frame_trans; eassumption | now apply Forall_app].
  - now apply Hm in H1.
  - now apply Hm in H1.
Qed.

Lemma always_tryCatch {A} (m : M A) (h : Error -> M A) :
  always R P m -> (forall e, always R P (h e)) -> always R P (tryCatch m h).
Proof.
  intros Hm Hh w o w' t. unfold tryCatch.
  destruct (m w) as [[[a|e|c] w1] t1] eqn:H1.
  - intros [= <- <- <-]. now apply Hm in H1.
  - destruct (h e w1) as [[o2 w2] t2] eqn:H2. intros [= <- <- <-].
    apply Hm in H1 as [HR1 HP1]. apply Hh in H2 as [HR2 HP2].
    split; [eapply frame_trans; eassumption | now apply Forall_app].
  - intros [= <- <- <-]. now apply Hm in H1.
Qed.

Lemma always_forOf {A} (l : list A) (body : A -> M unit) :
  (forall x, always R P (body x)) -> always R P (forOf l body).
Proof.
  intros Hb. induction l as [|x l IH]; cbn [forOf].
  - apply always_ret.
  - apply always_bind; [apply Hb | intros _; exact IH].
Qed.

End Always.

Ltac always_step :=
  lazymatch goal with
  | |- always _ _ (bind _ _) => apply always_bind; try exact _; [ | intros ? ]
  | |- always _ _ (ret _) => apply always_ret; exact _
  | |- always _ _ (throw _) => apply always_throw; exact _
  | |- always _ _ (process_exit _) => apply always_exit; exact _
  | |- always _ _ getWorld => apply always_getWorld; exact _
  | |- always _ _ (emit _) => apply always_emit; try exact _
  | |- always _ _ (call _) => apply always_call; exact _
  | |- always _ _ (liftResult _) => apply always_liftResult; exact _
  | |- always _ _ (remember _) => apply always_remember; exact _
  | |- always _ _ (tryCatch _ _) => apply always_tryCatch; try exact _; [ | intros ? ]
  | |- always _ _ (forOf _ _) => apply always_forOf; try exact _; intros ?
  | |- always _ _ (console_log _) => unfold console_log
  | |- always _ _ (console_error _) => unfold console_error
  | |- always _ _ (readdirSync _) => unfold readdirSync
  | |- always _ _ (readFileSync _) => unfold readFileSync
  | |- always _ _ (exec _ _) => unfold exec
  | |- always _ _ (uploadToR2 _ _ _) => unfold uploadToR2
  | |- always _ _ (register _) => unfold register
  | |- always _ _ (create _) => unfold create
  | |- always _ _ (format _) => unfold format
  | |- always _ _ (if ?b then _ else _) => destruct b
  | |- always _ _ (match ?x with _ => _ end) => destruct x
  end.

Ltac always_tac := repeat always_step.

Section Calm.

Context {ext : Externals}.

Lemma registerAllSchemas_calm (schemaPath : string) :
  always stable quiet (registerAllSchemas schemaPath).
Proof. unfold registerAllSchemas. always_tac; exact I. Qed.

Lemma bundleSchema_calm (schemaPath : string) :
  always stable quiet (bundleSchema schemaPath).
Proof.
  unfold bundleSchema. apply always_bind; [exact _ | apply registerAllSchemas_calm | intros _].
  always_tac; exact I.
Qed.

Lemma generateTypes_calm (config : Schema) :
  always stable quiet (generateTypes config).
Proof. unfold generateTypes. always_tac; exact I. Qed.

End Calm.

(** ** The raw-schema upload *)

Section Upload.

Context {ext : Externals}.

Lemma always_weaken {A} (R R' : World -> World -> Prop) (P P' : Event -> Prop)
    (m : M A) :
  (forall w w', R w w' -> R' w w') -> (forall e, P e -> P' e) ->
  always R P m -> always R' P' m.
Proof.
  intros HR HP Hm w o w' t H. apply Hm in H as [H1 H2].
  split; [auto | eapply Forall_impl; eauto].
Qed.

Lemma sends_app (t1 t2 : list Event) : sends (t1 ++ t2) = sends t1 ++ sends t2.
Proof. unfold sends. apply omap_app. Qed.

Lemma sends_Forall (Q : PutObjectCommand -> Prop) (t : list Event) :
  Forall (fun e => forall c, e = ESend c -> Q c) t -> Forall Q (sends t).
Proof.
  induction 1 as [|e t He _ IH]; [constructor|].
  destruct e; simpl; try exact IH. constructor; auto.
Qed.

Lemma sends_quiet (t : list Event) : Forall quiet t -> sends t = [].
Proof.
  induction 1 as [|e t He _ IH]; [reflexivity|].
  destruct e; simpl; try exact IH. destruct He.
Qed.

Lemma uploadToR2_run (w : World) (key content contentType : string) :
  let command := {| Bucket := BUCKET_NAME w; Key := key; Body := content;
                    ContentType := contentType; CacheControl := CACHE_CONTROL |} in
  r2_send w command = Ok tt ->
  uploadToR2 key content contentType w =
  (Ret tt, tick w, [ELog Stdout [LStr ("  Uploading to R2: " +:+ key)]; ESend command]).
Proof.
  intros command H. unfold uploadToR2, console_log, bind, emit, getWorld, call.
  fold command. rewrite H. reflexivity.
Qed.

Lemma uploadRawSchemas_eq :
  uploadRawSchemas =
  (console_log [LStr (Str.nl +:+ "--- Uploading raw schemas to R2 ---")] ;;
   entries <- readdirSync "schema" ;;
   forOf (List.filter keepFile entries) (uploadRaw "schema") ;;
   console_log
     [LStr ("  ✓ Uploaded " +:+ pretty (length (List.filter keepFile entries)) +:+
            " raw schema files")]).
Proof. reflexivity. Qed.

Lemma stable_BUCKET_NAME (w w' : World) : stable w w' -> BUCKET_NAME w' = BUCKET_NAME w.
Proof. intros (H & _). unfold BUCKET_NAME. now rewrite H. Qed.

Lemma stable_tick (w w' : World) : stable w w' -> stable w (tick w').
Proof. intros (H1 & H2 & H3). repeat split; assumption. Qed.

Lemma forOf_uploadRaw (dir : string) (contentOf : string -> string) (w0 : World)
    (l : list string) (w : World) :
  stable w0 w ->
  (forall f, In f l -> files w0 !! Path.join dir f = Some (contentOf f)) ->
  (forall w' f, In f l -> r2_send w' (rawCommand w0 f (contentOf f)) = Ok tt) ->
  exists w' t,
    forOf l (uploadRaw dir) w = (Ret tt, w', t) /\
    stable w0 w' /\
    sends t = List.map (fun f => rawCommand w0 f (contentOf f)) l.
Proof.
  revert w. induction l as [|f l IH]; intros w Hst Hread Hsend.
  - exists w, []. repeat split; apply Hst.
  - assert (uploadRaw dir f w =
            (Ret tt, tick w,
             [ERead (Path.join dir f);
              ELog Stdout [LStr ("  Uploading to R2: " +:+ f)];
              ESend (rawCommand w0 f (contentOf f))])) as Hstep.
    { unfold uploadRaw, readFileSync, bind at 1 2 3, emit, getWorld.
      destruct Hst as (He & Hf & Hd). rewrite Hf, (Hread f) by (left; reflexivity).
      cbn [ret app]. unfold bind.
      rewrite uploadToR2_run.
      - unfold rawCommand, BUCKET_NAME. rewrite He. reflexivity.
      - unfold BUCKET_NAME. rewrite He. apply (Hsend w f). left; reflexivity. }
    destruct (IH (tick w)) as (w' & t & Hrun & Hst' & Hsends).
    { now apply stable_tick. }
    { intros; apply Hread; right; assumption. }
    { intros; apply Hsend; right; assumption. }
    eexists w', _. cbn [forOf]. rewrite (bind_Ret _ _ _ _ _ _ Hstep), Hrun.
    split; [reflexivity|]. split; [exact Hst'|].
    cbn [app sends omap]. simpl. f_equal. exact Hsends.
Qed.

Lemma uploadRawSchemas_run (contentOf : string -> string) (w : World)
    (entries : list string) :
  dirs w !! "schema" = Some entries ->
  (forall f, In f (List.filter keepFile entries) ->
             files w !! Path.join "schema" f = Some (contentOf f)) ->
  (forall w' f, In f (List.filter keepFile entries) ->
                r2_send w' (rawCommand w f (contentOf f)) = Ok tt) ->
  exists w' t,
    uploadRawSchemas w = (Ret tt, w', t) /\
    stable w w' /\
    sends t = List.map (fun f => rawCommand w f (contentOf f)) (List.filter keepFile entries).
Proof.
  intros Hdir Hread Hsend.
  destruct (forOf_uploadRaw "schema" contentOf w (List.filter keepFile entries) w)
    as (w' & t & Hrun & Hst & Hsends); try assumption.
  { repeat split. }
  eexists w', _. rewrite uploadRawSchemas_eq.
  unfold console_log, readdirSync, bind at 1 2 3 4, emit, getWorld.
  rewrite Hdir. cbn [ret app]. unfold bind. rewrite Hrun.
  split; [reflexivity|]. split; [exact Hst|].
  cbn [sends omap]. simpl. fold (sends (t ++ [ELog Stdout [LStr ("  ✓ Uploaded " +:+ pretty (length (List.filter keepFile entries)) +:+ " raw schema files")]])).
  rewrite sends_app, Hsends. simpl. apply app_nil_r.
Qed.

Lemma always_forOf_In {A} (R : World -> World -> Prop) (P : Event -> Prop)
    {RF : Frame R} (l : list A) (body : A -> M unit) :
  (forall x, In x l -> always R P (body x)) -> always R P (forOf l body).
Proof.
  induction l as [|x l IH]; intros Hb; cbn [forOf].
  - now apply always_ret.
  - apply always_bind; [exact RF | apply Hb; left; reflexivity|].
    intros _. apply IH. intros y Hy. apply Hb. right. exact Hy.
Qed.

Lemma writeFileSync_events (path data : string) (w : World) o w' t :
  writeFileSync path data w = (o, w', t) -> t = [EWrite path data].
Proof.
  unfold writeFileSync, bind, emit.
  destruct (dirs w !! Path.dirname path); intros [= <- <- <-]; reflexivity.
Qed.

Lemma processSchema_puts (ds : list Schema) (config : Schema) :
  In config ds -> always anyWorld (onlyBundlePuts ds) (processSchema config).
Proof.
  intros Hin.
  assert (forall e, quiet e -> onlyBundlePuts ds e) as Hq
    by (intros e He c ->; destruct He).
  assert (forall w w' : World, stable w w' -> anyWorld w w') as Hs
    by (intros; exact I).
  unfold processSchema. unfold console_log at 1.
  apply always_bind; [exact _ | apply always_emit; [exact _ | intros c [=]] | intros _].
  apply always_bind;
    [exact _ | exact (always_weaken _ _ _ _ _ Hs Hq (generateTypes_calm config)) | intros ty].
  apply always_bind; [exact _ | | intros _].
  { intros w o w' t H. apply writeFileSync_events in H as ->.
    split; [exact I | repeat constructor; intros c [=]]. }
  unfold console_log at 1.
  apply always_bind; [exact _ | apply always_emit; [exact _ | intros c [=]] | intros _].
  unfold console_log at 1.
  apply always_bind; [exact _ | apply always_emit; [exact _ | intros c [=]] | intros _].
  apply always_bind;
    [exact _ | exact (always_weaken _ _ _ _ _ Hs Hq (bundleSchema_calm (input config))) | intros b].
  always_tac; try (intros c Hc; discriminate Hc).
  intros c [= <-]. exists config. repeat split. exact Hin.
Qed.

Lemma processAll_eq (l : list Schema) : processAll l = forOf l processOrExit.
Proof. reflexivity. Qed.

Lemma processAll_puts (ds : list Schema) :
  always anyWorld (onlyBundlePuts ds) (processAll ds).
Proof.
  rewrite processAll_eq. apply always_forOf_In; [exact _|].
  intros config Hin. unfold processOrExit.
  apply always_tryCatch; [exact _ | now apply processSchema_puts | intros e].
  always_tac. intros c Hc; discriminate Hc.
Qed.

(** C6: in a run with a complete environment and at least one changed
    schema, where every kept entry of the [schema] directory can be read
    and object storage accepts the puts, the puts of the run are first one
    put per entry of the directory that ends in [.json] and does not
    contain [bundle], in listing order, keyed by the bare file name, with
    the file's content and media type [application/json]; the only other
    puts are bundles of changed descriptors.  The list of raw puts is a
    function of the disk alone, whatever the set of changed schemas. *)
Theorem raw_upload_publishes_every_schema_file
    (w : World) (diff : string) (entries : list string)
    (contentOf : string -> string) :
  envComplete w ->
  execSync w gitDiff None = Ok diff ->
  changedSchemasOf (changedFilesOf diff) <> [] ->
  dirs w !! "schema" = Some entries ->
  (forall f, In f entries -> keptFile f ->
             files w !! Path.join "schema" f = Some (contentOf f)) ->
  (forall w' f, In f entries -> keptFile f ->
                r2_send w' (rawCommand w f (contentOf f)) = Ok tt) ->
  exists o w' t raw bundles,
    main w = (o, w', t) /\
    sends t = raw ++ bundles /\
    raw = List.map (fun f => rawCommand w f (contentOf f)) (List.filter keepFile entries) /\
    (forall f, In f (List.filter keepFile entries) <-> In f entries /\ keptFile f) /\
    List.map Key raw = List.filter keepFile entries /\
    Forall (bundlePutOf (changedSchemasOf (changedFilesOf diff))) bundles.
Proof.
  intros Henv Hdiff Hne Hdir Hread Hsend.
  assert (forall f, In f (List.filter keepFile entries) <-> In f entries /\ keptFile f)
    as Hkept by (intros f; rewrite filter_In, keepFile_spec; tauto).
  destruct (uploadRawSchemas_run contentOf (tick w) entries)
    as (w1 & t1 & Hraw & Hst & Hsends).
  { exact Hdir. }
  { intros f Hf. apply Hkept in Hf as [Hf1 Hf2]. now apply Hread. }
  { intros w' f Hf. apply Hkept in Hf as [Hf1 Hf2]. now apply (Hsend w' f). }
  set (changed := changedSchemasOf (changedFilesOf diff)) in *.
  destruct ((processAll changed ;;
             console_log [LStr (Str.nl +:+ "✓ All changed schemas processed successfully")] ;;
             console_log [LStr "  Types will be committed by the workflow"] ;;
             console_log [LStr "  Types will be uploaded to R2 by sync-types workflow"]) w1)
    as [[o w2] t2] eqn:Hrest.
  assert (Forall (onlyBundlePuts changed) t2) as Hputs.
  { revert Hrest. generalize w1 o w2 t2.
    cut (always anyWorld (onlyBundlePuts changed)
           (processAll changed ;;
            console_log [LStr (Str.nl +:+ "✓ All changed schemas processed successfully")] ;;
            console_log [LStr "  Types will be committed by the workflow"] ;;
            console_log [LStr "  Types will be uploaded to R2 by sync-types workflow"])).
    { intros Ha wa oa wb tb H. now apply Ha in H. }
    apply always_bind; [exact _ | apply processAll_puts | intros _].
    always_tac; intros c Hc; discriminate Hc. }
  exists o, w2, (detectEvents diff ++ t1 ++ t2),
    (List.map (fun f => rawCommand w f (contentOf f)) (List.filter keepFile entries)),
    (sends t2).
  split.
  { unfold main.
    rewrite (bind_Ret _ _ _ _ _ _ (validateEnv_ok _ Henv)).
    rewrite (bind_Ret _ _ _ _ _ _ (detect_run _ _ Hdiff)).
    fold changed. destruct changed as [|c cs]; [congruence|].
    cbn [length Nat.eqb].
    rewrite (bind_Ret _ _ _ _ _ _ Hraw), Hrest. reflexivity. }
  split.
  { rewrite !sends_app, Hsends. reflexivity. }
  split; [reflexivity|]. split; [exact Hkept|]. split.
  { rewrite map_map. apply map_id. }
  apply sends_Forall. exact Hputs.
Qed.

End Upload.

(** ** Sibling registration *)

Section Register.

Context {ext : Externals}.

#[local] Arguments Path.join : simpl never.
#[local] Arguments Path.dirname : simpl never.

Lemma registrations_app (t1 t2 : list Event) :
  registrations (t1 ++ t2) = registrations t1 ++ registrations t2.
Proof. unfold registrations. apply omap_app. Qed.

Lemma siblingDocument_stable (w w' : World) (dir file : string) :
  stable w w' -> siblingDocument w' dir file = siblingDocument w dir file.
Proof. intros (_ & Hf & _). unfold siblingDocument. now rewrite Hf. Qed.

(** One directory entry: whatever is wrong with it, the step returns, and
    it hands the registry the entry's document or nothing. *)
Lemma registerFile_run (dir file : string) (w : World) :
  exists w' t,
    registerFile dir file w = (Ret tt, w', t) /\
    stable w w' /\
    registrations t = option_list (siblingDocument w dir file) /\
    ((forall w0 s, registerSchema w0 s = Ok tt) ->
     registry w' = registry w ++ option_list (siblingDocument w dir file)).
Proof.
  unfold registerFile, siblingDocument, tryCatch, readFileSync, bind at 1 2 3, emit, getWorld.
  destruct (files w !! Path.join dir file) as [data|]; cbn [ret throw app].
  2: { eexists _, _. split; [reflexivity|]. repeat split. cbn. now rewrite app_nil_r. }
  unfold bind at 1, liftResult at 1.
  destruct (JSON_parse data) as [schema|e].
  2: { eexists _, _. split; [reflexivity|]. repeat split. cbn. now rewrite app_nil_r. }
  unfold bind at 1, liftResult at 1.
  destruct (getProp schema "$id") as [id|e].
  2: { eexists _, _. split; [reflexivity|]. repeat split. cbn. now rewrite app_nil_r. }
  destruct (truthy id).
  2: { eexists _, _. split; [reflexivity|]. repeat split. cbn. now rewrite app_nil_r. }
  unfold register, bind, emit, call, remember.
  destruct (registerSchema w schema) as [[]|e] eqn:Hreg;
    (eexists _, _; split; [reflexivity|]; repeat split).
  intros Hacc. rewrite Hacc in Hreg. discriminate.
Qed.

Lemma forOf_registerFile (dir : string) (w0 : World) (l : list string) (w : World) :
  stable w0 w ->
  exists w' t,
    forOf l (registerFile dir) w = (Ret tt, w', t) /\
    stable w0 w' /\
    registrations t = omap (siblingDocument w0 dir) l /\
    ((forall w1 s, registerSchema w1 s = Ok tt) ->
     registry w' = registry w ++ omap (siblingDocument w0 dir) l).
Proof.
  revert w. induction l as [|f l IH]; intros w Hst.
  - exists w, []. repeat split; try apply Hst. intros _. cbn. now rewrite app_nil_r.
  - destruct (registerFile_run dir f w) as (w1 & t1 & H1 & Hst1 & Hreg1 & Hacc1).
    destruct (IH w1) as (w2 & t2 & H2 & Hst2 & Hreg2 & Hacc2).
    { eapply frame_trans; eassumption. }
    exists w2, (t1 ++ t2). cbn [forOf].
    rewrite (bind_Ret _ _ _ _ _ _ H1), H2. split; [reflexivity|].
    split; [exact Hst2|].
    rewrite (siblingDocument_stable _ _ _ _ Hst) in Hreg1, Hacc1. split.
    + rewrite registrations_app, Hreg1, Hreg2.
      cbn [omap list_omap]. destruct (siblingDocument w0 dir f); reflexivity.
    + intros Hacc. rewrite (Hacc2 Hacc), (Hacc1 Hacc), <- app_assoc.
      cbn [omap list_omap]. destruct (siblingDocument w0 dir f); reflexivity.
Qed.

Lemma registerAllSchemas_eq (schemaPath : string) :
  registerAllSchemas schemaPath =
  (entries <- readdirSync (Path.dirname schemaPath) ;;
   forOf (List.filter keepFile entries) (registerFile (Path.dirname schemaPath))).
Proof. reflexivity. Qed.

Lemma registerAllSchemas_run (schemaPath : string) (w : World) (entries : list string) :
  dirs w !! Path.dirname schemaPath = Some entries ->
  exists w' t,
    registerAllSchemas schemaPath w = (Ret tt, w', t) /\
    stable w w' /\
    registrations t =
    omap (siblingDocument w (Path.dirname schemaPath)) (List.filter keepFile entries) /\
    ((forall w1 s, registerSchema w1 s = Ok tt) ->
     registry w' = registry w ++ registrations t).
Proof.
  intros Hdir.
  destruct (forOf_registerFile (Path.dirname schemaPath) w (List.filter keepFile entries) w)
    as (w' & t & Hrun & Hst & Hreg & Hacc).
  { apply frame_refl. }
  eexists w', _. rewrite registerAllSchemas_eq.
  unfold readdirSync, bind at 1 2 3, emit, getWorld. rewrite Hdir.
  cbn [ret app]. rewrite Hrun. split; [reflexivity|]. split; [exact Hst|].
  split; [exact Hreg|].
  intros H. cbn [registrations omap list_omap]. fold (registrations t).
  rewrite Hreg. exact (Hacc H).
Qed.




End Register.

(** ** Declaration generation *)

Section Process.

Context {ext : Externals}.

#[local] Arguments Path.join : simpl never.
#[local] Arguments Path.dirname : simpl never.
#[local] Arguments Str.trim : simpl never.
#[local] Arguments Str.split : simpl never.
#[local] Arguments Str.replace : simpl never.
#[local] Arguments Str.match_result : simpl never.
#[local] Arguments createParams : simpl never.

(** [generateTypes], one case per way it can end. *)
Lemma generateTypes_unfold (config : Schema) (w : World) :
  generateTypes config w =
  match execSync w (json2ts config) (Some (Path.dirname (input config))) with
  | Raise e =>
      (Throw e, tick w,
       [ ELog Stdout [LStr "  Converting to TypeScript..."];
         EExec (json2ts config) (Some (Path.dirname (input config))) ])
  | Ok typescriptContent =>
      match files w !! promptFile config with
      | None =>
          (Throw (SystemError (errno (tick w) ReadFile (promptFile config))
                    (promptFile config)), tick w,
           [ ELog Stdout [LStr "  Converting to TypeScript..."];
             EExec (json2ts config) (Some (Path.dirname (input config)));
             ELog Stdout [LStr "  Sending to Claude for cleanup..."];
             ERead (promptFile config) ])
      | Some promptTemplate =>
          let params := createParams (promptFor promptTemplate typescriptContent) in
          let response := messages_create (tick w) params in
          match response with
          | Raise e =>
              (Throw e, tick (tick w), generationEvents config params response)
          | Ok msg =>
              match Str.match_result (responseText msg) with
              | None =>
                  (Throw generationError, tick (tick w),
                   generationEvents config params response ++
                   [ELog Stderr [LStr "No <result> tag found in Claude's response"]])
              | Some group1 =>
                  (match prettier_format (tick (tick w)) (Str.trim group1) with
                   | Ok processedContent => Ret processedContent
                   | Raise e => Throw e
                   end,
                   tick (tick (tick w)),
                   generationEvents config params response ++
                   [EFormat (Str.trim group1)])
              end
          end
      end
  end.
Proof.
  unfold generateTypes, exec, readFileSync, create, format, console_log, console_error,
    bind, emit, call, getWorld, ret, throw.
  fold (json2ts config).
  destruct (execSync w (json2ts config) (Some (Path.dirname (input config))))
    as [typescriptContent|e]; [|reflexivity].
  cbn [files tick].
  destruct (files w !! promptFile config) as [promptTemplate|]; [|reflexivity].
  fold (promptFor promptTemplate typescriptContent).
  destruct (messages_create (tick w) (createParams (promptFor promptTemplate typescriptContent)))
    as [msg|e] eqn:Hmsg; [|reflexivity].
  destruct (Str.match_result (responseText msg)) as [group1|]; [|reflexivity].
  destruct (prettier_format _ (Str.trim group1)); reflexivity.
Qed.

Lemma responseText_firstTextBlock (msg : Message) (block : ContentBlock) (s : string) :
  firstTextBlock msg = Some block -> text block = Some s -> responseText msg = s.
Proof.
  unfold firstTextBlock, responseText. intros -> ->. reflexivity.
Qed.

(** C10: when the first content block of text kind of the answer holds
    [pre <result> inner </result> post], with that opening tag the first in
    the text and that closing tag the first after it, the scan extracts
    [inner], and [generateTypes] hands the pretty-printer the trimmed
    [inner] and returns what the pretty-printer returns.  Neither [pre],
    [post] (which may hold further spans) nor any other content block
    influences the result, and none of them makes the step fail. *)
Theorem extraction_takes_first_span
    (config : Schema) (w : World)
    (typescriptContent promptTemplate : string) (msg : Message)
    (block : ContentBlock) (s pre rest inner post : string) :
  execSync w (json2ts config) (Some (Path.dirname (input config))) = Ok typescriptContent ->
  files w !! promptFile config = Some promptTemplate ->
  messages_create (tick w) (createParams (promptFor promptTemplate typescriptContent)) = Ok msg ->
  firstTextBlock msg = Some block ->
  text block = Some s ->
  firstOccurrence "<result>" s pre rest ->
  firstOccurrence "</result>" rest inner post ->
  Str.match_result (responseText msg) = Some inner /\
  exists t,
    generateTypes config w =
    (match prettier_format (tick (tick w)) (Str.trim inner) with
     | Ok processedContent => Ret processedContent
     | Raise e => Throw e
     end, tick (tick (tick w)), t) /\
    last t = Some (EFormat (Str.trim inner)).
Proof.
  intros Hexec Hfile Hmsg Hblock Htext [Hs Hmin] [Hrest Hmin'].
  assert (Str.match_result (responseText msg) = Some inner) as Hmatch.
  { rewrite (responseText_firstTextBlock _ _ _ Hblock Htext).
    eapply StrFacts.match_result_first; eassumption. }
  split; [exact Hmatch|].
  rewrite generateTypes_unfold, Hexec, Hfile. cbn zeta. rewrite Hmsg, Hmatch.
  eexists. split; [reflexivity|]. reflexivity.
Qed.

(** A failed generation leaves the disk alone and writes nothing. *)
Lemma generateTypes_no_span (config : Schema) (w : World) o w' t params msg :
  generateTypes config w = (o, w', t) ->
  In (ECreate params (Ok msg)) t ->
  ~ hasResultSpan (responseText msg) ->
  o = Throw generationError /\
  last t = Some (ELog Stderr [LStr "No <result> tag found in Claude's response"]).
Proof.
  intros Hrun Hin Hno. apply StrFacts.match_result_None in Hno.
  rewrite generateTypes_unfold in Hrun.
  destruct (execSync w (json2ts config) (Some (Path.dirname (input config))))
    as [typescriptContent|e].
  2: { injection Hrun as <- <- <-. simpl in Hin. intuition discriminate. }
  destruct (files w !! promptFile config) as [promptTemplate|].
  2: { injection Hrun as <- <- <-. simpl in Hin. intuition discriminate. }
  cbn zeta in Hrun.
  destruct (messages_create (tick w) (createParams (promptFor promptTemplate typescriptContent)))
    as [msg'|e].
  2: { injection Hrun as <- <- <-. simpl in Hin. intuition discriminate. }
  destruct (Str.match_result (responseText msg')) as [group1|] eqn:Hm.
  - injection Hrun as <- <- <-. simpl in Hin.
    repeat (destruct Hin as [Hin|Hin]; try discriminate Hin); [|destruct Hin].
    injection Hin as _ <-. congruence.
  - injection Hrun as <- <- <-. split; reflexivity.
Qed.

(** ** Processing one schema *)

Lemma processSchema_eq (config : Schema) :
  processSchema config =
  (console_log [LStr (Str.nl +:+ "--- Processing " +:+ input config +:+ " ---")] ;;
   typesContent <- generateTypes config ;;
   writeFileSync (output config) typesContent ;;
   bundleAndUpload config).
Proof. reflexivity. Qed.

Lemma writeFileSync_any (P : Event -> Prop) (path data : string) :
  P (EWrite path data) -> always anyWorld P (writeFileSync path data).
Proof.
  intros HP w o w' t H. apply writeFileSync_events in H as ->.
  split; [exact I | now repeat constructor].
Qed.

Lemma bundleSchema_notCreate (schemaPath : string) :
  always anyWorld notCreate (bundleSchema schemaPath).
Proof. unfold bundleSchema, registerAllSchemas. always_tac; exact I. Qed.

Lemma bundleAndUpload_notCreate (config : Schema) :
  always anyWorld notCreate (bundleAndUpload config).
Proof.
  unfold bundleAndUpload.
  apply always_bind; [exact _ | always_tac; exact I | intros _].
  apply always_bind; [exact _ | always_tac; exact I | intros _].
  apply always_bind; [exact _ | apply bundleSchema_notCreate | intros b].
  always_tac; exact I.
Qed.

Lemma bundleAndUpload_stable (config : Schema) :
  always stable notWrite (bundleAndUpload config).
Proof.
  unfold bundleAndUpload, bundleSchema, registerAllSchemas. always_tac; exact I.
Qed.

Lemma quiet_writes (t : list Event) : Forall quiet t -> writes t = [].
Proof.
  induction 1 as [|e t He _ IH]; [reflexivity|].
  destruct e; simpl; try exact IH. destruct He.
Qed.

Lemma processOrExit_Throw (config : Schema) (w : World) e w' t :
  processSchema config w = (Throw e, w', t) ->
  processOrExit config w = (Exit 1, w', t ++ [failureLog config e]).
Proof. intros H. unfold processOrExit, tryCatch. rewrite H. reflexivity. Qed.

Lemma processOrExit_Ret (config : Schema) (w : World) w' t :
  processSchema config w = (Ret tt, w', t) ->
  processOrExit config w = (Ret tt, w', t).
Proof. intros H. unfold processOrExit, tryCatch. rewrite H. reflexivity. Qed.

Lemma forOf_app {A} (l1 l2 : list A) (body : A -> M unit) (w : World) w1 t1 :
  forOf l1 body w = (Ret tt, w1, t1) ->
  forOf (l1 ++ l2) body w = let '(o, w2, t2) := forOf l2 body w1 in (o, w2, t1 ++ t2).
Proof.
  revert w t1. induction l1 as [|x l1 IH]; intros w t1; cbn [forOf app].
  - intros [= <- <-]. destruct (forOf l2 body w) as [[o w2] t2]. reflexivity.
  - intros H. apply bind_inv in H
      as [(a & wa & ta & tb & Ha & Hb & ->) | [(e & _ & [=]) | (c & _ & [=])]].
    rewrite (bind_Ret _ _ _ _ _ _ Ha), (IH _ _ Hb).
    destruct (forOf l2 body w1) as [[o w2] t2]. now rewrite <- app_assoc.
Qed.

(** The loop of [main] stops at the first schema that throws. *)
Lemma processAll_stops (pre rest : list Schema) (config : Schema)
    (w : World) w1 t1 e w2 t2 :
  processAll pre w = (Ret tt, w1, t1) ->
  processSchema config w1 = (Throw e, w2, t2) ->
  processAll (pre ++ config :: rest) w =
  (Exit 1, w2, t1 ++ t2 ++ [failureLog config e]).
Proof.
  intros Hpre Hfail. rewrite processAll_eq in *.
  rewrite (forOf_app _ _ _ _ _ _ Hpre). cbn [forOf].
  rewrite (bind_Exit _ _ _ _ _ _ (processOrExit_Throw _ _ _ _ _ Hfail)).
  reflexivity.
Qed.

(** C3: when the answer of the text-generation service recorded while a
    schema is processed has no delimited result span in its first text
    block (or has no text block), processing that schema throws the
    generation error, the disk is as it was and no file write was even
    attempted, and the loop of [main] exits with code 1 right after
    reporting the failure, whatever schemas were still to come. *)
Theorem generation_without_span_is_fatal
    (config : Schema) (rest : list Schema) (w : World) o w' t params msg :
  processSchema config w = (o, w', t) ->
  In (ECreate params (Ok msg)) t ->
  ~ hasResultSpan (responseText msg) ->
  o = Throw generationError /\
  files w' = files w /\
  writes t = [] /\
  processAll (config :: rest) w =
  (Exit 1, w', t ++ [failureLog config generationError]).
Proof.
  intros Hrun Hin Hno. pose proof Hrun as Hrun0.
  rewrite processSchema_eq in Hrun. unfold console_log at 1 in Hrun.
  apply bind_inv in Hrun
    as [(a & wa & ta & tb & Ha & Hb & ->) | [(e & [=] & _) | (c & [=] & _)]].
  injection Ha as <- <- <-.
  assert (forall og wg tg, generateTypes config w = (og, wg, tg) ->
            In (ECreate params (Ok msg)) tg -> og = Throw generationError) as Hgen.
  { intros og wg tg Hg Hi. now destruct (generateTypes_no_span _ _ _ _ _ _ _ Hg Hi Hno). }
  apply bind_inv in Hb
    as [(ty & wg & tg & tr & Hg & Hr & ->) | [(e & Hg & ->) | (c & Hg & ->)]].
  - exfalso. cbn [app] in Hin. destruct Hin as [Hin|Hin]; [discriminate Hin|].
    apply in_app_or in Hin as [Hin|Hin].
    + specialize (Hgen _ _ _ Hg Hin). discriminate.
    + assert (always anyWorld notCreate
                (writeFileSync (output config) ty ;; bundleAndUpload config)) as Hnc.
      { apply always_bind; [exact _ | now apply writeFileSync_any | intros _].
        apply bundleAndUpload_notCreate. }
      apply Hnc in Hr as [_ Hr]. rewrite Forall_forall in Hr.
      exact (Hr _ (proj2 (list_elem_of_In _ _) Hin)).
  - cbn [app] in Hin. destruct Hin as [Hin|Hin]; [discriminate Hin|].
    specialize (Hgen _ _ _ Hg Hin). injection Hgen as ->.
    apply generateTypes_calm in Hg as [(_ & Hfiles & _) Hq].
    split; [reflexivity|]. split; [exact Hfiles|].
    split; [simpl; now apply quiet_writes|].
    apply (processAll_stops [] rest config w w [] _ _ _ eq_refl Hrun0).
  - cbn [app] in Hin. destruct Hin as [Hin|Hin]; [discriminate Hin|].
    specialize (Hgen _ _ _ Hg Hin). discriminate.
Qed.

(** ** Bundling *)

Lemma registerAllSchemas_local (schemaPath : string) :
  always stable (fun e => isNetwork e = false) (registerAllSchemas schemaPath).
Proof. unfold registerAllSchemas. always_tac; reflexivity. Qed.

Lemma bundleSchema_missing_id (schemaPath : string) (w : World)
    (entries : list string) (data : string) (doc : JSON) (id : option JSON) :
  dirs w !! Path.dirname schemaPath = Some entries ->
  files w !! schemaPath = Some data ->
  JSON_parse data = Ok doc ->
  getProp doc "$id" = Ok id ->
  truthy id = false ->
  exists w' t,
    bundleSchema schemaPath w = (Throw (missingIdError schemaPath), w', t) /\
    stable w w' /\
    Forall (fun e => isNetwork e = false) t.
Proof.
  intros Hdir Hfile Hparse Hid Hfalsy.
  destruct (registerAllSchemas_run schemaPath w entries Hdir) as (w1 & t1 & Hreg & Hst & _).
  pose proof (registerAllSchemas_local schemaPath _ _ _ _ Hreg) as [_ Hlocal].
  exists w1, (t1 ++ [ERead schemaPath]).
  split; [|split; [exact Hst|]].
  - unfold bundleSchema. rewrite (bind_Ret _ _ _ _ _ _ Hreg).
    unfold readFileSync, liftResult, bind, emit, getWorld.
    destruct Hst as (_ & -> & _). rewrite Hfile. cbn [ret].
    rewrite Hparse, Hid, Hfalsy. reflexivity.
  - apply Forall_app. split; [exact Hlocal | repeat constructor].
Qed.

(** C4 (as the code has it): when the target document is readable, parses,
    and carries no truthy [$id], bundling throws the error that names the
    schema path, and up to that point the bundling step has asked nothing
    of the network: no resolution by the bundler, no put.  So the tail of
    [processSchema] that follows the write of the declaration ends with
    that error and publishes nothing. *)
Theorem bundling_without_id_fails_before_resolution
    (config : Schema) (w : World)
    (entries : list string) (data : string) (doc : JSON) (id : option JSON) :
  dirs w !! Path.dirname (input config) = Some entries ->
  files w !! input config = Some data ->
  JSON_parse data = Ok doc ->
  getProp doc "$id" = Ok id ->
  truthy id = false ->
  exists w' t,
    bundleSchema (input config) w = (Throw (missingIdError (input config)), w', t) /\
    Forall (fun e => isNetwork e = false) t /\
    bundleAndUpload config w =
      (Throw (missingIdError (input config)), w',
       ELog Stdout [LStr ("  ✓ Written types to " +:+ output config)]
       :: ELog Stdout [LStr "  Bundling schema..."] :: t) /\
    sends t = [].
Proof.
  intros Hdir Hfile Hparse Hid Hfalsy.
  destruct (bundleSchema_missing_id _ _ _ _ _ _ Hdir Hfile Hparse Hid Hfalsy)
    as (w' & t & Hrun & _ & Hlocal).
  exists w', t. split; [exact Hrun|]. split; [exact Hlocal|]. split.
  - unfold bundleAndUpload, console_log, bind at 1 2, emit.
    rewrite (bind_Throw _ _ _ _ _ _ Hrun). reflexivity.
  - clear Hrun.
    induction Hlocal as [|e t He _ IH]; [reflexivity|].
    destruct e; simpl; try exact IH. discriminate He.
Qed.


(** C5: when the schemas before schema [config] in detection order were
    processed and processing [config] throws, the run ends at once with
    exit code 1: the trace ends with the events of that one attempt
    followed by the line on the error stream that carries the schema's
    input path and the error.  Nothing comes after it, so the schema is not
    retried and the schemas after it are never started. *)
Theorem processing_failure_aborts_run
    (w : World) (diff : string) (pre rest : list Schema) (config : Schema)
    w1 t1 w2 t2 (e : Error) w3 t3 :
  envComplete w ->
  execSync w gitDiff None = Ok diff ->
  changedSchemasOf (changedFilesOf diff) = pre ++ config :: rest ->
  uploadRawSchemas (tick w) = (Ret tt, w1, t1) ->
  processAll pre w1 = (Ret tt, w2, t2) ->
  processSchema config w2 = (Throw e, w3, t3) ->
  run w =
  (1%Z, w3,
   detectEvents diff ++ t1 ++ t2 ++ t3 ++
   [ELog Stderr [LStr (Str.nl +:+ "❌ Failed to process " +:+ input config +:+ ":"); LErr e]]).
Proof.
  intros Henv Hdiff Hchanged Hraw Hpre Hfail.
  unfold run, main.
  rewrite (bind_Ret _ _ _ _ _ _ (validateEnv_ok _ Henv)).
  rewrite (bind_Ret _ _ _ _ _ _ (detect_run _ _ Hdiff)).
  rewrite Hchanged.
  destruct (length (pre ++ config :: rest) =? 0)%nat eqn:Hlen.
  { apply Nat.eqb_eq in Hlen. rewrite length_app in Hlen. simpl in Hlen. lia. }
  rewrite (bind_Ret _ _ _ _ _ _ Hraw).
  rewrite (bind_Exit _ _ _ _ _ _ (processAll_stops _ rest _ _ _ _ _ _ _ Hpre Hfail)).
  reflexivity.
Qed.

End Process.

(** ** The theorems on the sample repository *)

Lemma sample_envComplete : envComplete sample_world.
Proof.
  intros v Hv. simpl in Hv.
  repeat (destruct Hv as [<-|Hv]; [reflexivity|]). destruct Hv.
Qed.

Lemma detect_returns_changed_descriptors_witness :
  exists changed t,
    @detectChangedSchemas (sample_ext diff_model reply_good) sample_world
    = (Ret changed, tick sample_world, t) /\
    sublist changed SCHEMAS /\
    (forall d, In d changed <->
               In d SCHEMAS /\ In (input d) (changedFilesOf diff_model)) /\
    (forall f, In f (changedFilesOf diff_model) <->
               In f (Str.split "010" (Str.trim diff_model)) /\ keptPath f).
Proof.
  apply (@detect_returns_changed_descriptors (sample_ext diff_model reply_good)
           sample_world diff_model).
  reflexivity.
Defined.

Lemma missing_env_exits_before_detection_witness :
  exists v t,
    In v required /\ envMissing sample_world_no_bucket v = true /\
    @run (sample_ext diff_model reply_good) sample_world_no_bucket
    = (1%Z, sample_world_no_bucket, t) /\
    t = [ELog Stderr [LStr ("Error: Missing required environment variable: " +:+ v)]] /\
    Forall (fun e => isExec e = false /\ isNetwork e = false) t.
Proof.
  apply (@missing_env_exits_before_detection (sample_ext diff_model reply_good)).
  exists "R2_BUCKET_NAME". split; [simpl; tauto | reflexivity].
Defined.

Lemma empty_changeset_no_publish_witness :
  exists t,
    @run (sample_ext diff_none reply_good) sample_world = (0%Z, tick sample_world, t) /\
    sends t = [].
Proof.
  apply (@empty_changeset_no_publish (sample_ext diff_none reply_good)
           sample_world diff_none).
  - apply sample_envComplete.
  - reflexivity.
  - reflexivity.
Defined.

Lemma cut_firstOccurrence (pat s a b : string) :
  Str.cut pat s = Some (a, b) -> firstOccurrence pat s a b.
Proof. apply StrFacts.cut_Some. Qed.

Lemma raw_upload_publishes_every_schema_file_witness :
  exists o w' t raw bundles,
    @main (sample_ext diff_model reply_good) sample_world = (o, w', t) /\
    sends t = raw ++ bundles /\
    raw = List.map (fun f => rawCommand sample_world f (sample_content f))
            (List.filter keepFile sample_entries) /\
    (forall f, In f (List.filter keepFile sample_entries) <->
               In f sample_entries /\ keptFile f) /\
    List.map Key raw = List.filter keepFile sample_entries /\
    Forall (bundlePutOf (changedSchemasOf (changedFilesOf diff_model))) bundles.
Proof.
  apply (@raw_upload_publishes_every_schema_file (sample_ext diff_model reply_good)
           sample_world diff_model sample_entries sample_content).
  - apply sample_envComplete.
  - reflexivity.
  - vm_compute. discriminate.
  - reflexivity.
  - intros f Hin _. simpl in Hin.
    repeat (destruct Hin as [<-|Hin]; [reflexivity|]). destruct Hin.
  - reflexivity.
Defined.



Lemma extraction_takes_first_span_witness :
  Str.match_result (responseText (sample_message reply_good))
  = Some " export interface Model {} " /\
  exists t,
    @generateTypes (sample_ext diff_model reply_good) model_schema sample_world =
    (match @prettier_format (sample_ext diff_model reply_good)
             (tick (tick sample_world)) (Str.trim " export interface Model {} ") with
     | Ok processedContent => Ret processedContent
     | Raise e => Throw e
     end, tick (tick (tick sample_world)), t) /\
    last t = Some (EFormat (Str.trim " export interface Model {} ")).
Proof.
  apply (@extraction_takes_first_span (sample_ext diff_model reply_good)
           model_schema sample_world
           "export interface Draft {}" "Clean: <d.ts></d.ts>"
           (sample_message reply_good)
           {| type := "text"; text := Some reply_good |}
           reply_good
           "Here you go. "
           " export interface Model {} </result> and <result>more</result>"
           " export interface Model {} "
           " and <result>more</result>").
  - reflexivity.
  - reflexivity.
  - reflexivity.
  - reflexivity.
  - reflexivity.
  - apply cut_firstOccurrence. reflexivity.
  - apply cut_firstOccurrence. reflexivity.
Defined.

Lemma generation_without_span_is_fatal_witness :
  exists o w' t,
    @processSchema (sample_ext diff_both reply_bare) model_schema sample_world = (o, w', t) /\
    o = Throw generationError /\
    files w' = files sample_world /\
    writes t = [] /\
    @processAll (sample_ext diff_both reply_bare) [model_schema; content_schema] sample_world =
    (Exit 1, w', t ++ [failureLog model_schema generationError]).
Proof.
  eexists _, _, _. split; [reflexivity|].
  apply (@generation_without_span_is_fatal (sample_ext diff_both reply_bare)
           model_schema [content_schema] sample_world _ _ _
           (createParams (promptFor "Clean: <d.ts></d.ts>" "export interface Draft {}"))
           (sample_message reply_bare)).
  - reflexivity.
  - vm_compute. do 5 right. left. reflexivity.
  - apply StrFacts.match_result_None. reflexivity.
Defined.

Lemma bundling_without_id_fails_before_resolution_witness :
  exists w' t,
    @bundleSchema (sample_ext diff_content reply_good) (input content_schema) sample_world =
      (Throw (missingIdError (input content_schema)), w', t) /\
    Forall (fun e => isNetwork e = false) t /\
    @bundleAndUpload (sample_ext diff_content reply_good) content_schema sample_world =
      (Throw (missingIdError (input content_schema)), w',
       ELog Stdout [LStr ("  ✓ Written types to " +:+ output content_schema)]
       :: ELog Stdout [LStr "  Bundling schema..."] :: t) /\
    sends t = [].
Proof.
  apply (@bundling_without_id_fails_before_resolution (sample_ext diff_content reply_good)
           content_schema sample_world sample_entries "content" doc_content None);
    reflexivity.
Defined.

(** C4, as stated, fails on the sample repository: its [content] schema
    carries no [$id], processing it ends with the error that names the
    schema path, and the sixth event of that attempt, well before the
    error, is an answered call to the text-generation service for that
    schema. *)
Lemma missing_id_detected_after_generation_call :
  let ext := sample_ext diff_content reply_good in
  let attempt := @processSchema ext content_schema sample_world in
  let asked :=
    ECreate (createParams (promptFor "Clean: <d.ts></d.ts>" "export interface Draft {}"))
            (Ok (sample_message reply_good)) in
  @JSON_parse ext "content" = Ok doc_content /\
  getProp doc_content "$id" = Ok None /\
  attempt.1.1 = Throw (missingIdError "schema/content.json") /\
  attempt.2 !! 5%nat = Some asked /\
  isNetwork asked = true.
Proof. vm_compute. repeat split; reflexivity. Qed.


Lemma processing_failure_aborts_run_witness :
  let ext := sample_ext diff_both reply_bare in
  let raw := @uploadRawSchemas ext (tick sample_world) in
  let attempt := @processSchema ext model_schema raw.1.2 in
  @run ext sample_world =
  (1%Z, attempt.1.2,
   detectEvents diff_both ++ raw.2 ++ [] ++ attempt.2 ++
   [ELog Stderr [LStr (Str.nl +:+ "❌ Failed to process " +:+ input model_schema +:+ ":");
                 LErr generationError]]).
Proof.
  intros ext raw attempt.
  apply (@processing_failure_aborts_run ext sample_world diff_both
           [] [content_schema] model_schema
           raw.1.2 raw.2 raw.1.2 [] generationError attempt.1.2 attempt.2).
  - apply sample_envComplete.
  - reflexivity.
  - vm_compute. reflexivity.
  - vm_compute. reflexivity.
  - reflexivity.
  - vm_compute. reflexivity.
Defined.

(** * Further properties of the scripts *)

(** ** Environment validation and change detection *)

Section MoreDetection.

Context {ext : Externals}.

#[local] Arguments changedSchemasOf : simpl never.
#[local] Arguments changedFilesOf : simpl never.
#[local] Arguments Str.trim : simpl never.
#[local] Arguments Str.split : simpl never.
#[local] Arguments pretty : simpl never.

Lemma forOf_checkEnv_first (pre post : list string) (v : string) (w : World) :
  (forall u, In u pre -> envMissing w u = false) ->
  envMissing w v = true ->
  forOf (pre ++ v :: post) checkEnv w = (Exit 1, w, [missingLog v]).
Proof.
  intros Hpre Hv.
  rewrite (forOf_app _ _ _ _ _ _ (forOf_checkEnv_ok pre w Hpre)).
  cbn [forOf]. unfold bind at 1. unfold checkEnv at 1, bind, getWorld.
  rewrite Hv. reflexivity.
Qed.

Lemma envComplete_dec (w : World) :
  envComplete w \/ exists v, In v required /\ envMissing w v = true.
Proof.
  unfold envComplete. induction required as [|v l IH].
  - left. intros v [].
  - destruct (envMissing w v) eqn:Hv.
    + right. exists v. split; [left; reflexivity | exact Hv].
    + destruct IH as [IH | (u & Hu & Hm)].
      * left. intros u [<-|Hu]; auto.
      * right. exists u. split; [right; exact Hu | exact Hm].
Qed.

(** X1: validation passes, silently and leaving the world as it was,
    exactly when each of the five required values is set to a non-empty
    string; it never ends in any way other than returning or exiting with
    code 1. *)
Theorem validation_passes_iff_complete (w : World) :
  (validateEnv w = (Ret tt, w, []) <-> envComplete w) /\
  (forall o w' t, validateEnv w = (o, w', t) ->
     (o = Ret tt /\ t = []) \/ (o = Exit 1 /\ exists v, In v required /\ t = [missingLog v])) /\
  (forall v, In v required -> env w !! v = Some "" -> ~ envComplete w).
Proof.
  split; [|split].
  - split; [|apply validateEnv_ok].
    intros Hrun. destruct (envComplete_dec w) as [H | H]; [exact H|].
    rewrite validateEnv_eq in Hrun.
    apply forOf_checkEnv_missing in H as (v & _ & _ & Hexit). congruence.
  - intros o w' t Hrun. destruct (envComplete_dec w) as [H | H].
    + rewrite (validateEnv_ok _ H) in Hrun. injection Hrun as <- <- <-. now left.
    + rewrite validateEnv_eq in Hrun.
      apply forOf_checkEnv_missing in H as (v & Hin & _ & Hexit).
      rewrite Hexit in Hrun. injection Hrun as <- <- <-. right. eauto.
  - intros v Hin Hempty Hcomplete. specialize (Hcomplete v Hin).
    unfold envMissing in Hcomplete. rewrite Hempty in Hcomplete. discriminate.
Qed.

(** X2: validation reports the first missing value in the order the
    script lists them, and only that one. *)
Theorem validation_reports_first_missing
    (pre post : list string) (v : string) (w : World) :
  required = pre ++ v :: post ->
  (forall u, In u pre -> envMissing w u = false) ->
  envMissing w v = true ->
  validateEnv w = (Exit 1, w, [missingLog v]) /\
  run w = (1%Z, w, [missingLog v]).
Proof.
  intros Hreq Hpre Hv.
  assert (validateEnv w = (Exit 1, w, [missingLog v])) as Hrun.
  { rewrite validateEnv_eq, Hreq. now apply forOf_checkEnv_first. }
  split; [exact Hrun|].
  unfold run, main. rewrite (bind_Exit _ _ _ _ _ _ Hrun). reflexivity.
Qed.

(** X3: when the version-control query fails, the run ends with exit code
    1 right after the query: nothing is read, written, generated or put. *)
Theorem failed_query_aborts_run (w : World) (e : Error) :
  envComplete w ->
  execSync w gitDiff None = Raise e ->
  main w = (Throw e, tick w, detectFailureEvents) /\
  run w = (1%Z, tick w, detectFailureEvents).
Proof.
  intros Henv Hfail.
  assert (main w = (Throw e, tick w, detectFailureEvents)) as Hmain.
  { unfold main. rewrite (bind_Ret _ _ _ _ _ _ (validateEnv_ok _ Henv)).
    unfold detectChangedSchemas, exec, console_log, bind, emit, call.
    fold gitDiff. rewrite Hfail. reflexivity. }
  split; [exact Hmain|]. unfold run. now rewrite Hmain.
Qed.

Lemma SCHEMAS_inputs_NoDup : NoDup (List.map input SCHEMAS).
Proof.
  apply NoDup_ListNoDup. simpl.
  repeat (constructor; [simpl; intuition discriminate|]). constructor.
Qed.

Lemma map_filter_NoDup {A B} (f : A -> B) (p : A -> bool) (l : list A) :
  List.NoDup (List.map f l) -> List.NoDup (List.map f (List.filter p l)).
Proof.
  induction l as [|x l IH]; simpl; intros H; [constructor|].
  inversion H as [|? ? Hnin Hnd]; subst.
  destruct (p x); simpl; [|now apply IH].
  constructor; [|now apply IH].
  intros Hin. apply Hnin. apply in_map_iff in Hin as (y & <- & Hy).
  apply filter_In in Hy as [Hy _]. now apply in_map.
Qed.

(** X4: which descriptors are detected depends only on which paths occur
    among the changed files, not on their order or on repetitions; the
    result lists no input path twice. *)
Theorem detection_ignores_order_and_repetition (l l' : list string) :
  (forall x, In x l <-> In x l') ->
  changedSchemasOf l = changedSchemasOf l' /\
  List.NoDup (List.map input (changedSchemasOf l)).
Proof.
  intros Hsame. split.
  - unfold changedSchemasOf. apply filter_ext. intros d.
    destruct (Array_includes l (input d)) eqn:H1, (Array_includes l' (input d)) eqn:H2;
      try reflexivity.
    + apply Array_includes_spec, Hsame, Array_includes_spec in H1. congruence.
    + apply Array_includes_spec, Hsame, Array_includes_spec in H2. congruence.
  - apply map_filter_NoDup, NoDup_ListNoDup, SCHEMAS_inputs_NoDup.
Qed.

(** X5: when the version-control query prints nothing but white space
    (nothing at all included), the changed-file list is empty and the run
    is a no-op: it ends with exit code 0 without a put. *)
Theorem blank_diff_changes_nothing (w : World) (diff : string) :
  envComplete w ->
  execSync w gitDiff None = Ok diff ->
  blank diff ->
  changedFilesOf diff = [] /\
  exists t, run w = (0%Z, tick w, t) /\ sends t = [].
Proof.
  intros Henv Hdiff Hblank.
  assert (Str.trim diff = "") as Htrim.
  { unfold Str.trim. now rewrite (TrimFacts.trimStart_blank _ Hblank). }
  assert (changedFilesOf diff = []) as Hnone.
  { unfold changedFilesOf. rewrite Htrim. reflexivity. }
  split; [exact Hnone|].
  assert (changedSchemasOf (changedFilesOf diff) = []) as Hs by now rewrite Hnone.
  eexists. unfold run. rewrite (main_no_changes _ _ Henv Hdiff Hs).
  split; reflexivity.
Qed.

End MoreDetection.

(** ** What a run never does *)

#[global] Instance envIs_invariant (e : gmap string string) : Invariant (envIs e).
Proof.
  split.
  - intros w H. exact H.
  - intros w s o w' t H [= <- <- <-]. exact H.
  - intros w path data o w' t H. unfold writeFileSync, bind, emit.
    destruct (dirs w !! Path.dirname path); intros [= <- <- <-]; exact H.
Qed.

Section Keeps.

Variable I : World -> Prop.
Variable P : Event -> Prop.
Context {II : Invariant I}.

Lemma keeps_ret {A} (a : A) : keeps I P (ret a).
Proof. intros w o w' t H [= <- <- <-]. split; [exact H | constructor]. Qed.

Lemma keeps_throw {A} (e : Error) : keeps I P (@throw A e).
Proof. intros w o w' t H [= <- <- <-]. split; [exact H | constructor]. Qed.

Lemma keeps_exit {A} (c : Z) : keeps I P (@process_exit A c).
Proof. intros w o w' t H [= <- <- <-]. split; [exact H | constructor]. Qed.

Lemma keeps_getWorld : keeps I P getWorld.
Proof. intros w o w' t H [= <- <- <-]. split; [exact H | constructor]. Qed.

Lemma keeps_emit (e : Event) : P e -> keeps I P (emit e).
Proof. intros He w o w' t H [= <- <- <-]. split; [exact H | now repeat constructor]. Qed.

Lemma keeps_call {A} (f : World -> Result A) : keeps I P (call f).
Proof.
  intros w o w' t H. unfold call. destruct (f w); intros [= <- <- <-];
    (split; [now apply inv_tick | constructor]).
Qed.

Lemma keeps_liftResult {A} (r : Result A) : keeps I P (liftResult r).
Proof.
  intros w o w' t H. unfold liftResult. destruct r; intros [= <- <- <-];
    (split; [exact H | constructor]).
Qed.

Lemma keeps_remember (s : JSON) : keeps I P (remember s).
Proof.
  intros w o w' t H Hrun. split; [eapply inv_remember; eassumption|].
  injection Hrun as _ _ <-. constructor.
Qed.

Lemma keeps_writeFileSync (path data : string) :
  P (EWrite path data) -> keeps I P (writeFileSync path data).
Proof.
  intros HP w o w' t H Hrun. split; [eapply inv_write; eassumption|].
  apply writeFileSync_events in Hrun as ->. now repeat constructor.
Qed.

Lemma keeps_bind {A B} (m : M A) (k : A -> M B) :
  keeps I P m -> (forall a, keeps I P (k a)) -> keeps I P (bind m k).
Proof.
  intros Hm Hk w o w' t H Hrun.
  apply bind_inv in Hrun
    as [(a & w1 & t1 & t2 & H1 & H2 & ->) | [(e & H1 & ->) | (c & H1 & ->)]].
  - apply Hm in H1 as [HI1 HP1]; [|exact H]. apply Hk in H2 as [HI2 HP2]; [|exact HI1].
    split; [exact HI2 | now apply Forall_app].
  - now apply Hm in H1.
  - now apply Hm in H1.
Qed.

Lemma keeps_tryCatch {A} (m : M A) (h : Error -> M A) :
  keeps I P m -> (forall e, keeps I P (h e)) -> keeps I P (tryCatch m h).
Proof.
  intros Hm Hh w o w' t H. unfold tryCatch.
  destruct (m w) as [[[a|e|c] w1] t1] eqn:H1.
  - intros [= <- <- <-]. now apply Hm in H1.
  - destruct (h e w1) as [[o2 w2] t2] eqn:H2. intros [= <- <- <-].
    apply Hm in H1 as [HI1 HP1]; [|exact H]. apply Hh in H2 as [HI2 HP2]; [|exact HI1].
    split; [exact HI2 | now apply Forall_app].
  - intros [= <- <- <-]. now apply Hm in H1.
Qed.

Lemma keeps_forOf {A} (l : list A) (body : A -> M unit) :
  (forall x, keeps I P (body x)) -> keeps I P (forOf l body).
Proof.
  intros Hb. induction l as [|x l IH]; cbn [forOf].
  - apply keeps_ret.
  - apply keeps_bind; [apply Hb | intros _; exact IH].
Qed.

End Keeps.

Ltac keeps_step :=
  lazymatch goal with
  | |- keeps _ _ (bind _ _) => apply keeps_bind; [ | intros ? ]
  | |- keeps _ _ (ret _) => apply keeps_ret
  | |- keeps _ _ (throw _) => apply keeps_throw
  | |- keeps _ _ (process_exit _) => apply keeps_exit
  | |- keeps _ _ getWorld => apply keeps_getWorld
  | |- keeps _ _ (emit _) => apply keeps_emit
  | |- keeps _ _ (call _) => apply keeps_call; exact _
  | |- keeps _ _ (liftResult _) => apply keeps_liftResult
  | |- keeps _ _ (remember _) => apply keeps_remember; exact _
  | |- keeps _ _ (writeFileSync _ _) => apply keeps_writeFileSync; try exact _
  | |- keeps _ _ (tryCatch _ _) => apply keeps_tryCatch; [ | intros ? ]
  | |- keeps _ _ (forOf _ _) => apply keeps_forOf; intros ?
  | |- keeps _ _ (console_log _) => unfold console_log
  | |- keeps _ _ (console_error _) => unfold console_error
  | |- keeps _ _ (readdirSync _) => unfold readdirSync
  | |- keeps _ _ (readFileSync _) => unfold readFileSync
  | |- keeps _ _ (exec _ _) => unfold exec
  | |- keeps _ _ (register _) => unfold register
  | |- keeps _ _ (create _) => unfold create
  | |- keeps _ _ (format _) => unfold format
  | |- keeps _ _ (if ?b then _ else _) => destruct b
  | |- keeps _ _ (match ?x with _ => _ end) => destruct x
  end.

Section NeverDoes.

Context {ext : Externals}.

#[local] Arguments changedSchemasOf : simpl never.
#[local] Arguments changedFilesOf : simpl never.
#[local] Arguments Path.join : simpl never.
#[local] Arguments Path.dirname : simpl never.
#[local] Arguments Str.trim : simpl never.
#[local] Arguments Str.split : simpl never.
#[local] Arguments Str.replace : simpl never.
#[local] Arguments Str.match_result : simpl never.
#[local] Arguments pretty : simpl never.
#[local] Arguments createParams : simpl never.

Lemma keeps_uploadToR2 (e : gmap string string) (key content : string) :
  keeps (envIs e) (putShape e) (uploadToR2 key content "application/json").
Proof.
  intros w o w' t He. unfold uploadToR2, console_log, bind, emit, getWorld, call.
  destruct (r2_send w _); intros [= <- <- <-];
    (split; [exact He|]);
    (constructor; [intros c Hc; discriminate Hc|]);
    (constructor; [|constructor]);
    intros c [= <-]; unfold BUCKET_NAME; rewrite He; repeat split.
Qed.

Ltac quiet_shape := let c := fresh in let H := fresh in intros c H; discriminate H.

(** X6: every put of a run, raw or bundle, goes to the bucket named in the
    environment at start, with the cache directive [public, max-age=3600]
    and the media type [application/json]; the run never changes the
    environment. *)
Theorem every_put_has_the_fixed_shape (w : World) o w' t :
  main w = (o, w', t) ->
  env w' = env w /\
  Forall (fun c => Bucket c = env w !! "R2_BUCKET_NAME" /\
                   CacheControl c = "public, max-age=3600" /\
                   ContentType c = "application/json") (sends t).
Proof.
  intros Hrun.
  assert (keeps (envIs (env w)) (putShape (env w)) main) as Hkeeps.
  { unfold main, validateEnv, detectChangedSchemas, uploadRawSchemas, processAll,
      processSchema, generateTypes, bundleSchema, registerAllSchemas.
    repeat first [ apply keeps_uploadToR2 | keeps_step ]; try exact _; quiet_shape. }
  destruct (Hkeeps w o w' t eq_refl Hrun) as [Henv Hshape].
  split; [exact Henv|]. apply sends_Forall. exact Hshape.
Qed.

End NeverDoes.

(** ** Whose work each event is *)

Section Attempts.

Context {ext : Externals}.

#[local] Arguments changedSchemasOf : simpl never.
#[local] Arguments changedFilesOf : simpl never.
#[local] Arguments Path.join : simpl never.
#[local] Arguments Path.dirname : simpl never.
#[local] Arguments Str.trim : simpl never.
#[local] Arguments Str.split : simpl never.
#[local] Arguments Str.replace : simpl never.
#[local] Arguments Str.match_result : simpl never.
#[local] Arguments pretty : simpl never.
#[local] Arguments createParams : simpl never.
#[local] Arguments keepFile : simpl never.

Lemma always_bind_liftResult {A B} (R : World -> World -> Prop) (P : Event -> Prop)
    {RF : Frame R} (r : Result A) (k : A -> M B) :
  (forall a, r = Ok a -> always R P (k a)) -> always R P (bind (liftResult r) k).
Proof.
  intros Hk w o w' t. unfold bind, liftResult. destruct r as [a|e].
  - destruct (k a w) as [[o2 w2] t2] eqn:H2. intros [= <- <- <-].
    exact (Hk a eq_refl _ _ _ _ H2).
  - intros [= <- <- <-]. split; [apply frame_refl | constructor].
Qed.

Variable fs : gmap string string.

Lemma registerAllSchemas_attempt (d : Schema) :
  always stable (attemptEvent fs d) (registerAllSchemas (input d)).
Proof.
  unfold registerAllSchemas.
  apply always_bind; [exact _ | unfold readdirSync; always_tac; reflexivity | intros entries].
  apply always_forOf_In; [exact _|]. intros file Hin.
  apply filter_In in Hin as [_ Hkeep].
  apply always_tryCatch; [exact _ | | intros e; apply always_ret; exact _].
  apply always_bind; [exact _ | | intros content].
  { unfold readFileSync. always_tac. right. right. exists file. split; [exact Hkeep | reflexivity]. }
  apply always_bind_liftResult; [exact _|]. intros schema Hparse.
  apply always_bind_liftResult; [exact _|]. intros id Hid.
  destruct (truthy id) eqn:Htruthy; [|apply always_ret; exact _].
  unfold register. always_tac. exists content, id. repeat split; assumption.
Qed.

Lemma bundleSchema_attempt (d : Schema) (w : World) o w' t :
  files w !! input d = fs !! input d ->
  bundleSchema (input d) w = (o, w', t) ->
  stable w w' /\ Forall (attemptEvent fs d) t.
Proof.
  intros Hfs Hrun. unfold bundleSchema in Hrun.
  apply bind_inv in Hrun
    as [(u & w1 & t1 & t2 & H1 & H2 & ->) | [(e & H1 & ->) | (c & H1 & ->)]];
    apply registerAllSchemas_attempt in H1 as [Hst1 HP1]; try (split; assumption).
  assert (files w1 !! input d = fs !! input d) as Hfs1
    by (destruct Hst1 as (_ & -> & _); exact Hfs).
  assert (attemptEvent fs d (ERead (input d))) as Hread by (right; left; reflexivity).
  revert H2. unfold readFileSync, liftResult, bind, emit, getWorld, call, ret, throw.
  destruct (files w1 !! input d) as [data|] eqn:Hdata.
  2: { intros [= <- <- <-]. split; [exact Hst1|].
       apply Forall_app. split; [exact HP1 | repeat constructor; exact Hread]. }
  destruct (JSON_parse data) as [doc|e] eqn:Hparse.
  2: { intros [= <- <- <-]. split; [exact Hst1|].
       apply Forall_app. split; [exact HP1 | repeat constructor; exact Hread]. }
  destruct (getProp doc "$id") as [id|e] eqn:Hid.
  2: { intros [= <- <- <-]. split; [exact Hst1|].
       apply Forall_app. split; [exact HP1 | repeat constructor; exact Hread]. }
  destruct (truthy id) eqn:Htruthy; cbn [negb].
  2: { intros [= <- <- <-]. split; [exact Hst1|].
       apply Forall_app. split; [exact HP1 | repeat constructor; exact Hread]. }
  assert (attemptEvent fs d (EBundle id)) as Hbundle.
  { exists data, doc. rewrite <- Hfs1. repeat split; assumption. }
  destruct (bundle w1 id); intros [= <- <- <-];
    (split; [now apply stable_tick|]);
    (apply Forall_app; split; [exact HP1|]);
    (constructor; [exact Hread|]); (constructor; [exact Hbundle|]); constructor.
Qed.

Lemma creates_app (t1 t2 : list Event) : creates (t1 ++ t2) = creates t1 ++ creates t2.
Proof. unfold creates. apply omap_app. Qed.

Lemma creates_notCreate (t : list Event) : Forall notCreate t -> creates t = [].
Proof.
  induction 1 as [|e t He _ IH]; [reflexivity|].
  destruct e; simpl; try exact IH. destruct He.
Qed.

(** One attempt at generation: its events are those of [d], and it calls
    the service once, for [d], unless it fails before the call. *)
Lemma generateTypes_attempt (d : Schema) (w : World) o w' t :
  files w !! promptFile d = fs !! promptFile d ->
  generateTypes d w = (o, w', t) ->
  stable w w' /\
  Forall (attemptEvent fs d) t /\
  ((creates t = [] /\ forall a, o <> Ret a) \/
   exists p, creates t = [p] /\ generationFor fs d p).
Proof.
  intros Hfs Hrun.
  split; [exact (proj1 (generateTypes_calm d _ _ _ _ Hrun))|].
  revert Hrun. rewrite generateTypes_unfold.
  assert (attemptEvent fs d (EExec (json2ts d) (Some (Path.dirname (input d))))) as Hexec
    by (split; reflexivity).
  assert (attemptEvent fs d (ERead (promptFile d))) as Hread by (left; reflexivity).
  destruct (execSync w (json2ts d) (Some (Path.dirname (input d))))
    as [typescriptContent|e] eqn:Hdraft.
  2: { intros [= <- <- <-]. split; [|left; split; [reflexivity | discriminate]].
       constructor; [exact I|]. constructor; [exact Hexec|]. constructor. }
  destruct (files w !! promptFile d) as [promptTemplate|] eqn:Htemplate.
  2: { intros [= <- <- <-]. split; [|left; split; [reflexivity | discriminate]].
       constructor; [exact I|]. constructor; [exact Hexec|].
       constructor; [exact I|]. constructor; [exact Hread|]. constructor. }
  cbv zeta.
  set (params := createParams (promptFor promptTemplate typescriptContent)).
  assert (generationFor fs d params) as Hgen.
  { exists promptTemplate, typescriptContent, w. rewrite <- Hfs. repeat split; assumption. }
  assert (forall response, Forall (attemptEvent fs d) (generationEvents d params response))
    as Hevents.
  { intros response. unfold generationEvents.
    constructor; [exact I|]. constructor; [exact Hexec|].
    constructor; [exact I|]. constructor; [exact Hread|].
    constructor; [exact Hgen|]. constructor. }
  destruct (messages_create (tick w) params) as [msg|e] eqn:Hmsg.
  2: { intros [= <- <- <-]. split; [apply Hevents|].
       right. exists params. split; [reflexivity | exact Hgen]. }
  destruct (Str.match_result (responseText msg)) as [group1|] eqn:Hmatch.
  - intros [= <- <- <-]. split.
    + change (Forall (attemptEvent fs d)
                (generationEvents d params (Ok msg) ++ [EFormat (Str.trim group1)])).
      apply Forall_app. split; [apply Hevents|].
      constructor; [|constructor].
      exists params, (tick w), msg, group1. repeat split; assumption.
    + right. exists params. split; [reflexivity | exact Hgen].
  - intros [= <- <- <-]. split.
    + change (Forall (attemptEvent fs d)
                (generationEvents d params (Ok msg) ++
                 [ELog Stderr [LStr "No <result> tag found in Claude's response"]])).
      apply Forall_app. split; [apply Hevents|]. constructor; [exact I | constructor].
    + right. exists params. split; [reflexivity | exact Hgen].
Qed.

Lemma bundleAndUpload_attempt (d : Schema) (w : World) o w' t :
  files w !! input d = fs !! input d ->
  bundleAndUpload d w = (o, w', t) ->
  stable w w' /\ Forall (attemptEvent fs d) t /\ creates t = [].
Proof.
  intros Hfs Hrun.
  split; [exact (proj1 (bundleAndUpload_stable d _ _ _ _ Hrun))|].
  split; [|apply creates_notCreate; exact (proj2 (bundleAndUpload_notCreate d _ _ _ _ Hrun))].
  revert Hrun. unfold bundleAndUpload, console_log.
  intros Hrun.
  apply bind_inv in Hrun
    as [(u1 & w1 & t1 & r1 & H1 & Hrun & ->) | [(e & [=] & _) | (c & [=] & _)]].
  injection H1 as _ <- <-.
  apply bind_inv in Hrun
    as [(u2 & w2 & t2 & r2 & H2 & Hrun & ->) | [(e & [=] & _) | (c & [=] & _)]].
  injection H2 as _ <- <-.
  constructor; [exact I|]. constructor; [exact I|]. cbn [app].
  apply bind_inv in Hrun
    as [(b & w3 & t3 & r3 & H3 & Hrun & ->) | [(e & H3 & ->) | (c & H3 & ->)]];
    apply (bundleSchema_attempt d) in H3 as [Hst3 HP3]; try exact Hfs; try exact HP3.
  apply Forall_app. split; [exact HP3|].
  revert Hrun. unfold uploadToR2, console_log, bind, emit, getWorld, call.
  destruct (r2_send w3 _); intros [= <- <- <-];
    (constructor; [exact I|]); (constructor; [split; reflexivity|]);
    repeat (constructor; try exact I).
Qed.

(** One attempt at a schema: its events are those of [d], the only file
    it touches is the output of [d], and when it returns it has called the
    service exactly once, for [d]. *)
Lemma processSchema_attempt (d : Schema) (w : World) o w' t :
  files w !! promptFile d = fs !! promptFile d ->
  files w !! input d = fs !! input d ->
  input d <> output d ->
  processSchema d w = (o, w', t) ->
  (forall q, q <> output d -> files w' !! q = files w !! q) /\
  Forall (attemptEvent fs d) t /\
  ((creates t = [] /\ o <> Ret tt) \/
   exists p, creates t = [p] /\ generationFor fs d p).
Proof.
  intros Hprompt Hinput Hneq Hrun.
  rewrite processSchema_eq in Hrun. unfold console_log at 1 in Hrun.
  apply bind_inv in Hrun
    as [(u0 & w0 & t0 & r0 & H0 & Hrun & ->) | [(e & [=] & _) | (c & [=] & _)]].
  injection H0 as _ <- <-.
  apply bind_inv in Hrun
    as [(ty & w1 & t1 & r1 & H1 & Hrun & ->) | [(e & H1 & ->) | (c & H1 & ->)]];
    apply generateTypes_attempt in H1 as (Hst1 & HP1 & Hc1); try exact Hprompt.
  2,3: split; [intros q _; destruct Hst1 as (_ & -> & _); reflexivity|];
       (split; [constructor; [exact I | exact HP1]|]);
       destruct Hc1 as [[Hc1 _]|Hc1]; [left; split; [exact Hc1 | discriminate] | right; exact Hc1].
  destruct Hc1 as [[_ Hc1]|(p & Hc1 & Hgen)]; [now destruct (Hc1 ty)|].
  assert (files w1 = files w) as Hf1 by (destruct Hst1 as (_ & -> & _); reflexivity).
  apply bind_inv in Hrun
    as [(u2 & w2 & t2 & r2 & H2 & Hrun & ->) | [(e & H2 & ->) | (c & H2 & ->)]].
  - pose proof (writeFileSync_events _ _ _ _ _ _ H2) as ->.
    assert (files w2 = <[output d := ty]> (files w1)) as Hf2.
    { revert H2. unfold writeFileSync, bind, emit.
      destruct (dirs w1 !! Path.dirname (output d)); intros [= <- <-]; reflexivity. }
    apply bundleAndUpload_attempt in Hrun as (Hst3 & HP3 & Hc3).
    2: { rewrite Hf2, lookup_insert_ne, Hf1 by (intros H; apply Hneq; now rewrite H). exact Hinput. }
    split; [|split].
    + intros q Hq. destruct Hst3 as (_ & -> & _).
      rewrite Hf2, lookup_insert_ne, Hf1 by (intros H; apply Hq; now rewrite H). reflexivity.
    + constructor; [exact I|]. apply Forall_app. split; [exact HP1|].
      constructor; [reflexivity | exact HP3].
    + right. exists p. split; [|exact Hgen].
      change (creates (t1 ++ [EWrite (output d) ty] ++ r2) = [p]).
      now rewrite !creates_app, Hc1, Hc3.
  - pose proof (writeFileSync_events _ _ _ _ _ _ H2) as ->.
    assert (files w' = files w1) as Hf2.
    { revert H2. unfold writeFileSync, bind, emit.
      destruct (dirs w1 !! Path.dirname (output d)); intros [= <- <-]; reflexivity. }
    split; [intros q _; now rewrite Hf2, Hf1|]. split.
    + constructor; [exact I|]. apply Forall_app. split; [exact HP1|].
      constructor; [reflexivity | constructor].
    + right. exists p. split; [|exact Hgen].
      change (creates (t1 ++ [EWrite (output d) ty]) = [p]).
      now rewrite creates_app, Hc1.
  - exfalso. revert H2. unfold writeFileSync, bind, emit.
    destruct (dirs w1 !! Path.dirname (output d)); intros [=].
Qed.

(** The loop over the changed schemas: every event is a line of output
    or belongs to the attempt at one of them, and the calls to the service
    are one for each schema of an initial part of the list, in order. *)
Lemma processAll_attempts (all : list Schema) :
  (forall d d', In d all -> In d' all ->
     promptFile d <> output d' /\ input d <> output d') ->
  forall ds w o w' t,
    incl ds all ->
    (forall d, In d all ->
       files w !! promptFile d = fs !! promptFile d /\
       files w !! input d = fs !! input d) ->
    processAll ds w = (o, w', t) ->
    Forall (fun e => (exists to args, e = ELog to args) \/
                     exists d, In d ds /\ attemptEvent fs d e) t /\
    exists called rest,
      ds = called ++ rest /\
      Forall2 (generationFor fs) called (creates t) /\
      (o = Ret tt -> rest = []).
Proof.
  intros Hapart ds. induction ds as [|d ds IH]; intros w o w' t Hincl Hfs Hrun.
  - injection Hrun as <- <- <-. split; [constructor|].
    exists [], []. repeat split. constructor.
  - assert (In d all) as Hd by (apply Hincl; left; reflexivity).
    rewrite processAll_eq in Hrun. cbn [forOf] in Hrun. unfold processOrExit at 1 in Hrun.
    assert (forall w1 t1 o1,
              processSchema d w = (o1, w1, t1) ->
              (forall d', In d' all ->
                 files w1 !! promptFile d' = fs !! promptFile d' /\
                 files w1 !! input d' = fs !! input d') /\
              Forall (fun e => (exists to args, e = ELog to args) \/
                               exists d', In d' (d :: ds) /\ attemptEvent fs d' e) t1 /\
              ((creates t1 = [] /\ o1 <> Ret tt) \/
               exists p, creates t1 = [p] /\ generationFor fs d p)) as Hattempt.
    { intros w1 t1 o1 Hp.
      apply processSchema_attempt in Hp as (Hfiles & HP & Hc);
        try apply (Hfs d Hd); try apply (Hapart d d Hd Hd).
      split; [|split; [|exact Hc]].
      - intros d' Hd'. destruct (Hapart d' d Hd' Hd) as [Hn1 Hn2].
        rewrite !Hfiles by assumption. now apply Hfs.
      - eapply Forall_impl; [exact HP|]. intros e He. right. exists d.
        split; [left; reflexivity | exact He]. }
    apply bind_inv in Hrun
      as [(u & w1 & t1 & t2 & H1 & H2 & ->) | [(e & H1 & ->) | (c & H1 & ->)]];
      unfold tryCatch in H1;
      destruct (processSchema d w) as [[[[]|e0|c0] wp] tp] eqn:Hp;
      try discriminate H1;
      try (revert H1; unfold console_error, bind, emit, process_exit; intros [=]; fail);
      destruct (Hattempt _ _ _ eq_refl) as (Hfs1 & HP1 & Hc1).
    + destruct u. injection H1 as <- <-.
      destruct Hc1 as [[_ Hc1]|(p & Hc1 & Hgen)]; [now destruct Hc1|].
      fold (forOf ds processOrExit) in H2. rewrite <- processAll_eq in H2.
      apply IH in H2 as (HP2 & called & rest & Hsplit & Hcalled & Hdone);
        [| intros x Hx; apply Hincl; right; exact Hx | exact Hfs1].
      split.
      * apply Forall_app. split; [exact HP1|].
        eapply Forall_impl; [exact HP2|].
        intros e [He|(d' & Hd' & He)]; [left; exact He|].
        right. exists d'. split; [right; exact Hd' | exact He].
      * exists (d :: called), rest. split; [now rewrite Hsplit|].
        rewrite creates_app, Hc1. split; [constructor; assumption | exact Hdone].
    + revert H1. unfold console_error, bind, emit, process_exit.
      intros [= <- <- <-]. split.
      * apply Forall_app. split; [exact HP1|].
        constructor; [left; eauto | constructor].
      * destruct Hc1 as [[Hc1 _]|(p & Hc1 & Hgen)].
        -- exists [], (d :: ds). rewrite creates_app, Hc1.
           repeat split; [constructor | discriminate].
        -- exists [d], ds. rewrite creates_app, Hc1.
           repeat split; [repeat constructor; exact Hgen | discriminate].
    + injection H1 as <- <- <-. split; [exact HP1|].
      destruct Hc1 as [[Hc1 _]|(p & Hc1 & Hgen)].
      * exists [], (d :: ds). rewrite Hc1. repeat split; [constructor | discriminate].
      * exists [d], ds. rewrite Hc1.
        repeat split; [repeat constructor; exact Hgen | discriminate].
Qed.

End Attempts.

Section RunAttempts.

Context {ext : Externals}.

#[local] Arguments changedSchemasOf : simpl never.
#[local] Arguments changedFilesOf : simpl never.
#[local] Arguments Path.join : simpl never.
#[local] Arguments Path.dirname : simpl never.
#[local] Arguments Str.trim : simpl never.
#[local] Arguments Str.split : simpl never.
#[local] Arguments pretty : simpl never.
#[local] Arguments keepFile : simpl never.

Lemma uploadRawSchemas_mirror : always stable mirrorEvent uploadRawSchemas.
Proof.
  rewrite uploadRawSchemas_eq.
  apply always_bind; [exact _ | unfold console_log; always_tac; exact I | intros _].
  apply always_bind; [exact _ | unfold readdirSync; always_tac; reflexivity | intros entries].
  apply always_bind; [exact _ | | intros _; unfold console_log; always_tac; exact I].
  apply always_forOf_In; [exact _|]. intros file Hin. apply filter_In in Hin as [_ Hkeep].
  unfold uploadRaw. apply always_bind; [exact _ | | intros content].
  - unfold readFileSync. always_tac. exists file. split; [exact Hkeep | reflexivity].
  - unfold uploadToR2. always_tac; [exact I|].
    exists file. repeat split. exact Hkeep.
Qed.

Lemma mirrorEvent_creates (t : list Event) : Forall mirrorEvent t -> creates t = [].
Proof.
  induction 1 as [|e t He _ IH]; [reflexivity|].
  destruct e; simpl; try exact IH. destruct He.
Qed.

Lemma mirrorEvent_workFor (fs : gmap string string) (ds : list Schema) (t : list Event) :
  Forall mirrorEvent t -> Forall (workFor fs ds) t.
Proof.
  intros H. eapply Forall_impl; [exact H|]. intros e He. right. right. left. exact He.
Qed.

(** No template and no input of a registered descriptor is the output of
    one. *)
Lemma SCHEMAS_sources_not_outputs (d d' : Schema) :
  In d SCHEMAS -> In d' SCHEMAS ->
  promptFile d <> output d' /\ input d <> output d'.
Proof.
  intros Hd Hd'. simpl in Hd, Hd'.
  repeat (destruct Hd as [<-|Hd];
          [repeat (destruct Hd' as [<-|Hd']; [split; discriminate|]); destruct Hd'|]).
  destruct Hd.
Qed.

Lemma changed_registered (l : list string) : incl (changedSchemasOf l) SCHEMAS.
Proof. intros d Hd. unfold changedSchemasOf in Hd. now apply filter_In in Hd. Qed.

(** A run as a whole, when the descriptors [changed] were detected. *)
Lemma run_attempts (w : World) (diff : string) o w' t :
  envComplete w ->
  execSync w gitDiff None = Ok diff ->
  main w = (o, w', t) ->
  Forall (workFor (files w) (changedSchemasOf (changedFilesOf diff))) t /\
  exists called rest,
    changedSchemasOf (changedFilesOf diff) = called ++ rest /\
    Forall2 (generationFor (files w)) called (creates t) /\
    (o = Ret tt -> rest = []).
Proof.
  intros Henv Hdiff Hrun. unfold main in Hrun.
  rewrite (bind_Ret _ _ _ _ _ _ (validateEnv_ok _ Henv)) in Hrun.
  rewrite (bind_Ret _ _ _ _ _ _ (detect_run _ _ Hdiff)) in Hrun.
  set (changed := changedSchemasOf (changedFilesOf diff)) in *.
  assert (Forall (workFor (files w) changed) (detectEvents diff)) as Hdetect.
  { unfold detectEvents.
    constructor; [left; eauto|]. constructor; [right; left; reflexivity|].
    constructor; [left; eauto|]. constructor; [left; eauto|]. constructor. }
  assert (creates (detectEvents diff) = []) as Hquiet by reflexivity.
  assert (forall lines, Forall (fun e => exists to args, e = ELog to args) lines ->
            Forall (workFor (files w) changed) lines /\ creates lines = []) as Hlines.
  { induction 1 as [|e l (to & args & ->) _ [IH1 IH2]]; [split; [constructor | reflexivity]|].
    split; [constructor; [left; eauto | exact IH1] | exact IH2]. }
  destruct (length changed =? 0)%nat eqn:Hnone.
  - injection Hrun as <- <- <-. split.
    + change (Forall (workFor (files w) changed)
                (detectEvents diff ++
                 [ELog Stdout
                    [LStr (Str.nl +:+ "No schema changes detected. Nothing to process.")]])).
      apply Forall_app. split; [exact Hdetect|]. constructor; [left; eauto | constructor].
    + exists [], changed. split; [reflexivity|]. split; [constructor|].
      intros _. apply Nat.eqb_eq in Hnone. now destruct changed.
  - cbn [app] in Hrun.
    destruct ((uploadRawSchemas ;;
               processAll changed ;;
               console_log [LStr (Str.nl +:+ "✓ All changed schemas processed successfully")] ;;
               console_log [LStr "  Types will be committed by the workflow"] ;;
               console_log [LStr "  Types will be uploaded to R2 by sync-types workflow"])
              (tick w)) as [[o2 w2] t2] eqn:Hrest.
    injection Hrun as <- <- <-.
    change (Forall (workFor (files w) changed) (detectEvents diff ++ t2) /\
            exists called rest,
              changed = called ++ rest /\
              Forall2 (generationFor (files w)) called (creates (detectEvents diff ++ t2)) /\
              (o2 = Ret tt -> rest = [])).
    rewrite creates_app, Hquiet. cbn [app].
    enough (Forall (workFor (files w) changed) t2 /\
            exists called rest,
              changed = called ++ rest /\
              Forall2 (generationFor (files w)) called (creates t2) /\
              (o2 = Ret tt -> rest = [])) as [H1 H2]
      by (split; [apply Forall_app; split; assumption | exact H2]).
    apply bind_inv in Hrest
      as [(u & w1 & t1 & r1 & H1 & Hrest & ->) | [(e & H1 & ->) | (c & H1 & ->)]];
      apply uploadRawSchemas_mirror in H1 as [Hst1 HP1];
      pose proof (mirrorEvent_workFor (files w) changed _ HP1) as HW1;
      pose proof (mirrorEvent_creates _ HP1) as Hc1.
    2,3: split; [exact HW1|]; exists [], changed; rewrite Hc1;
         repeat split; [constructor | discriminate].
    rewrite creates_app, Hc1. cbn [app].
    enough (Forall (workFor (files w) changed) r1 /\
            exists called rest,
              changed = called ++ rest /\
              Forall2 (generationFor (files w)) called (creates r1) /\
              (o2 = Ret tt -> rest = [])) as [H1 H2]
      by (split; [apply Forall_app; split; assumption | exact H2]).
    assert (forall o3 w3 t3, processAll changed w1 = (o3, w3, t3) ->
              Forall (workFor (files w) changed) t3 /\
              exists called rest,
                changed = called ++ rest /\
                Forall2 (generationFor (files w)) called (creates t3) /\
                (o3 = Ret tt -> rest = [])) as Hloop.
    { intros o3 w3 t3 H3.
      apply (processAll_attempts (files w) SCHEMAS SCHEMAS_sources_not_outputs) in H3
        as [HP3 Hcalled].
      - split; [|exact Hcalled]. eapply Forall_impl; [exact HP3|].
        intros e0 [He|He]; [left; exact He | right; right; right; exact He].
      - apply changed_registered.
      - intros d _. destruct Hst1 as (_ & -> & _). split; reflexivity. }
    apply bind_inv in Hrest
      as [(u2 & w3 & t3 & r3 & H3 & Hrest & ->) | [(e & H3 & ->) | (c & H3 & ->)]];
      apply Hloop in H3 as (HW3 & called & rest & Hsplit & Hcalled & Hdone).
    2,3: split; [exact HW3|]; exists called, rest; repeat split; assumption.
    revert Hrest. unfold console_log, bind, emit. intros [= <- <- <-].
    destruct (Hlines
      [ ELog Stdout [LStr (Str.nl +:+ "✓ All changed schemas processed successfully")];
        ELog Stdout [LStr "  Types will be committed by the workflow"];
        ELog Stdout [LStr "  Types will be uploaded to R2 by sync-types workflow"] ])
      as [HW4 Hc4]; [repeat (constructor; [eauto|]); constructor|].
    split; [apply Forall_app; split; assumption|].
    exists called, rest. rewrite creates_app, Hc4, app_nil_r.
    repeat split; try assumption. intros _. apply Hdone. now destruct u2.
Qed.

Lemma SCHEMAS_distinct (d d' : Schema) :
  In d SCHEMAS -> In d' SCHEMAS ->
  json2ts d = json2ts d' \/ output d = output d' \/
  bundled (r2Keys d) = bundled (r2Keys d') ->
  d = d'.
Proof.
  intros Hd Hd'. simpl in Hd, Hd'.
  repeat (destruct Hd as [<-|Hd];
          [repeat (destruct Hd' as [<-|Hd'];
                   [first [ intros _; reflexivity
                          | intros [H|[H|H]]; vm_compute in H; discriminate H ]|]);
           destruct Hd'|]).
  destruct Hd.
Qed.

Lemma SCHEMAS_not_mirror (d : Schema) :
  In d SCHEMAS -> json2ts d <> gitDiff /\ keepFile (bundled (r2Keys d)) = false.
Proof.
  intros Hd. simpl in Hd.
  repeat (destruct Hd as [<-|Hd]; [split; [vm_compute; discriminate | reflexivity]|]).
  destruct Hd.
Qed.

(** X7: a run does nothing on behalf of a descriptor that did not change.
    Every event of a run is a line of output, the version-control query,
    an event of the raw upload (the listing of [schema], the read of a kept
    entry, its put under its own name), or an event of processing a changed
    descriptor: the converter for it, reads in its directory and of its
    template and input, a registration, a call to the service with its
    template, the formatting of the answer, the write of its output, the
    resolution of its [$id], the put under its bundled key.  So for a
    registered descriptor that did not change the converter is not run, the
    output is not written, and nothing is put under the bundled key. *)
Theorem no_work_for_unchanged_descriptors (w : World) (diff : string) o w' t :
  envComplete w ->
  execSync w gitDiff None = Ok diff ->
  main w = (o, w', t) ->
  Forall (workFor (files w) (changedSchemasOf (changedFilesOf diff))) t /\
  forall d, In d SCHEMAS -> ~ In d (changedSchemasOf (changedFilesOf diff)) ->
    (forall cwd, ~ In (EExec (json2ts d) cwd) t) /\
    (forall data, ~ In (EWrite (output d) data) t) /\
    (forall c, In (ESend c) t -> Key c <> bundled (r2Keys d)).
Proof.
  intros Henv Hdiff Hrun.
  destruct (run_attempts w diff o w' t Henv Hdiff Hrun) as [Hwork _].
  split; [exact Hwork|].
  intros d Hd Hunchanged.
  destruct (SCHEMAS_not_mirror d Hd) as [Hquery Hkey].
  assert (forall d', In d' (changedSchemasOf (changedFilesOf diff)) ->
            json2ts d = json2ts d' \/ output d = output d' \/
            bundled (r2Keys d) = bundled (r2Keys d') -> False) as Hother.
  { intros d' Hd' Hsame. apply Hunchanged.
    rewrite (SCHEMAS_distinct d d' Hd (changed_registered _ _ Hd') Hsame). exact Hd'. }
  rewrite Forall_forall in Hwork.
  split; [|split].
  - intros cwd Hin. apply list_elem_of_In, Hwork in Hin.
    destruct Hin as [(to & args & [=]) | [Hq | [[] | (d' & Hd' & Hc & _)]]].
    + apply Hquery. congruence.
    + apply (Hother d' Hd'). left. exact Hc.
  - intros data Hin. apply list_elem_of_In, Hwork in Hin.
    destruct Hin as [(to & args & [=]) | [[=] | [[] | (d' & Hd' & Hp)]]].
    apply (Hother d' Hd'). right. left. exact Hp.
  - intros c Hin Hc. apply list_elem_of_In, Hwork in Hin.
    destruct Hin as [(to & args & [=]) | [[=] | [(f & Hf & Hk & _) | (d' & Hd' & Hk & _)]]].
    + rewrite <- Hk, Hc, Hkey in Hf. discriminate Hf.
    + apply (Hother d' Hd'). right. right. now rewrite <- Hc, <- Hk.
Qed.

End RunAttempts.

(** ** The raw upload when a file cannot be read *)

Section MoreUpload.

Context {ext : Externals}.

#[local] Arguments changedSchemasOf : simpl never.
#[local] Arguments changedFilesOf : simpl never.
#[local] Arguments keepFile : simpl never.
#[local] Arguments Path.join : simpl never.
#[local] Arguments Path.dirname : simpl never.
#[local] Arguments pretty : simpl never.

Lemma uploadRaw_unreadable (dir file : string) (w : World) :
  files w !! Path.join dir file = None ->
  uploadRaw dir file w =
  (Throw (SystemError (errno w ReadFile (Path.join dir file)) (Path.join dir file)), w,
   [ERead (Path.join dir file)]).
Proof.
  intros H. unfold uploadRaw, readFileSync, bind at 1 2 3, emit, getWorld.
  rewrite H. reflexivity.
Qed.

Lemma forOf_Throw {A} (l1 l2 : list A) (x : A) (body : A -> M unit)
    (w : World) w1 t1 e w2 t2 :
  forOf l1 body w = (Ret tt, w1, t1) ->
  body x w1 = (Throw e, w2, t2) ->
  forOf (l1 ++ x :: l2) body w = (Throw e, w2, t1 ++ t2).
Proof.
  intros H1 H2. rewrite (forOf_app _ _ _ _ _ _ H1). cbn [forOf].
  now rewrite (bind_Throw _ _ _ _ _ _ H2).
Qed.

(** X8: the raw upload stops at the first kept entry it cannot read (a
    missing file, a directory, a file the process may not open): the
    entries before it have been put, in order; the failed read is the last
    thing that happens, so nothing is put for that entry or a later one;
    and what is thrown is the error of that read, with the code the
    operating system gives for it at that moment. *)
Theorem raw_upload_stops_at_unreadable_file
    (w : World) (entries before after : list string) (file : string)
    (contentOf : string -> string) :
  dirs w !! "schema" = Some entries ->
  List.filter keepFile entries = before ++ file :: after ->
  (forall f, In f before -> files w !! Path.join "schema" f = Some (contentOf f)) ->
  (forall w' f, In f before -> r2_send w' (rawCommand w f (contentOf f)) = Ok tt) ->
  files w !! Path.join "schema" file = None ->
  exists w' t,
    uploadRawSchemas w =
      (Throw (SystemError (errno w' ReadFile (Path.join "schema" file))
                (Path.join "schema" file)), w', t) /\
    stable w w' /\
    sends t = List.map (fun f => rawCommand w f (contentOf f)) before /\
    last t = Some (ERead (Path.join "schema" file)).
Proof.
  intros Hdir Hsplit Hread Hsend Hnone.
  destruct (forOf_uploadRaw "schema" contentOf w before w)
    as (w1 & t1 & Hrun & Hst & Hsends); try assumption.
  { repeat split. }
  assert (files w1 !! Path.join "schema" file = None) as Hnone1.
  { destruct Hst as (_ & -> & _). exact Hnone. }
  pose proof (forOf_Throw before after file (uploadRaw "schema") w _ _ _ _ _
                Hrun (uploadRaw_unreadable _ _ _ Hnone1)) as Hloop.
  eexists w1, _. rewrite uploadRawSchemas_eq.
  unfold console_log, readdirSync, bind at 1 2 3 4, emit, getWorld.
  rewrite Hdir. cbn [ret app]. rewrite Hsplit.
  rewrite (bind_Throw _ _ _ _ _ _ Hloop).
  split; [reflexivity|]. split; [exact Hst|]. split.
  - cbn [sends omap list_omap]. fold (sends (t1 ++ [ERead (Path.join "schema" file)])).
    rewrite sends_app, Hsends. simpl. apply app_nil_r.
  - cbn [last]. rewrite !last_cons, last_snoc. reflexivity.
Qed.

Lemma uploadRawSchemas_calm : always stable (fun e => notCreate e /\ notWrite e) uploadRawSchemas.
Proof. unfold uploadRawSchemas. always_tac; split; exact I. Qed.

(** X9: when the raw upload throws, whatever the reason, the run ends with
    exit code 1 before any schema is processed: no call to the
    text-generation service, no file written, the disk as it was. *)
Theorem failed_raw_upload_aborts_run (w : World) (diff : string) (e : Error) w1 t1 :
  envComplete w ->
  execSync w gitDiff None = Ok diff ->
  changedSchemasOf (changedFilesOf diff) <> [] ->
  uploadRawSchemas (tick w) = (Throw e, w1, t1) ->
  run w = (1%Z, w1, detectEvents diff ++ t1) /\
  files w1 = files w /\
  creates t1 = [] /\ writes t1 = [].
Proof.
  intros Henv Hdiff Hne Hraw. split.
  - unfold run, main.
    rewrite (bind_Ret _ _ _ _ _ _ (validateEnv_ok _ Henv)).
    rewrite (bind_Ret _ _ _ _ _ _ (detect_run _ _ Hdiff)).
    destruct (changedSchemasOf (changedFilesOf diff)) as [|c cs]; [congruence|].
    cbn [length Nat.eqb]. rewrite (bind_Throw _ _ _ _ _ _ Hraw). reflexivity.
  - apply uploadRawSchemas_calm in Hraw as [(_ & Hfiles & _) Hq].
    split; [exact Hfiles|].
    clear -Hq. induction Hq as [|ev t [H1 H2] _ [IH1 IH2]]; [split; reflexivity|].
    destruct ev; simpl; try (split; assumption); contradiction.
Qed.

End MoreUpload.

(** ** Declaration generation, step by step *)

Section MoreGeneration.

Context {ext : Externals}.

#[local] Arguments Path.join : simpl never.
#[local] Arguments Path.dirname : simpl never.
#[local] Arguments Str.trim : simpl never.
#[local] Arguments Str.split : simpl never.
#[local] Arguments Str.replace : simpl never.
#[local] Arguments Str.match_result : simpl never.
#[local] Arguments createParams : simpl never.

(** X10: when the converter fails, or the instruction template cannot be
    read, [generateTypes] throws without calling the text-generation
    service. *)
Theorem no_generation_call_without_draft_and_template (config : Schema) (w : World) :
  (exists e, execSync w (json2ts config) (Some (Path.dirname (input config))) = Raise e) \/
  files w !! promptFile config = None ->
  exists e w' t,
    generateTypes config w = (Throw e, w', t) /\ creates t = [].
Proof.
  intros H. rewrite generateTypes_unfold.
  destruct (execSync w (json2ts config) (Some (Path.dirname (input config))))
    as [typescriptContent|e] eqn:Hexec.
  - destruct H as [[e He] | H]; [discriminate|]. rewrite H.
    eexists _, _, _. split; reflexivity.
  - eexists _, _, _. split; reflexivity.
Qed.

(** X11: whatever its collaborators answer, [generateTypes] leaves the
    environment and the disk as they were, writes no file and puts
    nothing, and asks the text-generation service at most once. *)
Theorem generation_has_no_side_effect_on_disk (config : Schema) (w : World) o w' t :
  generateTypes config w = (o, w', t) ->
  env w' = env w /\ files w' = files w /\ dirs w' = dirs w /\
  writes t = [] /\ sends t = [] /\ (length (creates t) <= 1)%nat.
Proof.
  intros Hrun.
  pose proof (generateTypes_calm config _ _ _ _ Hrun) as [(He & Hf & Hd) Hq].
  repeat split; try assumption.
  - now apply quiet_writes.
  - now apply sends_quiet.
  - rewrite generateTypes_unfold in Hrun.
    destruct (execSync w (json2ts config) (Some (Path.dirname (input config))))
      as [typescriptContent|e1]; [|injection Hrun as <- <- <-; simpl; lia].
    destruct (files w !! promptFile config) as [promptTemplate|];
      [|injection Hrun as <- <- <-; simpl; lia].
    cbn zeta in Hrun.
    destruct (messages_create (tick w) _) as [msg|e2];
      [|injection Hrun as <- <- <-; simpl; lia].
    destruct (Str.match_result (responseText msg)); injection Hrun as <- <- <-; simpl; lia.
Qed.

Lemma getSubstitution_noDollar (matched before after r : string) :
  noDollar r -> Str.getSubstitution matched before after r = r.
Proof.
  induction r as [|c r IH]; intros Hno; [reflexivity|].
  cbn [Str.getSubstitution].
  destruct (Ascii.eqb_spec c "$") as [->|Hc].
  - exfalso. apply (Hno "" r). reflexivity.
  - rewrite IH; [reflexivity|].
    intros a b ->. apply (Hno (String c a) b). reflexivity.
Qed.

Lemma noDollar_app (x y : string) : noDollar x -> noDollar y -> noDollar (x +:+ y).
Proof.
  induction x as [|c x IH]; intros Hx Hy; [exact Hy|].
  intros [|d a] b H.
  - injection H as -> _. apply (Hx "" x). reflexivity.
  - injection H as -> H. revert H. apply IH; [|exact Hy].
    intros a' b' ->. apply (Hx (String d a') b'). reflexivity.
Qed.

Lemma noDollar_includes (s : string) : Str.includes s "$" = false -> noDollar s.
Proof.
  intros H a b ->.
  assert (Str.includes (a +:+ "$" +:+ b) "$" = true) by (apply StrFacts.includes_spec; eauto).
  congruence.
Qed.

(** X12: a template without the placeholder [<d.ts></d.ts>] is sent as
    it is: the draft declaration is left out of the instruction. *)
Theorem prompt_without_placeholder_drops_draft (promptTemplate typescriptContent : string) :
  ~ (exists a b, promptTemplate = a +:+ "<d.ts></d.ts>" +:+ b) ->
  promptFor promptTemplate typescriptContent = promptTemplate.
Proof.
  intros Hno. unfold promptFor, Str.replace.
  destruct (Str.cut "<d.ts></d.ts>" promptTemplate) as [[a b]|] eqn:Hcut; [|reflexivity].
  exfalso. apply StrFacts.cut_Some in Hcut as [-> _]. eauto.
Qed.

(** X13: a draft without a dollar sign is inserted verbatim, wrapped in
    the tags and two line breaks, in place of the first placeholder of the
    template; any later placeholder stays as it is. *)
Theorem prompt_inserts_draft_at_first_placeholder
    (promptTemplate before after typescriptContent : string) :
  firstOccurrence "<d.ts></d.ts>" promptTemplate before after ->
  noDollar typescriptContent ->
  promptFor promptTemplate typescriptContent =
  before +:+ "<d.ts>" +:+ Str.nl +:+ typescriptContent +:+ Str.nl +:+ "</d.ts>" +:+ after.
Proof.
  intros [-> Hmin] Hno. unfold promptFor, Str.replace.
  rewrite StrFacts.cut_first by exact Hmin.
  rewrite getSubstitution_noDollar.
  - now rewrite <- !StrFacts.app_assoc.
  - repeat apply noDollar_app; try exact Hno; now apply noDollar_includes.
Qed.

(** X14: the scan for the result span succeeds with [inner] exactly when
    [inner] is what stands between the first opening tag of the text and
    the first closing tag after that opening tag. *)
Theorem result_scan_characterised (s inner : string) :
  Str.match_result s = Some inner <->
  exists pre rest post,
    firstOccurrence "<result>" s pre rest /\
    firstOccurrence "</result>" rest inner post.
Proof.
  split.
  - intros H. apply StrFacts.match_result_Some in H as (a & rest & b & Hopen & Hclose).
    exists a, rest, b. split; now apply StrFacts.cut_Some.
  - intros (pre & rest & post & [Hs Hmin] & [Hrest Hmin']).
    eapply StrFacts.match_result_first; eassumption.
Qed.

End MoreGeneration.

(** ** Bundling and processing, on success and on a bad target *)

Section MoreProcessing.

Context {ext : Externals}.

#[local] Arguments changedSchemasOf : simpl never.
#[local] Arguments changedFilesOf : simpl never.
#[local] Arguments keepFile : simpl never.
#[local] Arguments Path.join : simpl never.
#[local] Arguments Path.dirname : simpl never.
#[local] Arguments Str.trim : simpl never.
#[local] Arguments Str.split : simpl never.
#[local] Arguments Str.replace : simpl never.
#[local] Arguments Str.match_result : simpl never.
#[local] Arguments pretty : simpl never.
#[local] Arguments createParams : simpl never.

(** X15: for a target that is readable, parses and carries a truthy
    [$id], bundling first registers the siblings, then reads the target and
    asks the bundler to resolve exactly the target's [$id]; it returns the
    serialization of what the bundler returns, and throws what the bundler
    throws. *)
Theorem bundling_resolves_the_target_id
    (schemaPath : string) (w : World)
    (entries : list string) (data : string) (doc : JSON) (id : option JSON) :
  dirs w !! Path.dirname schemaPath = Some entries ->
  files w !! schemaPath = Some data ->
  JSON_parse data = Ok doc ->
  getProp doc "$id" = Ok id ->
  truthy id = true ->
  exists w1 t1,
    registerAllSchemas schemaPath w = (Ret tt, w1, t1) /\
    bundleSchema schemaPath w =
      (match bundle w1 id with
       | Ok bundled => Ret (JSON_stringify bundled)
       | Raise e => Throw e
       end, tick w1, t1 ++ [ERead schemaPath; EBundle id]).
Proof.
  intros Hdir Hfile Hparse Hid Htruthy.
  destruct (registerAllSchemas_run schemaPath w entries Hdir) as (w1 & t1 & Hreg & Hst & _).
  exists w1, t1. split; [exact Hreg|].
  unfold bundleSchema. rewrite (bind_Ret _ _ _ _ _ _ Hreg).
  unfold readFileSync, liftResult, bind, emit, getWorld, call.
  destruct Hst as (_ & -> & _). rewrite Hfile. cbn [ret].
  rewrite Hparse, Hid, Htruthy. cbn [negb].
  destruct (bundle w1 id); reflexivity.
Qed.

(** X16: a target that cannot be read, does not parse, or is the document
    [null] makes bundling throw (the same defects are passed over in a
    sibling); nothing has been asked of the network by then. *)
Theorem malformed_target_aborts_bundling
    (schemaPath : string) (w : World) (entries : list string) :
  dirs w !! Path.dirname schemaPath = Some entries ->
  files w !! schemaPath = None \/
  (exists data, files w !! schemaPath = Some data /\
     ((exists e, JSON_parse data = Raise e) \/ JSON_parse data = Ok JNull)) ->
  exists e w' t,
    bundleSchema schemaPath w = (Throw e, w', t) /\
    Forall (fun ev => isNetwork ev = false) t.
Proof.
  intros Hdir Hbad.
  destruct (registerAllSchemas_run schemaPath w entries Hdir) as (w1 & t1 & Hreg & Hst & _).
  pose proof (registerAllSchemas_local schemaPath _ _ _ _ Hreg) as [_ Hlocal].
  assert (Forall (fun ev => isNetwork ev = false) (t1 ++ [ERead schemaPath])) as Hall.
  { apply Forall_app. split; [exact Hlocal | repeat constructor]. }
  destruct Hst as (_ & Hfiles & _).
  unfold bundleSchema. rewrite (bind_Ret _ _ _ _ _ _ Hreg).
  unfold readFileSync, liftResult, bind, emit, getWorld. rewrite Hfiles.
  destruct Hbad as [-> | (data & -> & [[e Hparse] | Hparse])].
  - eexists _, _, _. split; [reflexivity | exact Hall].
  - cbn [ret]. rewrite Hparse. eexists _, _, _. split; [reflexivity | exact Hall].
  - cbn [ret]. rewrite Hparse. cbn [getProp]. eexists _, _, _. split; [reflexivity | exact Hall].
Qed.

Lemma uploadToR2_Ret (key content contentType : string) (w : World) w' t :
  uploadToR2 key content contentType w = (Ret tt, w', t) ->
  sends t = [ {| Bucket := BUCKET_NAME w; Key := key; Body := content;
                 ContentType := contentType; CacheControl := CACHE_CONTROL |} ].
Proof.
  unfold uploadToR2, console_log, bind, emit, getWorld, call.
  destruct (r2_send w _) as [[]|e]; intros [= <- <-]; reflexivity.
Qed.

(** A schema whose processing returns has put exactly its bundle. *)
Lemma processSchema_Ret_sends (config : Schema) (w : World) w' t :
  processSchema config w = (Ret tt, w', t) ->
  exists bundledSchema, sends t = [bundleCommand w config bundledSchema].
Proof.
  intros H. rewrite processSchema_eq in H. unfold console_log at 1 in H.
  apply bind_inv in H as [(u0 & w0 & t0 & r0 & H0 & H & ->) | [(e & _ & [=]) | (c & _ & [=])]].
  injection H0 as <- <- <-.
  apply bind_inv in H as [(ty & w1 & t1 & r1 & H1 & H & ->) | [(e & _ & [=]) | (c & _ & [=])]].
  apply generateTypes_calm in H1 as [(He1 & _) Hq1].
  apply bind_inv in H as [(u2 & w2 & t2 & r2 & H2 & H & ->) | [(e & _ & [=]) | (c & _ & [=])]].
  assert (env w2 = env w1) as He2.
  { revert H2. unfold writeFileSync, bind, emit.
    destruct (dirs w1 !! Path.dirname (output config)); intros [= <- <-]; reflexivity. }
  apply writeFileSync_events in H2 as ->.
  unfold bundleAndUpload, console_log at 1 2 in H.
  apply bind_inv in H as [(u3 & w3 & t3 & r3 & H3 & H & ->) | [(e & _ & [=]) | (c & _ & [=])]].
  injection H3 as <- <- <-.
  apply bind_inv in H as [(u4 & w4 & t4 & r4 & H4 & H & ->) | [(e & _ & [=]) | (c & _ & [=])]].
  injection H4 as <- <- <-.
  apply bind_inv in H as [(b & w5 & t5 & r5 & H5 & H & ->) | [(e & _ & [=]) | (c & _ & [=])]].
  apply bundleSchema_calm in H5 as [(He5 & _) Hq5].
  apply bind_inv in H as [(u6 & w6 & t6 & r6 & H6 & H & ->) | [(e & _ & [=]) | (c & _ & [=])]].
  destruct u6. apply uploadToR2_Ret in H6.
  unfold console_log, emit in H. injection H as _ <-.
  exists b. rewrite !sends_app, (sends_quiet _ Hq1), (sends_quiet _ Hq5), H6.
  unfold bundleCommand, BUCKET_NAME. rewrite He5, He2, He1. reflexivity.
Qed.

Lemma processOrExit_Ret_inv (config : Schema) (w : World) w' t :
  processOrExit config w = (Ret tt, w', t) -> processSchema config w = (Ret tt, w', t).
Proof.
  unfold processOrExit, tryCatch.
  destruct (processSchema config w) as [[[[]|e|c] w1] t1]; try discriminate; auto.
Qed.

Lemma processAll_Ret_keys (l : list Schema) (w : World) w' t :
  processAll l w = (Ret tt, w', t) ->
  List.map Key (sends t) = List.map (fun d => bundled (r2Keys d)) l.
Proof.
  rewrite processAll_eq. revert w t. induction l as [|d l IH]; intros w t; cbn [forOf].
  - intros [= <- <-]. reflexivity.
  - intros H.
    apply bind_inv in H as [(u & w1 & t1 & t2 & H1 & H2 & ->) | [(e & _ & [=]) | (c & _ & [=])]].
    destruct u. apply processOrExit_Ret_inv, processSchema_Ret_sends in H1 as [b Hb].
    rewrite sends_app, map_app, Hb, (IH _ _ H2). reflexivity.
Qed.

(** X17: when generation, the write, bundling and the put all succeed,
    processing a schema returns, the output path holds the declaration
    text, and the one put of the attempt is the bundle under the
    descriptor's bundled key with the schema media type. *)
Theorem processing_success_publishes_one_bundle
    (config : Schema) (w : World) (typesContent bundledSchema : string)
    w1 t1 w2 tw w3 t3 :
  generateTypes config w = (Ret typesContent, w1, t1) ->
  writeFileSync (output config) typesContent w1 = (Ret tt, w2, tw) ->
  bundleSchema (input config) w2 = (Ret bundledSchema, w3, t3) ->
  r2_send w3 (bundleCommand w config bundledSchema) = Ok tt ->
  exists t,
    processSchema config w = (Ret tt, tick w3, t) /\
    files (tick w3) !! output config = Some typesContent /\
    sends t = [bundleCommand w config bundledSchema] /\
    writes t = [(output config, typesContent)].
Proof.
  intros Hgen Hw Hb Hsend.
  pose proof (generateTypes_calm config _ _ _ _ Hgen) as [(He1 & _) Hq1].
  pose proof (bundleSchema_calm (input config) _ _ _ _ Hb) as [(He3 & Hf3 & _) Hq3].
  assert (env w2 = env w1 /\ files w2 !! output config = Some typesContent) as [He2 Hf2].
  { revert Hw. unfold writeFileSync, bind, emit.
    destruct (dirs w1 !! Path.dirname (output config)); intros [= <- <-].
    split; [reflexivity | apply lookup_insert_eq]. }
  pose proof (writeFileSync_events _ _ _ _ _ _ Hw) as ->.
  assert (bundleCommand w config bundledSchema =
          {| Bucket := BUCKET_NAME w3; Key := bundled (r2Keys config); Body := bundledSchema;
             ContentType := "application/json"; CacheControl := CACHE_CONTROL |}) as Hcmd.
  { unfold bundleCommand, BUCKET_NAME. now rewrite He3, He2, He1. }
  rewrite Hcmd in Hsend.
  eexists. split; [|split; [|split]].
  - rewrite processSchema_eq. unfold console_log at 1, bind at 1, emit at 1.
    rewrite (bind_Ret _ _ _ _ _ _ Hgen), (bind_Ret _ _ _ _ _ _ Hw).
    unfold bundleAndUpload, console_log at 1 2, bind at 1 2, emit at 1 2.
    rewrite (bind_Ret _ _ _ _ _ _ Hb).
    rewrite (bind_Ret _ _ _ _ _ _ (uploadToR2_run _ _ _ _ Hsend)).
    reflexivity.
  - cbn [files tick]. now rewrite Hf3.
  - cbn [app]. cbn [sends omap list_omap].
    fold (sends (t1 ++ EWrite (output config) typesContent ::
                 ELog Stdout [LStr ("  ✓ Written types to " +:+ output config)] ::
                 ELog Stdout [LStr "  Bundling schema..."] ::
                 t3 ++ [ELog Stdout [LStr ("  Uploading to R2: " +:+ bundled (r2Keys config))];
                        ESend {| Bucket := BUCKET_NAME w3; Key := bundled (r2Keys config);
                                 Body := bundledSchema; ContentType := "application/json";
                                 CacheControl := CACHE_CONTROL |};
                        ELog Stdout [LStr "  ✓ Uploaded bundled schema"]])).
    rewrite sends_app, (sends_quiet _ Hq1). cbn [app sends omap list_omap].
    fold (sends (t3 ++ [ELog Stdout [LStr ("  Uploading to R2: " +:+ bundled (r2Keys config))];
                        ESend {| Bucket := BUCKET_NAME w3; Key := bundled (r2Keys config);
                                 Body := bundledSchema; ContentType := "application/json";
                                 CacheControl := CACHE_CONTROL |};
                        ELog Stdout [LStr "  ✓ Uploaded bundled schema"]])).
    rewrite sends_app, (sends_quiet _ Hq3), Hcmd. reflexivity.
  - cbn [app]. unfold writes. cbn [omap list_omap]. rewrite omap_app. fold (writes t1).
    rewrite (quiet_writes _ Hq1). cbn [app omap list_omap]. rewrite omap_app.
    fold (writes t3). rewrite (quiet_writes _ Hq3). reflexivity.
Qed.

(** X18: when the raw upload and the processing of every changed schema
    succeed, the run ends with exit code 0 after the three closing lines,
    and the bundles put are one per changed descriptor, under its bundled
    key, in registry order. *)
Theorem successful_run_publishes_each_bundle
    (w : World) (diff : string) w1 t1 w2 t2 :
  envComplete w ->
  execSync w gitDiff None = Ok diff ->
  changedSchemasOf (changedFilesOf diff) <> [] ->
  uploadRawSchemas (tick w) = (Ret tt, w1, t1) ->
  processAll (changedSchemasOf (changedFilesOf diff)) w1 = (Ret tt, w2, t2) ->
  run w = (0%Z, w2, detectEvents diff ++ t1 ++ t2 ++ successEvents) /\
  List.map Key (sends t2) =
  List.map (fun d => bundled (r2Keys d)) (changedSchemasOf (changedFilesOf diff)).
Proof.
  intros Henv Hdiff Hne Hraw Hall. split; [|exact (processAll_Ret_keys _ _ _ _ Hall)].
  unfold run, main.
  rewrite (bind_Ret _ _ _ _ _ _ (validateEnv_ok _ Henv)).
  rewrite (bind_Ret _ _ _ _ _ _ (detect_run _ _ Hdiff)).
  destruct (changedSchemasOf (changedFilesOf diff)) as [|c cs] eqn:Hchanged; [congruence|].
  cbn [length Nat.eqb].
  rewrite (bind_Ret _ _ _ _ _ _ Hraw), (bind_Ret _ _ _ _ _ _ Hall).
  reflexivity.
Qed.

(** X19: a run calls the text-generation service at most once per changed
    descriptor, and in their order: the calls of a run, answered or not,
    are one for each descriptor of an initial part of the detected list,
    each made with the template of its descriptor as the disk held it at
    the start and a draft the converter gave for that descriptor's schema.
    No descriptor is served twice; a run that returns has called once for
    every changed descriptor; and nothing is generated when nothing
    changed. *)
Theorem at_most_one_generation_per_changed_schema
    (w : World) (diff : string) o w' t :
  envComplete w ->
  execSync w gitDiff None = Ok diff ->
  main w = (o, w', t) ->
  (exists called rest,
     changedSchemasOf (changedFilesOf diff) = called ++ rest /\
     Forall2 (generationFor (files w)) called (creates t) /\
     List.NoDup (List.map input called) /\
     (o = Ret tt -> rest = [])) /\
  (length (creates t) <= length (changedSchemasOf (changedFilesOf diff)))%nat /\
  (changedSchemasOf (changedFilesOf diff) = [] -> creates t = []).
Proof.
  intros Henv Hdiff Hrun.
  destruct (run_attempts w diff o w' t Henv Hdiff Hrun)
    as (_ & called & rest & Hsplit & Hcalled & Hdone).
  pose proof (Forall2_length _ _ _ Hcalled) as Hlen.
  split; [|split].
  - exists called, rest. repeat split; try assumption.
    assert (List.NoDup (List.map input (changedSchemasOf (changedFilesOf diff)))) as Hnodup
      by (apply map_filter_NoDup, NoDup_ListNoDup, SCHEMAS_inputs_NoDup).
    rewrite Hsplit, map_app in Hnodup. exact (NoDup_app_remove_r _ _ Hnodup).
  - rewrite Hsplit, length_app, <- Hlen. lia.
  - intros Hnone. rewrite Hnone in Hsplit.
    destruct called; [|discriminate Hsplit].
    destruct (creates t); [reflexivity | discriminate Hlen].
Qed.

End MoreProcessing.

(** ** Exit codes *)

Section ExitCodes.

Context {ext : Externals}.

Variable code : Z.

Lemma exits_bind {A B} (m : M A) (k : A -> M B) :
  exitsOnlyWith code m -> (forall a, exitsOnlyWith code (k a)) ->
  exitsOnlyWith code (bind m k).
Proof.
  intros Hm Hk w c w' t H.
  apply bind_inv in H as [(a & w1 & t1 & t2 & H1 & H2 & _) | [(e & _ & [=]) | (c' & H1 & [= ->])]].
  - exact (Hk _ _ _ _ _ H2).
  - exact (Hm _ _ _ _ H1).
Qed.

Lemma exits_tryCatch {A} (m : M A) (h : Error -> M A) :
  exitsOnlyWith code m -> (forall e, exitsOnlyWith code (h e)) ->
  exitsOnlyWith code (tryCatch m h).
Proof.
  intros Hm Hh w c w' t. unfold tryCatch.
  destruct (m w) as [[[a|e|c'] w1] t1] eqn:H1; try discriminate.
  - destruct (h e w1) as [[o2 w2] t2] eqn:H2. intros [= -> <- <-].
    exact (Hh _ _ _ _ _ H2).
  - intros [= <- <- <-]. exact (Hm _ _ _ _ H1).
Qed.

Lemma exits_forOf {A} (l : list A) (body : A -> M unit) :
  (forall x, exitsOnlyWith code (body x)) -> exitsOnlyWith code (forOf l body).
Proof.
  intros Hb. induction l as [|x l IH]; cbn [forOf].
  - intros w c w' t [=].
  - apply exits_bind; [apply Hb | intros _; exact IH].
Qed.

Lemma exits_never {A} (m : M A) :
  (forall w c w' t, m w <> (Exit c, w', t)) -> exitsOnlyWith code m.
Proof. intros H w c w' t Hm. now destruct (H _ _ _ _ Hm). Qed.

Lemma exits_writeFileSync (path data : string) :
  exitsOnlyWith code (writeFileSync path data).
Proof.
  apply exits_never. intros w c w' t. unfold writeFileSync, bind, emit.
  destruct (dirs w !! Path.dirname path); discriminate.
Qed.

End ExitCodes.

Ltac exits_step :=
  lazymatch goal with
  | |- exitsOnlyWith _ (bind _ _) => apply exits_bind; [ | intros ? ]
  | |- exitsOnlyWith _ (tryCatch _ _) => apply exits_tryCatch; [ | intros ? ]
  | |- exitsOnlyWith _ (forOf _ _) => apply exits_forOf; intros ?
  | |- exitsOnlyWith _ (writeFileSync _ _) => apply exits_writeFileSync
  | |- exitsOnlyWith _ (process_exit _) =>
      let H := fresh in intros ? ? ? ? H; injection H as <- _ _; reflexivity
  | |- exitsOnlyWith _ (ret _) => apply exits_never; intros ? ? ? ?; discriminate
  | |- exitsOnlyWith _ (throw _) => apply exits_never; intros ? ? ? ?; discriminate
  | |- exitsOnlyWith _ getWorld => apply exits_never; intros ? ? ? ?; discriminate
  | |- exitsOnlyWith _ (emit _) => apply exits_never; intros ? ? ? ?; discriminate
  | |- exitsOnlyWith _ (remember _) => apply exits_never; intros ? ? ? ?; discriminate
  | |- exitsOnlyWith _ (call ?f) =>
      apply exits_never; let w := fresh in intros w ? ? ?; unfold call;
      destruct (f w); discriminate
  | |- exitsOnlyWith _ (liftResult ?r) =>
      apply exits_never; intros ? ? ? ?; unfold liftResult; destruct r; discriminate
  | |- exitsOnlyWith _ (console_log _) => unfold console_log
  | |- exitsOnlyWith _ (console_error _) => unfold console_error
  | |- exitsOnlyWith _ (readdirSync _) => unfold readdirSync
  | |- exitsOnlyWith _ (readFileSync _) => unfold readFileSync
  | |- exitsOnlyWith _ (exec _ _) => unfold exec
  | |- exitsOnlyWith _ (uploadToR2 _ _ _) => unfold uploadToR2
  | |- exitsOnlyWith _ (SyncTypes.uploadToR2 _ _ _) => unfold SyncTypes.uploadToR2
  | |- exitsOnlyWith _ (register _) => unfold register
  | |- exitsOnlyWith _ (create _) => unfold create
  | |- exitsOnlyWith _ (format _) => unfold format
  | |- exitsOnlyWith _ (if ?b then _ else _) => destruct b
  | |- exitsOnlyWith _ (match ?x with _ => _ end) => destruct x
  end.

Section ExitCodeTheorems.

Context {ext : Externals}.

#[local] Arguments changedSchemasOf : simpl never.
#[local] Arguments changedFilesOf : simpl never.
#[local] Arguments Path.join : simpl never.
#[local] Arguments Path.dirname : simpl never.
#[local] Arguments Str.trim : simpl never.
#[local] Arguments Str.split : simpl never.
#[local] Arguments Str.replace : simpl never.
#[local] Arguments Str.match_result : simpl never.
#[local] Arguments pretty : simpl never.
#[local] Arguments createParams : simpl never.

Lemma main_exits_with_1 : exitsOnlyWith 1 main.
Proof.
  unfold main, validateEnv, detectChangedSchemas, uploadRawSchemas, processAll,
    processSchema, generateTypes, bundleSchema, registerAllSchemas.
  repeat exits_step.
Qed.

(** X20: whatever happens, the exit code of a run is 0 or 1; it is 0 only
    when [main] returns, and processing a schema never ends the process by
    itself (it returns or throws, and [main] turns a throw into exit code
    1). *)
Theorem exit_code_is_zero_or_one (w : World) :
  (exists w' t, run w = (0%Z, w', t) /\ main w = (Ret tt, w', t)) \/
  (exists w' t, run w = (1%Z, w', t) /\ forall u, main w <> (Ret u, w', t)).
Proof.
  unfold run. destruct (main w) as [[[[]|e|c] w'] t] eqn:Hmain.
  - left. eauto.
  - right. exists w', t. split; [reflexivity | discriminate].
  - right. exists w', t. rewrite (main_exits_with_1 _ _ _ _ Hmain).
    split; [reflexivity | discriminate].
Qed.

End ExitCodeTheorems.

(** ** The companion script *)

Section Sync.

Context {ext : Externals}.

#[local] Arguments Path.join : simpl never.
#[local] Arguments Path.dirname : simpl never.
#[local] Arguments pretty : simpl never.
#[local] Arguments SyncTypes.keepType : simpl never.

Lemma sync_validateEnv_eq : SyncTypes.validateEnv = forOf SyncTypes.required checkEnv.
Proof. reflexivity. Qed.

Lemma sync_validateEnv_ok (w : World) :
  syncEnvComplete w -> SyncTypes.validateEnv w = (Ret tt, w, []).
Proof. intros H. rewrite sync_validateEnv_eq. now apply forOf_checkEnv_ok. Qed.

(** X21: the companion script needs the four storage values and not the
    text-generation credential: an environment the generating script
    accepts is accepted, and a missing storage value ends the run with exit
    code 1 before anything is listed, read or put. *)
Theorem sync_validation_needs_storage_values_only (w : World) :
  (envComplete w -> SyncTypes.validateEnv w = (Ret tt, w, [])) /\
  ((forall v, In v SyncTypes.required -> envMissing w v = false) ->
   SyncTypes.validateEnv w = (Ret tt, w, [])) /\
  ((exists v, In v SyncTypes.required /\ envMissing w v = true) ->
   exists v, In v SyncTypes.required /\ SyncTypes.run w = (1%Z, w, [missingLog v])).
Proof.
  split; [|split].
  - intros H. apply sync_validateEnv_ok. intros v Hv. apply H.
    simpl in Hv. simpl. tauto.
  - apply sync_validateEnv_ok.
  - intros H. apply forOf_checkEnv_missing in H as (v & Hin & _ & Hexit).
    exists v. split; [exact Hin|].
    unfold SyncTypes.run, SyncTypes.main. rewrite sync_validateEnv_eq.
    rewrite (bind_Exit _ _ _ _ _ _ Hexit). reflexivity.
Qed.

Lemma sync_uploadToR2_run (w : World) (key content contentType : string) :
  let command := {| Bucket := SyncTypes.BUCKET_NAME w; Key := key; Body := content;
                    ContentType := contentType;
                    CacheControl := SyncTypes.CACHE_CONTROL |} in
  r2_send w command = Ok tt ->
  SyncTypes.uploadToR2 key content contentType w =
  (Ret tt, tick w, [ELog Stdout [LStr ("Uploading: " +:+ key)]; ESend command]).
Proof.
  intros command H. unfold SyncTypes.uploadToR2, console_log, bind, emit, getWorld, call.
  fold command. rewrite H. reflexivity.
Qed.

Lemma forOf_uploadType (contentOf : string -> string) (w0 : World)
    (l : list string) (w : World) :
  stable w0 w ->
  (forall f, In f l -> files w0 !! Path.join "types" f = Some (contentOf f)) ->
  (forall w' f, In f l -> r2_send w' (typeCommand w0 f (contentOf f)) = Ok tt) ->
  exists w' t,
    forOf l uploadType w = (Ret tt, w', t) /\
    stable w0 w' /\
    sends t = List.map (fun f => typeCommand w0 f (contentOf f)) l.
Proof.
  revert w. induction l as [|f l IH]; intros w Hst Hread Hsend.
  - exists w, []. repeat split; apply Hst.
  - assert (uploadType f w =
            (Ret tt, tick w,
             [ERead (Path.join "types" f);
              ELog Stdout [LStr ("Uploading: " +:+ "types/" +:+ f)];
              ESend (typeCommand w0 f (contentOf f))])) as Hstep.
    { unfold uploadType, SyncTypes.TYPES_DIR, readFileSync, bind at 1 2 3, emit, getWorld.
      destruct Hst as (He & Hf & Hd). rewrite Hf, (Hread f) by (left; reflexivity).
      cbn [ret app]. unfold bind.
      rewrite sync_uploadToR2_run.
      - unfold typeCommand, SyncTypes.BUCKET_NAME. rewrite He. reflexivity.
      - unfold SyncTypes.BUCKET_NAME. rewrite He. apply (Hsend w f). left; reflexivity. }
    destruct (IH (tick w)) as (w' & t & Hrun & Hst' & Hsends).
    { now apply stable_tick. }
    { intros; apply Hread; right; assumption. }
    { intros; apply Hsend; right; assumption. }
    eexists w', _. cbn [forOf]. rewrite (bind_Ret _ _ _ _ _ _ Hstep), Hrun.
    split; [reflexivity|]. split; [exact Hst'|].
    cbn [app sends omap]. simpl. f_equal. exact Hsends.
Qed.

Lemma uploadAllTypes_eq :
  SyncTypes.uploadAllTypes =
  (console_log [LStr ("Reading type files from " +:+ SyncTypes.TYPES_DIR +:+ "/" +:+ Str.nl)] ;;
   entries <- readdirSync SyncTypes.TYPES_DIR ;;
   console_log
     [LStr ("Found " +:+ pretty (length (List.filter SyncTypes.keepType entries)) +:+
            " type file(s) to upload" +:+ Str.nl)] ;;
   forOf (List.filter SyncTypes.keepType entries) uploadType ;;
   ret (length (List.filter SyncTypes.keepType entries))).
Proof. reflexivity. Qed.

Lemma keepType_spec (entries : list string) (f : string) :
  In f (List.filter SyncTypes.keepType entries) <->
  In f entries /\ exists p, f = p +:+ ".d.ts".
Proof.
  rewrite filter_In. unfold SyncTypes.keepType.
  now rewrite StrFacts.endsWith_spec.
Qed.

Lemma uploadAllTypes_run
    (w : World) (entries : list string) (contentOf : string -> string) :
  dirs w !! "types" = Some entries ->
  (forall f, In f (List.filter SyncTypes.keepType entries) ->
             files w !! Path.join "types" f = Some (contentOf f)) ->
  (forall w' f, In f (List.filter SyncTypes.keepType entries) ->
                r2_send w' (typeCommand w f (contentOf f)) = Ok tt) ->
  exists w' t,
    SyncTypes.uploadAllTypes w =
      (Ret (length (List.filter SyncTypes.keepType entries)), w', t) /\
    sends t = List.map (fun f => typeCommand w f (contentOf f))
                (List.filter SyncTypes.keepType entries).
Proof.
  intros Hdir Hread Hsend.
  destruct (forOf_uploadType contentOf w (List.filter SyncTypes.keepType entries) w)
    as (w' & t & Hrun & Hst & Hsends).
  { repeat split. }
  { exact Hread. }
  { exact Hsend. }
  eexists w', _. rewrite uploadAllTypes_eq.
  unfold console_log, readdirSync, SyncTypes.TYPES_DIR, bind at 1 2 3 4, emit, getWorld.
  rewrite Hdir. cbn [ret app]. unfold bind. rewrite Hrun.
  split; [reflexivity|].
  change (sends (t ++ []) =
          List.map (fun f => typeCommand w f (contentOf f))
            (List.filter SyncTypes.keepType entries)).
  rewrite app_nil_r. exact Hsends.
Qed.

(** X22: when the [types] directory can be listed, its [.d.ts] entries
    read and the puts are accepted, the upload puts one object per entry
    ending in [.d.ts], in listing order, under the key [types/] followed by
    the file name, with the file's content and the media type
    [application/typescript], and returns their number; a directory
    without such entries gives no put and the number 0. *)
Theorem sync_uploads_every_declaration_file
    (w : World) (entries : list string) (contentOf : string -> string) :
  dirs w !! "types" = Some entries ->
  (forall f, In f entries -> (exists p, f = p +:+ ".d.ts") ->
             files w !! Path.join "types" f = Some (contentOf f)) ->
  (forall w' f, In f entries -> r2_send w' (typeCommand w f (contentOf f)) = Ok tt) ->
  exists w' t,
    SyncTypes.uploadAllTypes w =
      (Ret (length (List.filter SyncTypes.keepType entries)), w', t) /\
    sends t = List.map (fun f => typeCommand w f (contentOf f))
                (List.filter SyncTypes.keepType entries) /\
    (forall f, In f (List.filter SyncTypes.keepType entries) <->
               In f entries /\ exists p, f = p +:+ ".d.ts") /\
    (List.filter SyncTypes.keepType entries = [] -> sends t = []).
Proof.
  intros Hdir Hread Hsend.
  destruct (uploadAllTypes_run w entries contentOf Hdir) as (w' & t & Hrun & Hsends).
  - intros f Hf. apply keepType_spec in Hf as [Hin Hsuffix]. now apply Hread.
  - intros w' f Hf. apply keepType_spec in Hf as [Hin _]. now apply Hsend.
  - exists w', t. split; [exact Hrun|]. split; [exact Hsends|].
    split; [intros f; apply keepType_spec|].
    intros Hnone. now rewrite Hsends, Hnone.
Qed.

Lemma written_declaration_is_listed (d : Schema) (w1 : World) (ty : string) w2 tw :
  In d SCHEMAS ->
  writeFileSync (output d) ty w1 = (Ret tt, w2, tw) ->
  exists entries,
    dirs w2 !! "types" = Some entries /\
    In (basename (output d)) entries /\
    files w2 !! Path.join "types" (basename (output d)) = Some ty /\
    "types/" +:+ basename (output d) = types (r2Keys d) /\
    SyncTypes.keepType (basename (output d)) = true.
Proof.
  intros Hd. unfold writeFileSync, bind, emit.
  assert (Path.dirname (output d) = "types" /\
          Path.join "types" (basename (output d)) = output d /\
          "types/" +:+ basename (output d) = types (r2Keys d) /\
          SyncTypes.keepType (basename (output d)) = true) as (-> & -> & Hkey & Hkeep).
  { simpl in Hd. repeat (destruct Hd as [<-|Hd]; [repeat split; reflexivity|]).
    destruct Hd. }
  destruct (dirs w1 !! "types") as [names|]; [|discriminate].
  intros [= <- <-]. eexists. cbn [dirs files].
  split; [apply lookup_insert_eq|]. split; [|split; [apply lookup_insert_eq | auto]].
  destruct (existsb (String.eqb (basename (output d))) names) eqn:Hex.
  - apply existsb_exists in Hex as (x & Hx & Heq). apply String.eqb_eq in Heq. now subst.
  - apply in_or_app. right. left. reflexivity.
Qed.

(** X24: the two scripts fit together: once processing has written the
    declaration of a registered schema, the companion script (given a
    readable [types] directory and accepted puts) publishes that very text
    under the key the registry gives as the schema's types key, with the
    media type [application/typescript]. *)
Theorem written_declaration_is_published
    (d : Schema) (w1 : World) (ty : string) w2 tw
    (entries : list string) (contentOf : string -> string) :
  In d SCHEMAS ->
  writeFileSync (output d) ty w1 = (Ret tt, w2, tw) ->
  dirs w2 !! "types" = Some entries ->
  (forall f, In f entries -> (exists p, f = p +:+ ".d.ts") ->
             files w2 !! Path.join "types" f = Some (contentOf f)) ->
  (forall w' f, In f entries -> r2_send w' (typeCommand w2 f (contentOf f)) = Ok tt) ->
  exists n w' t,
    SyncTypes.uploadAllTypes w2 = (Ret n, w', t) /\
    In {| Bucket := env w2 !! "R2_BUCKET_NAME";
          Key := types (r2Keys d);
          Body := ty;
          ContentType := "application/typescript";
          CacheControl := "public, max-age=3600" |} (sends t).
Proof.
  intros Hd Hw Hdir Hread Hsend.
  destruct (written_declaration_is_listed _ _ _ _ _ Hd Hw)
    as (entries' & Hdir' & Hin & Hfile & Hkey & Hkeep).
  rewrite Hdir in Hdir'. injection Hdir' as <-.
  destruct (uploadAllTypes_run w2 entries contentOf Hdir) as (w' & t & Hrun & Hsends).
  { intros f Hf. apply keepType_spec in Hf as [Hf Hsuffix]. now apply Hread. }
  { intros w' f Hf. apply keepType_spec in Hf as [Hf _]. now apply Hsend. }
  exists (length (List.filter SyncTypes.keepType entries)), w', t.
  split; [exact Hrun|]. rewrite Hsends.
  assert (contentOf (basename (output d)) = ty) as Hty.
  { assert (exists p, basename (output d) = p +:+ ".d.ts") as Hext
      by (apply StrFacts.endsWith_spec; exact Hkeep).
    pose proof (Hread _ Hin Hext) as H. rewrite Hfile in H. now injection H. }
  apply in_map_iff. exists (basename (output d)). split.
  - unfold typeCommand. rewrite Hty, Hkey. reflexivity.
  - apply filter_In. split; [exact Hin | exact Hkeep].
Qed.

Lemma never_exits {A} (m : M A) :
  exitsOnlyWith 0 m -> exitsOnlyWith 1 m ->
  forall w c w' t, m w <> (Exit c, w', t).
Proof.
  intros H0 H1 w c w' t H. pose proof (H0 _ _ _ _ H). pose proof (H1 _ _ _ _ H). lia.
Qed.

Lemma uploadAllTypes_never_exits (w : World) c w' t :
  SyncTypes.uploadAllTypes w <> (Exit c, w', t).
Proof.
  apply never_exits; unfold SyncTypes.uploadAllTypes; repeat exits_step.
Qed.

Lemma forOf_checkEnv_never_throws (l : list string) (w : World) e w' t :
  forOf l checkEnv w <> (Throw e, w', t).
Proof.
  revert w t. induction l as [|v l IH]; intros w t; cbn [forOf]; [discriminate|].
  intros H. apply bind_inv in H
    as [(u & w1 & t1 & t2 & Ha & Hb & _) | [(e' & Ha & _) | (c & _ & [=])]].
  - exact (IH _ _ Hb).
  - revert Ha. unfold checkEnv, bind, getWorld, console_error, emit.
    destruct (envMissing w v); discriminate.
Qed.

Lemma forOf_checkEnv_exits_with_1 (l : list string) : exitsOnlyWith 1 (forOf l checkEnv).
Proof. unfold checkEnv. repeat exits_step. Qed.

(** X23: the companion script catches every failure of its upload: when
    the upload throws, the failure is reported and the run exits with code
    1; so its [main] never ends with an exception, only by returning or by
    exiting with code 1. *)
Theorem sync_main_catches_every_failure (w : World) :
  (forall e w1 t1,
     syncEnvComplete w ->
     SyncTypes.uploadAllTypes w = (Throw e, w1, t1) ->
     SyncTypes.main w = (Exit 1, w1, syncBanner w :: t1 ++ [syncFailureLog e])) /\
  (forall o w' t, SyncTypes.main w = (o, w', t) -> o = Ret tt \/ o = Exit 1).
Proof.
  split.
  - intros e w1 t1 Henv Hup. unfold SyncTypes.main.
    rewrite (bind_Ret _ _ _ _ _ _ (sync_validateEnv_ok _ Henv)).
    unfold bind at 1 2, getWorld, console_log at 1, emit at 1, tryCatch.
    rewrite (bind_Throw _ _ _ _ _ _ Hup). reflexivity.
  - intros o w' t H. unfold SyncTypes.main in H. rewrite sync_validateEnv_eq in H.
    apply bind_inv in H as [(u & w1 & t1 & t2 & H1 & H & ->) | [(e & H1 & ->) | (c & H1 & ->)]].
    + unfold bind at 1 2, getWorld, console_log at 1, emit at 1, tryCatch in H.
      destruct ((count <- SyncTypes.uploadAllTypes ;;
                 console_log
                   [LStr (Str.nl +:+ "✓ Successfully uploaded " +:+ pretty count +:+
                          " type file(s) to R2")]) w1) as [[[[]|e|c] wb] tb] eqn:Hbody.
      * injection H as <- _ _. now left.
      * injection H as <- _ _. now right.
      * exfalso.
        apply bind_inv in Hbody
          as [(n & w2 & t3 & t4 & _ & Hb & _) | [(e & _ & [=]) | (c' & Hb & _)]].
        -- discriminate Hb.
        -- exact (uploadAllTypes_never_exits _ _ _ _ Hb).
    + now destruct (forOf_checkEnv_never_throws _ _ _ _ _ H1).
    + right. f_equal. exact (forOf_checkEnv_exits_with_1 _ _ _ _ _ H1).
Qed.

End Sync.

(** ** Unregistered changes, repeated registration *)

Section MoreRuns.

Context {ext : Externals}.

#[local] Arguments changedSchemasOf : simpl never.
#[local] Arguments changedFilesOf : simpl never.
#[local] Arguments Path.join : simpl never.
#[local] Arguments Path.dirname : simpl never.
#[local] Arguments pretty : simpl never.

(** X25: when none of the changed files is the input of a registered
    descriptor (a schema file that has no entry in the registry, say), the
    run is a no-op with exit code 0: nothing is put, the raw mirror
    included, whatever else changed. *)
Theorem unregistered_changes_are_a_no_op (w : World) (diff : string) :
  envComplete w ->
  execSync w gitDiff None = Ok diff ->
  (forall d, In d SCHEMAS -> ~ In (input d) (changedFilesOf diff)) ->
  exists t, run w = (0%Z, tick w, t) /\ sends t = [] /\ creates t = [] /\ writes t = [].
Proof.
  intros Henv Hdiff Hnone.
  assert (changedSchemasOf (changedFilesOf diff) = []) as Hs.
  { unfold changedSchemasOf.
    induction SCHEMAS as [|d l IH]; [reflexivity|]. cbn [List.filter].
    destruct (Array_includes (changedFilesOf diff) (input d)) eqn:Hin.
    - apply Array_includes_spec in Hin. destruct (Hnone d); [left; reflexivity | exact Hin].
    - apply IH. intros d' Hd'. apply Hnone. right. exact Hd'. }
  eexists. unfold run. rewrite (main_no_changes _ _ Henv Hdiff Hs).
  repeat split; reflexivity.
Qed.

(** X26: registration starts afresh for every schema: bundling a second
    schema of the same directory hands the registry the same documents
    once more, whatever the first bundling did. *)
Theorem registration_is_repeated_per_schema
    (first second : string) (w : World) (entries : list string) o1 w1 t1 o2 w2 t2 :
  dirs w !! Path.dirname first = Some entries ->
  Path.dirname second = Path.dirname first ->
  bundleSchema first w = (o1, w1, t1) ->
  registerAllSchemas second w1 = (o2, w2, t2) ->
  o2 = Ret tt /\
  registrations t2 =
    omap (siblingDocument w (Path.dirname first)) (List.filter keepFile entries) /\
  registrations t1 = registrations t2.
Proof.
  intros Hdir Hsame Hfirst Hsecond.
  pose proof (bundleSchema_calm first _ _ _ _ Hfirst) as [Hst _].
  destruct (registerAllSchemas_run first w entries Hdir) as (wa & ta & Ha & _ & Hra & _).
  assert (dirs w1 !! Path.dirname second = Some entries) as Hdir1.
  { destruct Hst as (_ & _ & ->). now rewrite Hsame. }
  destruct (registerAllSchemas_run second w1 entries Hdir1) as (wb & tb & Hb & _ & Hrb & _).
  rewrite Hb in Hsecond. injection Hsecond as <- <- <-.
  assert (registrations tb =
          omap (siblingDocument w (Path.dirname first)) (List.filter keepFile entries)) as Hreg.
  { rewrite Hrb, Hsame. apply list_omap_ext, Forall_Forall2_diag, Forall_forall.
    intros f _. now apply siblingDocument_stable. }
  split; [reflexivity|]. split; [exact Hreg|].
  unfold bundleSchema in Hfirst. rewrite (bind_Ret _ _ _ _ _ _ Ha) in Hfirst.
  assert (always anyWorld (fun e => registrations [e] = [])
            (data <- readFileSync first ;;
             mainSchema <- liftResult (JSON_parse data) ;;
             schemaId <- liftResult (getProp mainSchema "$id") ;;
             if negb (truthy schemaId)
             then throw (JsError ("Schema at " +:+ first +:+ " must have an $id property"))
             else emit (EBundle schemaId) ;;
                  bundled <- call (fun w => bundle w schemaId) ;;
                  ret (JSON_stringify bundled))) as Htail
    by (always_tac; reflexivity).
  destruct ((data <- readFileSync first ;;
             mainSchema <- liftResult (JSON_parse data) ;;
             schemaId <- liftResult (getProp mainSchema "$id") ;;
             if negb (truthy schemaId)
             then throw (JsError ("Schema at " +:+ first +:+ " must have an $id property"))
             else emit (EBundle schemaId) ;;
                  bundled <- call (fun w => bundle w schemaId) ;;
                  ret (JSON_stringify bundled)) wa) as [[o3 w3] t3] eqn:H3.
  injection Hfirst as _ _ <-. apply Htail in H3 as [_ H3].
  rewrite registrations_app, Hra, Hreg.
  assert (registrations t3 = []) as ->; [|apply app_nil_r].
  clear -H3. induction H3 as [|e t He _ IH]; [reflexivity|].
  change (registrations ([e] ++ t) = []). now rewrite registrations_app, He, IH.
Qed.

End MoreRuns.

(** ** Two more edges: the directory listing and the registry *)

Section MoreEdges.

Context {ext : Externals}.

#[local] Arguments Path.dirname : simpl never.
#[local] Arguments Str.trim : simpl never.
#[local] Arguments Str.split : simpl never.

(** X27: a directory that cannot be listed (it is missing, it is a file,
    the process may not open it) is not among the defects that registration
    passes over: the listing stands outside the [try] block, so its error,
    with the code the operating system gives for it, leaves
    [registerAllSchemas] and [bundleSchema] at once, before the target or
    any sibling is read. *)
Theorem unlistable_directory_aborts_bundling (schemaPath : string) (w : World) :
  dirs w !! Path.dirname schemaPath = None ->
  let dir := Path.dirname schemaPath in
  registerAllSchemas schemaPath w =
    (Throw (SystemError (errno w ReadDir dir) dir), w, [EReadDir dir]) /\
  bundleSchema schemaPath w =
    (Throw (SystemError (errno w ReadDir dir) dir), w, [EReadDir dir]).
Proof.
  intros Hdir dir.
  assert (registerAllSchemas schemaPath w =
          (Throw (SystemError (errno w ReadDir dir) dir), w, [EReadDir dir])) as Hreg.
  { unfold registerAllSchemas, readdirSync, bind at 1 2 3, emit, getWorld.
    rewrite Hdir. reflexivity. }
  split; [exact Hreg|].
  unfold bundleSchema. now rewrite (bind_Throw _ _ _ _ _ _ Hreg).
Qed.

(** X28: the filter on the changed files never drops the input of a
    registered descriptor: whenever the output of the version-control
    query has the input path of a registered descriptor as one of its
    lines, that descriptor is among the detected ones, whatever else the
    query lists. *)
Theorem registered_schema_is_detected_when_listed
    (w : World) (diff : string) (d : Schema) :
  execSync w gitDiff None = Ok diff ->
  In d SCHEMAS ->
  In (input d) (Str.split "010" (Str.trim diff)) ->
  keepChanged (input d) = true /\
  exists t,
    detectChangedSchemas w = (Ret (changedSchemasOf (changedFilesOf diff)), tick w, t) /\
    In d (changedSchemasOf (changedFilesOf diff)).
Proof.
  intros Hdiff Hd Hline.
  assert (keepChanged (input d) = true) as Hkeep.
  { clear -Hd. simpl in Hd.
    repeat (destruct Hd as [<-|Hd]; [reflexivity|]). destruct Hd. }
  split; [exact Hkeep|].
  exists (detectEvents diff). split; [now apply detect_run|].
  unfold changedSchemasOf. apply filter_In. split; [exact Hd|].
  apply Array_includes_spec. unfold changedFilesOf.
  apply filter_In. split; [exact Hline | exact Hkeep].
Qed.

End MoreEdges.

(** ** The further properties on the sample repository *)

Lemma unreadable_envComplete : envComplete sample_world_unreadable.
Proof.
  intros v Hv. simpl in Hv.
  repeat (destruct Hv as [<-|Hv]; [reflexivity|]). destruct Hv.
Qed.

Lemma validation_passes_iff_complete_witness :
  validateEnv sample_world = (Ret tt, sample_world, []).
Proof.
  apply (proj1 (validation_passes_iff_complete sample_world)).
  apply sample_envComplete.
Defined.

Lemma validation_reports_first_missing_witness :
  validateEnv sample_world_no_bucket =
    (Exit 1, sample_world_no_bucket, [missingLog "R2_BUCKET_NAME"]) /\
  @run (sample_ext diff_model reply_good) sample_world_no_bucket =
    (1%Z, sample_world_no_bucket, [missingLog "R2_BUCKET_NAME"]).
Proof.
  apply (@validation_reports_first_missing (sample_ext diff_model reply_good)
           ["ANTHROPIC_API_KEY"; "R2_ACCOUNT_ID"; "R2_ACCESS_KEY_ID"; "R2_SECRET_ACCESS_KEY"]
           [] "R2_BUCKET_NAME" sample_world_no_bucket).
  - reflexivity.
  - intros u Hu. simpl in Hu.
    repeat (destruct Hu as [<-|Hu]; [reflexivity|]). destruct Hu.
  - reflexivity.
Defined.

Lemma failed_query_aborts_run_witness :
  @main failing_ext sample_world =
    (Throw (ExternalError "git" "not a repository"), tick sample_world, detectFailureEvents) /\
  @run failing_ext sample_world = (1%Z, tick sample_world, detectFailureEvents).
Proof.
  apply (@failed_query_aborts_run failing_ext sample_world).
  - apply sample_envComplete.
  - reflexivity.
Defined.

Lemma detection_ignores_order_and_repetition_witness :
  changedSchemasOf ["schema/model.json"; "schema/content.json"] =
  changedSchemasOf ["schema/content.json"; "schema/model.json"; "schema/model.json"] /\
  List.NoDup (List.map input (changedSchemasOf ["schema/model.json"; "schema/content.json"])).
Proof.
  apply detection_ignores_order_and_repetition.
  intros x. simpl. tauto.
Defined.

Lemma blank_diff_changes_nothing_witness :
  let diff := Str.nl +:+ " " +:+ Str.nl in
  changedFilesOf diff = [] /\
  exists t, @run (sample_ext diff reply_good) sample_world = (0%Z, tick sample_world, t) /\
            sends t = [].
Proof.
  intros diff.
  apply (@blank_diff_changes_nothing (sample_ext diff reply_good) sample_world diff).
  - apply sample_envComplete.
  - reflexivity.
  - apply (blank_cons Str.nl); [vm_compute; tauto|].
    apply (blank_cons " "); [vm_compute; tauto|].
    apply (blank_cons Str.nl ""); [vm_compute; tauto|].
    apply blank_nil.
Defined.

Lemma every_put_has_the_fixed_shape_witness :
  let r := @main (sample_ext diff_model reply_good) sample_world in
  env r.1.2 = env sample_world /\
  Forall (fun c => Bucket c = env sample_world !! "R2_BUCKET_NAME" /\
                   CacheControl c = "public, max-age=3600" /\
                   ContentType c = "application/json") (sends r.2).
Proof.
  intros r.
  apply (@every_put_has_the_fixed_shape (sample_ext diff_model reply_good)
           sample_world r.1.1 r.1.2 r.2).
  vm_compute. reflexivity.
Defined.

Lemma no_work_for_unchanged_descriptors_witness :
  let ext := sample_ext diff_model reply_good in
  let changed := changedSchemasOf (changedFilesOf diff_model) in
  let r := @main ext sample_world in
  Forall (@workFor ext (files sample_world) changed) r.2 /\
  forall d, In d SCHEMAS -> ~ In d changed ->
    (forall cwd, ~ In (EExec (json2ts d) cwd) r.2) /\
    (forall data, ~ In (EWrite (output d) data) r.2) /\
    (forall c, In (ESend c) r.2 -> Key c <> bundled (r2Keys d)).
Proof.
  intros ext changed r.
  apply (@no_work_for_unchanged_descriptors ext sample_world diff_model r.1.1 r.1.2 r.2).
  - apply sample_envComplete.
  - reflexivity.
  - vm_compute. reflexivity.
Defined.

Lemma raw_upload_stops_at_unreadable_file_witness :
  let ext := sample_ext diff_model reply_good in
  (@uploadRawSchemas ext sample_world_subdir).1.1 =
    Throw (SystemError "EISDIR" "schema/drafts.json") /\
  exists w' t,
    @uploadRawSchemas ext sample_world_subdir =
      (Throw (SystemError (@errno ext w' ReadFile (Path.join "schema" "drafts.json"))
                (Path.join "schema" "drafts.json")), w', t) /\
    stable sample_world_subdir w' /\
    sends t = List.map (fun f => rawCommand sample_world_subdir f (sample_content f))
                ["model.json"] /\
    last t = Some (ERead (Path.join "schema" "drafts.json")).
Proof.
  intros ext. split; [vm_compute; reflexivity|].
  apply (@raw_upload_stops_at_unreadable_file ext sample_world_subdir
           ["model.json"; "drafts.json"; "content.json"]
           ["model.json"] ["content.json"] "drafts.json" sample_content).
  - reflexivity.
  - reflexivity.
  - intros f [<-|[]]. reflexivity.
  - reflexivity.
  - reflexivity.
Defined.

Lemma failed_raw_upload_aborts_run_witness :
  let ext := sample_ext diff_model reply_good in
  let raw := @uploadRawSchemas ext (tick sample_world_unreadable) in
  @run ext sample_world_unreadable = (1%Z, raw.1.2, detectEvents diff_model ++ raw.2) /\
  files raw.1.2 = files sample_world_unreadable /\
  creates raw.2 = [] /\ writes raw.2 = [].
Proof.
  intros ext raw.
  apply (@failed_raw_upload_aborts_run ext sample_world_unreadable diff_model
           (SystemError "ENOENT" "schema/locked.json") raw.1.2 raw.2).
  - apply unreadable_envComplete.
  - reflexivity.
  - vm_compute. discriminate.
  - vm_compute. reflexivity.
Defined.

Lemma no_generation_call_without_draft_and_template_witness :
  exists e w' t,
    @generateTypes failing_ext model_schema sample_world = (Throw e, w', t) /\
    creates t = [].
Proof.
  apply (@no_generation_call_without_draft_and_template failing_ext model_schema sample_world).
  left. eexists. reflexivity.
Defined.

Lemma generation_has_no_side_effect_on_disk_witness :
  let r := @generateTypes (sample_ext diff_model reply_good) model_schema sample_world in
  env r.1.2 = env sample_world /\ files r.1.2 = files sample_world /\
  dirs r.1.2 = dirs sample_world /\
  writes r.2 = [] /\ sends r.2 = [] /\ (length (creates r.2) <= 1)%nat.
Proof.
  intros r.
  apply (@generation_has_no_side_effect_on_disk (sample_ext diff_model reply_good)
           model_schema sample_world r.1.1 r.1.2 r.2).
  vm_compute. reflexivity.
Defined.

Lemma prompt_without_placeholder_drops_draft_witness :
  promptFor "Clean this up: <d.ts> </d.ts>" "export interface Draft {}" =
  "Clean this up: <d.ts> </d.ts>".
Proof.
  apply prompt_without_placeholder_drops_draft.
  intros Hsplit. apply StrFacts.includes_spec in Hsplit. discriminate Hsplit.
Defined.

Lemma prompt_inserts_draft_at_first_placeholder_witness :
  promptFor "Clean: <d.ts></d.ts> (not <d.ts></d.ts>)" "export interface Draft {}" =
  "Clean: " +:+ "<d.ts>" +:+ Str.nl +:+ "export interface Draft {}" +:+ Str.nl +:+
  "</d.ts>" +:+ " (not <d.ts></d.ts>)".
Proof.
  apply prompt_inserts_draft_at_first_placeholder.
  - apply cut_firstOccurrence. reflexivity.
  - apply noDollar_includes. reflexivity.
Defined.

Lemma bundling_resolves_the_target_id_witness :
  let ext := sample_ext diff_model reply_good in
  let id := Some (JString "https://example.test/model.json") in
  exists w1 t1,
    @registerAllSchemas ext "schema/model.json" sample_world = (Ret tt, w1, t1) /\
    @bundleSchema ext "schema/model.json" sample_world =
      (match @bundle ext w1 id with
       | Ok bundled => Ret (@JSON_stringify ext bundled)
       | Raise e => Throw e
       end, tick w1, t1 ++ [ERead "schema/model.json"; EBundle id]).
Proof.
  intros ext id.
  apply (@bundling_resolves_the_target_id ext "schema/model.json" sample_world
           sample_entries "model" doc_model id);
    reflexivity.
Defined.

Lemma malformed_target_aborts_bundling_witness :
  exists e w' t,
    @bundleSchema (sample_ext diff_model reply_good) "schema/broken.json" sample_world =
      (Throw e, w', t) /\
    Forall (fun ev => isNetwork ev = false) t.
Proof.
  apply (@malformed_target_aborts_bundling (sample_ext diff_model reply_good)
           "schema/broken.json" sample_world sample_entries).
  - reflexivity.
  - right. exists "{". split; [reflexivity|].
    left. eexists. reflexivity.
Defined.

Lemma processing_success_publishes_one_bundle_witness :
  let ext := sample_ext diff_model reply_good in
  let ty := "export interface Model {}" +:+ Str.nl in
  let gen := @generateTypes ext model_schema sample_world in
  let wr := writeFileSync (output model_schema) ty gen.1.2 in
  let bun := @bundleSchema ext (input model_schema) wr.1.2 in
  exists t,
    @processSchema ext model_schema sample_world = (Ret tt, tick bun.1.2, t) /\
    files (tick bun.1.2) !! output model_schema = Some ty /\
    sends t = [bundleCommand sample_world model_schema "{}"] /\
    writes t = [(output model_schema, ty)].
Proof.
  intros ext ty gen wr bun.
  apply (@processing_success_publishes_one_bundle ext model_schema sample_world ty "{}"
           gen.1.2 gen.2 wr.1.2 wr.2 bun.1.2 bun.2).
  - vm_compute. reflexivity.
  - vm_compute. reflexivity.
  - vm_compute. reflexivity.
  - reflexivity.
Defined.

Lemma successful_run_publishes_each_bundle_witness :
  let ext := sample_ext diff_model reply_good in
  let changed := changedSchemasOf (changedFilesOf diff_model) in
  let raw := @uploadRawSchemas ext (tick sample_world) in
  let pro := @processAll ext changed raw.1.2 in
  @run ext sample_world =
    (0%Z, pro.1.2, detectEvents diff_model ++ raw.2 ++ pro.2 ++ successEvents) /\
  List.map Key (sends pro.2) = List.map (fun d => bundled (r2Keys d)) changed.
Proof.
  intros ext changed raw pro.
  apply (@successful_run_publishes_each_bundle ext sample_world diff_model
           raw.1.2 raw.2 pro.1.2 pro.2).
  - apply sample_envComplete.
  - reflexivity.
  - vm_compute. discriminate.
  - vm_compute. reflexivity.
  - vm_compute. reflexivity.
Defined.

Lemma at_most_one_generation_per_changed_schema_witness :
  let ext := sample_ext diff_both reply_good in
  let changed := changedSchemasOf (changedFilesOf diff_both) in
  let r := @main ext sample_world in
  (exists called rest,
     changed = called ++ rest /\
     Forall2 (@generationFor ext (files sample_world)) called (creates r.2) /\
     List.NoDup (List.map input called) /\
     (r.1.1 = Ret tt -> rest = [])) /\
  (length (creates r.2) <= length changed)%nat /\
  (changed = [] -> creates r.2 = []).
Proof.
  intros ext changed r.
  apply (@at_most_one_generation_per_changed_schema ext sample_world diff_both
           r.1.1 r.1.2 r.2).
  - apply sample_envComplete.
  - reflexivity.
  - vm_compute. reflexivity.
Defined.

Lemma sync_validation_needs_storage_values_only_witness :
  SyncTypes.validateEnv sample_world = (Ret tt, sample_world, []).
Proof.
  apply (proj1 (@sync_validation_needs_storage_values_only
                  (sample_ext diff_model reply_good) sample_world)).
  apply sample_envComplete.
Defined.

Lemma sync_uploads_every_declaration_file_witness :
  let ext := sample_ext diff_model reply_good in
  let entries := ["model.d.ts"; "NOTES.md"; "content.d.ts"] in
  exists w' t,
    @SyncTypes.uploadAllTypes ext sample_types_world =
      (Ret (length (List.filter SyncTypes.keepType entries)), w', t) /\
    sends t = List.map (fun f => typeCommand sample_types_world f
                                   (types_content sample_types_world f))
                (List.filter SyncTypes.keepType entries) /\
    (forall f, In f (List.filter SyncTypes.keepType entries) <->
               In f entries /\ exists p, f = p +:+ ".d.ts") /\
    (List.filter SyncTypes.keepType entries = [] -> sends t = []).
Proof.
  intros ext entries.
  apply (@sync_uploads_every_declaration_file ext sample_types_world entries
           (types_content sample_types_world)).
  - reflexivity.
  - intros f Hin Hsuffix. apply StrFacts.endsWith_spec in Hsuffix.
    simpl in Hin. destruct Hin as [<-|[<-|[<-|[]]]];
      [reflexivity | discriminate Hsuffix | reflexivity].
  - reflexivity.
Defined.

Lemma sync_main_catches_every_failure_witness :
  let r := @SyncTypes.main failing_ext sample_types_world in
  r.1.1 = Ret tt \/ r.1.1 = Exit 1.
Proof.
  intros r.
  apply (proj2 (@sync_main_catches_every_failure failing_ext sample_types_world)
           r.1.1 r.1.2 r.2).
  vm_compute. reflexivity.
Defined.

Lemma written_declaration_is_published_witness :
  let ext := sample_ext diff_model reply_good in
  let ty := "export interface Model {}" +:+ Str.nl in
  let wr := writeFileSync (output model_schema) ty sample_world in
  exists n w' t,
    @SyncTypes.uploadAllTypes ext wr.1.2 = (Ret n, w', t) /\
    In {| Bucket := env wr.1.2 !! "R2_BUCKET_NAME";
          Key := types (r2Keys model_schema);
          Body := ty;
          ContentType := "application/typescript";
          CacheControl := "public, max-age=3600" |} (sends t).
Proof.
  intros ext ty wr.
  apply (@written_declaration_is_published ext model_schema sample_world ty
           wr.1.2 wr.2 ["model.d.ts"] (types_content wr.1.2)).
  - left. reflexivity.
  - vm_compute. reflexivity.
  - reflexivity.
  - intros f Hin _. simpl in Hin. destruct Hin as [<-|[]]. reflexivity.
  - reflexivity.
Defined.

Lemma unregistered_changes_are_a_no_op_witness :
  changedFilesOf diff_function = ["schema/function.json"] /\
  exists t,
    @run (sample_ext diff_function reply_good) sample_world = (0%Z, tick sample_world, t) /\
    sends t = [] /\ creates t = [] /\ writes t = [].
Proof.
  split; [reflexivity|].
  apply (@unregistered_changes_are_a_no_op (sample_ext diff_function reply_good)
           sample_world diff_function).
  - apply sample_envComplete.
  - reflexivity.
  - intros d Hd Hin. simpl in Hd.
    repeat (destruct Hd as [<-|Hd]; [vm_compute in Hin; intuition discriminate|]).
    destruct Hd.
Defined.

Lemma registration_is_repeated_per_schema_witness :
  let ext := sample_ext diff_both reply_good in
  let bun := @bundleSchema ext "schema/model.json" sample_world in
  let reg := @registerAllSchemas ext "schema/content.json" bun.1.2 in
  reg.1.1 = Ret tt /\
  registrations reg.2 =
    omap (@siblingDocument ext sample_world (Path.dirname "schema/model.json"))
      (List.filter keepFile sample_entries) /\
  registrations bun.2 = registrations reg.2.
Proof.
  intros ext bun reg.
  apply (@registration_is_repeated_per_schema ext "schema/model.json" "schema/content.json"
           sample_world sample_entries bun.1.1 bun.1.2 bun.2 reg.1.1 reg.1.2 reg.2).
  - reflexivity.
  - reflexivity.
  - vm_compute. reflexivity.
  - vm_compute. reflexivity.
Defined.

Lemma unlistable_directory_aborts_bundling_witness :
  let ext := sample_ext diff_model reply_good in
  let schemaPath := "schema/model.json/x.json" in
  @errno ext sample_world ReadDir (Path.dirname schemaPath) = "ENOTDIR" /\
  @registerAllSchemas ext schemaPath sample_world =
    (Throw (SystemError (@errno ext sample_world ReadDir (Path.dirname schemaPath))
              (Path.dirname schemaPath)), sample_world,
     [EReadDir (Path.dirname schemaPath)]) /\
  @bundleSchema ext schemaPath sample_world =
    (Throw (SystemError (@errno ext sample_world ReadDir (Path.dirname schemaPath))
              (Path.dirname schemaPath)), sample_world,
     [EReadDir (Path.dirname schemaPath)]).
Proof.
  intros ext schemaPath. split; [vm_compute; reflexivity|].
  apply (@unlistable_directory_aborts_bundling ext schemaPath sample_world).
  reflexivity.
Defined.

Lemma registered_schema_is_detected_when_listed_witness :
  let ext := sample_ext diff_both reply_good in
  keepChanged (input model_schema) = true /\
  exists t,
    @detectChangedSchemas ext sample_world =
      (Ret (changedSchemasOf (changedFilesOf diff_both)), tick sample_world, t) /\
    In model_schema (changedSchemasOf (changedFilesOf diff_both)).
Proof.
  intros ext.
  apply (@registered_schema_is_detected_when_listed ext sample_world diff_both model_schema).
  - reflexivity.
  - left. reflexivity.
  - vm_compute. right. left. reflexivity.
Defined.
